(** * pokerweb: the Texas Hold'em table engine of [server.py]

    A shallow embedding of the rules engine (cards, hand ranking, the
    betting state machine, settlement and the two HTTP routes that drive
    it), followed by the properties of the engine that the specification
    states. *)

From Stdlib Require Import ZArith String DecimalString Bool Lia Permutation Sorted List.
Import ListNotations.

Local Open Scope Z_scope.

(** ** Python primitives used by the engine *)

Module Py.

(** The exceptions the engine can raise. *)
Inductive Exn : Type :=
| IndexError | TypeError | KeyError | AttributeError | ZeroDivisionError | ValueError
| ServiceError.  (* whatever the call to the remote service raises *)

(** Result of a pure computation that may raise. *)
Inductive Res (A : Type) : Type :=
| Ok (a : A)
| Err (e : Exn).
Arguments Ok {A} a.
Arguments Err {A} e.

Definition rbind {A B} (r : Res A) (k : A -> Res B) : Res B :=
  match r with Ok a => k a | Err e => Err e end.

(** A value as it arrives from a decoded JSON body. *)
Inductive PyVal : Type :=
| PyInt (z : Z)
| PyStr (s : string)
| PyNone.

(** [action == 'fold'] and the like: only a string equals a string. *)
Definition is_str (v : PyVal) (s : string) : bool :=
  match v with PyStr s' => String.eqb s' s | _ => false end.

(** [l[i]]: the position a Python index denotes, negative indices counting
    from the end; [None] stands for IndexError. *)
Definition position (n : nat) (i : Z) : option nat :=
  let len := Z.of_nat n in
  if (0 <=? i) && (i <? len) then Some (Z.to_nat i)
  else if (- len <=? i) && (i <? 0) then Some (Z.to_nat (len + i))
  else None.

Definition index {A} (l : list A) (i : Z) : Res A :=
  match position (length l) i with
  | Some k => match nth_error l k with Some a => Ok a | None => Err IndexError end
  | None => Err IndexError
  end.

(** [a % n] with [n = len(...)] (never negative). *)
Definition modulo (a n : Z) : Res Z :=
  if n =? 0 then Err ZeroDivisionError else Ok (a mod n).

(** [a // n]. *)
Definition floordiv (a n : Z) : Res Z :=
  if n =? 0 then Err ZeroDivisionError else Ok (a / n).

(** Lexicographic [<] on pairs and lists, as Python compares tuples and
    lists. *)
Definition pair_ltb {A B} (lta : A -> A -> bool) (eqa : A -> A -> bool)
    (ltb : B -> B -> bool) (x y : A * B) : bool :=
  lta (fst x) (fst y) || (eqa (fst x) (fst y) && ltb (snd x) (snd y)).

Fixpoint list_ltb (x y : list Z) : bool :=
  match x, y with
  | [], [] => false
  | [], _ :: _ => true
  | _ :: _, [] => false
  | a :: x', b :: y' => (a <? b) || ((a =? b) && list_ltb x' y')
  end.

Definition bool_ltb (a b : bool) : bool := negb a && b.

(** [sorted(l, key=key, reverse=True)]: a stable sort into descending key
    order; elements with equal keys keep their original relative order. *)
Section Sorted.
Context {A K : Type} (ltb : K -> K -> bool) (key : A -> K).

Fixpoint insert_desc (x : A) (l : list A) : list A :=
  match l with
  | [] => [x]
  | y :: l' => if ltb (key x) (key y) then y :: insert_desc x l' else x :: l
  end.

Fixpoint sorted_desc (l : list A) : list A :=
  match l with
  | [] => []
  | x :: r => insert_desc x (sorted_desc r)
  end.
End Sorted.

(** [a] does not sort after [b]. *)
Definition not_below {A K : Type} (ltb : K -> K -> bool) (key : A -> K) (a b : A) : Prop :=
  ltb (key a) (key b) = false.

(** [itertools.combinations(l, k)], in the order itertools yields them. *)
Fixpoint combinations {A} (l : list A) (k : nat) : list (list A) :=
  match l, k with
  | _, O => [[]]
  | [], S _ => []
  | x :: r, S k' => map (cons x) (combinations r k') ++ combinations r k
  end.

(** [max(l)] and [min(l)] of a non-empty list. *)
Definition list_max (l : list Z) : Z := fold_right Z.max (hd 0 l) l.
Definition list_min (l : list Z) : Z := fold_right Z.min (hd 0 l) l.

Definition list_eqb (x y : list Z) : bool :=
  if list_eq_dec Z.eq_dec x y then true else false.

End Py.
Import Py.

Notation "x <~ r ; k" := (rbind r (fun x => k))
  (at level 61, r at next level, right associativity).

(** ** Cards and the deck *)

Inductive Suit : Type := Spade | Heart | Diamond | Club.

Inductive Rank : Type :=
| R2 | R3 | R4 | R5 | R6 | R7 | R8 | R9 | R10 | RJ | RQ | RK | RA.

Definition SUITS : list Suit := [Spade; Heart; Diamond; Club].
Definition RANKS : list Rank := [R2; R3; R4; R5; R6; R7; R8; R9; R10; RJ; RQ; RK; RA].

Definition RANK_VALUES (r : Rank) : Z :=
  match r with
  | R2 => 2 | R3 => 3 | R4 => 4 | R5 => 5 | R6 => 6 | R7 => 7 | R8 => 8
  | R9 => 9 | R10 => 10 | RJ => 11 | RQ => 12 | RK => 13 | RA => 14
  end.

Record Card : Type := mkCard { suit : Suit; rank : Rank }.

Definition value (c : Card) : Z := RANK_VALUES (rank c).

Definition card (s : Suit) (r : Rank) : Card := mkCard s r.

Definition Suit_eq_dec (a b : Suit) : {a = b} + {a <> b}.
Proof. decide equality. Defined.

(** [Deck.__init__] before the shuffle: [Card(s, r) for s in SUITS for r in RANKS]. *)
Definition fresh_deck : list Card :=
  flat_map (fun s => map (fun r => mkCard s r) RANKS) SUITS.

(** [Deck.deal]: [self.cards.pop() if self.cards else None], taking the
    last card of the list. *)
Definition deal (cards : list Card) : option Card * list Card :=
  match rev cards with
  | [] => (None, cards)
  | c :: r => (Some c, rev r)
  end.

(** ** Hand ranking *)

(** [get_hand_rank] on five cards. The dictionary of value counts is built
    from [set(values)], whose iteration order Python leaves open; the items
    are then sorted by (count, value), keys that are pairwise different, so
    the order of [counts] does not depend on it. *)

Definition zpair_ltb : Z * Z -> Z * Z -> bool := pair_ltb Z.ltb Z.eqb Z.ltb.
Definition bz_ltb : bool * Z -> bool * Z -> bool := pair_ltb bool_ltb Bool.eqb Z.ltb.

Definition count_of (v : Z) (values : list Z) : Z :=
  Z.of_nat (length (filter (Z.eqb v) values)).

(** [sorted({v: values.count(v) for v in set(values)}.items(),
            key=lambda item: (item[1], item[0]), reverse=True)] *)
Definition value_counts (values : list Z) : list (Z * Z) :=
  sorted_desc zpair_ltb (fun item => (snd item, fst item))
    (map (fun v => (v, count_of v values)) (nodup Z.eq_dec values)).

(** [sorted(hand, key=lambda c: (c.value != v, c.value), reverse=True)] *)
Definition by_group1 (v : Z) (hand : list Card) : list Card :=
  sorted_desc bz_ltb (fun c => (negb (value c =? v), value c)) hand.

(** [sorted(hand, key=lambda c: (c.value != v and c.value != w, c.value), reverse=True)] *)
Definition by_group2 (v w : Z) (hand : list Card) : list Card :=
  sorted_desc bz_ltb
    (fun c => (negb (value c =? v) && negb (value c =? w), value c)) hand.

Definition wheel : list Z := [14; 5; 4; 3; 2].
Definition broadway : list Z := [14; 13; 12; 11; 10].

Definition get_hand_rank (h : list Card) : Res (Z * list Card) :=
  let hand := sorted_desc Z.ltb value h in
  let values := map value hand in
  let suits := map suit hand in
  let is_flush := (length (nodup Suit_eq_dec suits) =? 1)%nat in
  let is_straight :=
    ((length (nodup Z.eq_dec values) =? 5)%nat
       && (list_max values - list_min values =? 4))
    || list_eqb values wheel in
  if is_straight && is_flush then
    Ok (if negb (list_eqb values broadway) then (8, hand) else (9, hand))
  else
    let counts := value_counts values in
    c0 <~ index counts 0;
    if snd c0 =? 4 then Ok (7, by_group1 (fst c0) hand) else
    three_two <~ (if snd c0 =? 3
                  then (c1 <~ index counts 1; Ok (snd c1 =? 2))
                  else Ok false);
    if (three_two : bool) then Ok (6, hand) else
    if is_flush then Ok (5, hand) else
    if is_straight then
      Ok (if list_eqb values wheel
          then (4, filter (fun c => negb (value c =? 14)) hand
                   ++ filter (fun c => value c =? 14) hand)
          else (4, hand))
    else
    if snd c0 =? 3 then Ok (3, by_group1 (fst c0) hand) else
    two_two <~ (if snd c0 =? 2
                then (c1 <~ index counts 1; Ok (snd c1 =? 2))
                else Ok false);
    if (two_two : bool) then
      c1 <~ index counts 1; Ok (2, by_group2 (fst c0) (fst c1) hand)
    else
    if snd c0 =? 2 then Ok (1, by_group1 (fst c0) hand) else
    Ok (0, hand).

(** A dealt card may be [None] when the deck ran out; reading [.value] of
    it raises AttributeError. *)
Fixpoint present (cs : list (option Card)) : Res (list Card) :=
  match cs with
  | [] => Ok []
  | Some c :: r => r' <~ present r; Ok (c :: r')
  | None :: _ => Err AttributeError
  end.

Definition values_desc (cs : list Card) : list Z :=
  sorted_desc Z.ltb (fun v => v) (map value cs).

(** The loop body of [evaluate_hand]: keep [rank] if it beats the best so far. *)
Definition better (rank best : Z * list Card) : bool :=
  (fst best <? fst rank)
  || ((fst rank =? fst best)
        && list_ltb (values_desc (snd best)) (values_desc (snd rank))).

Fixpoint evaluate_loop (all_hands : list (list (option Card)))
    (best_hand_rank : Z * list Card) : Res (Z * list Card) :=
  match all_hands with
  | [] => Ok best_hand_rank
  | h :: rest =>
      cs <~ present h;
      rank <~ get_hand_rank cs;
      evaluate_loop rest (if better rank best_hand_rank then rank else best_hand_rank)
  end.

Definition evaluate_hand (hand : list (option Card)) : Res (Z * list Card) :=
  evaluate_loop (combinations hand 5) (-1, []).

(** ** Seats and the table *)

Record Player : Type := mkPlayer {
  name : string;
  hand : list (option Card);
  chips : Z;
  bet : Z;
  has_acted : bool;
  is_folded : bool;
  is_all_in : bool;
  is_cpu : bool;
  is_gemini : bool;
  show_hand : bool
}.

(** [Player.__init__]. *)
Definition new_player (n : string) (cpu gemini : bool) : Player :=
  {| name := n; hand := []; chips := 1000; bet := 0; has_acted := false;
     is_folded := false; is_all_in := false; is_cpu := cpu; is_gemini := gemini;
     show_hand := negb cpu && negb gemini |}.

(** [game_stage] holds one of five strings. *)
Inductive Stage : Type := PreFlop | Flop | Turn | River | Showdown.

Definition Stage_eqb (a b : Stage) : bool :=
  match a, b with
  | PreFlop, PreFlop | Flop, Flop | Turn, Turn | River, River
  | Showdown, Showdown => true
  | _, _ => false
  end.

(** The dictionary [next_stage] of [end_betting_round]; "showdown" is no key of it. *)
Definition next_stage (s : Stage) : Res Stage :=
  match s with
  | PreFlop => Ok Flop
  | Flop => Ok Turn
  | Turn => Ok River
  | River => Ok Showdown
  | Showdown => Err KeyError
  end.

(** The lines the engine writes, one constructor per format string, carrying
    the values the string interpolates. *)
Inductive Msg : Type :=
| MsgTooFewPlayers
| MsgTooFewFunded
| MsgSmallBlind (who : string) (amount : Z)
| MsgBigBlind (who : string) (amount : Z)
| MsgYourTurn
| MsgGeminiThinking (who : string)
| MsgGeminiAction (action : PyVal) (amount : option PyVal)
| MsgGeminiError (e : Exn)
| MsgFolds (who : string)
| MsgChecks (who : string)
| MsgAllInToCall (who : string)
| MsgCalls (who : string) (amount : Z)
| MsgRaisesAllIn (who : string) (amount : Z)
| MsgRaises (who : string) (amount : Z)
| MsgFlop | MsgTurn | MsgRiver
| MsgCommunity (cards : list Card)
| MsgRoundEnd
| MsgWinsPot (who : string) (amount : Z)
| MsgWinWith (who : list string) (amount : Z) (hand_name : string)
| MsgRoundOver.

(** [PokerGame]. [console] is not a field of the object: it is what
    [print] has written to the server console. The lock and the deck
    object's shuffle are outside the record: the engine is run one call at a
    time, and a shuffled deck is an input of [start_round]. *)
Record PokerGame : Type := mkGame {
  players : list Player;
  deck : list Card;
  community_cards : list (option Card);
  pot : Z;
  current_bet : Z;
  current_player_index : Z;
  game_stage : Stage;
  game_in_progress : bool;
  small_blind_index : Z;
  big_blind_index : Z;
  small_blind_amount : Z;
  big_blind_amount : Z;
  log_messages : list Msg;
  human_action_needed : bool;
  console : list Msg
}.

Definition set_hand (v : list (option Card)) (x : Player) : Player :=
  {| name := name x; hand := v; chips := chips x; bet := bet x;
     has_acted := has_acted x; is_folded := is_folded x;
     is_all_in := is_all_in x; is_cpu := is_cpu x; is_gemini := is_gemini x;
     show_hand := show_hand x |}.
Definition set_chips (v : Z) (x : Player) : Player :=
  {| name := name x; hand := hand x; chips := v; bet := bet x;
     has_acted := has_acted x; is_folded := is_folded x;
     is_all_in := is_all_in x; is_cpu := is_cpu x; is_gemini := is_gemini x;
     show_hand := show_hand x |}.
Definition set_bet (v : Z) (x : Player) : Player :=
  {| name := name x; hand := hand x; chips := chips x; bet := v;
     has_acted := has_acted x; is_folded := is_folded x;
     is_all_in := is_all_in x; is_cpu := is_cpu x; is_gemini := is_gemini x;
     show_hand := show_hand x |}.
Definition set_has_acted (v : bool) (x : Player) : Player :=
  {| name := name x; hand := hand x; chips := chips x; bet := bet x;
     has_acted := v; is_folded := is_folded x; is_all_in := is_all_in x;
     is_cpu := is_cpu x; is_gemini := is_gemini x;
     show_hand := show_hand x |}.
Definition set_is_folded (v : bool) (x : Player) : Player :=
  {| name := name x; hand := hand x; chips := chips x; bet := bet x;
     has_acted := has_acted x; is_folded := v; is_all_in := is_all_in x;
     is_cpu := is_cpu x; is_gemini := is_gemini x;
     show_hand := show_hand x |}.
Definition set_is_all_in (v : bool) (x : Player) : Player :=
  {| name := name x; hand := hand x; chips := chips x; bet := bet x;
     has_acted := has_acted x; is_folded := is_folded x; is_all_in := v;
     is_cpu := is_cpu x; is_gemini := is_gemini x;
     show_hand := show_hand x |}.
Definition set_show_hand (v : bool) (x : Player) : Player :=
  {| name := name x; hand := hand x; chips := chips x; bet := bet x;
     has_acted := has_acted x; is_folded := is_folded x;
     is_all_in := is_all_in x; is_cpu := is_cpu x; is_gemini := is_gemini x;
     show_hand := v |}.

Definition set_players (v : list Player) (x : PokerGame) : PokerGame :=
  {| players := v; deck := deck x; community_cards := community_cards x;
     pot := pot x; current_bet := current_bet x;
     current_player_index := current_player_index x;
     game_stage := game_stage x; game_in_progress := game_in_progress x;
     small_blind_index := small_blind_index x;
     big_blind_index := big_blind_index x;
     small_blind_amount := small_blind_amount x;
     big_blind_amount := big_blind_amount x; log_messages := log_messages x;
     human_action_needed := human_action_needed x; console := console x |}.
Definition set_deck (v : list Card) (x : PokerGame) : PokerGame :=
  {| players := players x; deck := v; community_cards := community_cards x;
     pot := pot x; current_bet := current_bet x;
     current_player_index := current_player_index x;
     game_stage := game_stage x; game_in_progress := game_in_progress x;
     small_blind_index := small_blind_index x;
     big_blind_index := big_blind_index x;
     small_blind_amount := small_blind_amount x;
     big_blind_amount := big_blind_amount x; log_messages := log_messages x;
     human_action_needed := human_action_needed x; console := console x |}.
Definition set_community_cards (v : list (option Card)) (x : PokerGame) : PokerGame :=
  {| players := players x; deck := deck x; community_cards := v;
     pot := pot x; current_bet := current_bet x;
     current_player_index := current_player_index x;
     game_stage := game_stage x; game_in_progress := game_in_progress x;
     small_blind_index := small_blind_index x;
     big_blind_index := big_blind_index x;
     small_blind_amount := small_blind_amount x;
     big_blind_amount := big_blind_amount x; log_messages := log_messages x;
     human_action_needed := human_action_needed x; console := console x |}.
Definition set_pot (v : Z) (x : PokerGame) : PokerGame :=
  {| players := players x; deck := deck x;
     community_cards := community_cards x; pot := v;
     current_bet := current_bet x;
     current_player_index := current_player_index x;
     game_stage := game_stage x; game_in_progress := game_in_progress x;
     small_blind_index := small_blind_index x;
     big_blind_index := big_blind_index x;
     small_blind_amount := small_blind_amount x;
     big_blind_amount := big_blind_amount x; log_messages := log_messages x;
     human_action_needed := human_action_needed x; console := console x |}.
Definition set_current_bet (v : Z) (x : PokerGame) : PokerGame :=
  {| players := players x; deck := deck x;
     community_cards := community_cards x; pot := pot x; current_bet := v;
     current_player_index := current_player_index x;
     game_stage := game_stage x; game_in_progress := game_in_progress x;
     small_blind_index := small_blind_index x;
     big_blind_index := big_blind_index x;
     small_blind_amount := small_blind_amount x;
     big_blind_amount := big_blind_amount x; log_messages := log_messages x;
     human_action_needed := human_action_needed x; console := console x |}.
Definition set_current_player_index (v : Z) (x : PokerGame) : PokerGame :=
  {| players := players x; deck := deck x;
     community_cards := community_cards x; pot := pot x;
     current_bet := current_bet x; current_player_index := v;
     game_stage := game_stage x; game_in_progress := game_in_progress x;
     small_blind_index := small_blind_index x;
     big_blind_index := big_blind_index x;
     small_blind_amount := small_blind_amount x;
     big_blind_amount := big_blind_amount x; log_messages := log_messages x;
     human_action_needed := human_action_needed x; console := console x |}.
Definition set_game_stage (v : Stage) (x : PokerGame) : PokerGame :=
  {| players := players x; deck := deck x;
     community_cards := community_cards x; pot := pot x;
     current_bet := current_bet x;
     current_player_index := current_player_index x; game_stage := v;
     game_in_progress := game_in_progress x;
     small_blind_index := small_blind_index x;
     big_blind_index := big_blind_index x;
     small_blind_amount := small_blind_amount x;
     big_blind_amount := big_blind_amount x; log_messages := log_messages x;
     human_action_needed := human_action_needed x; console := console x |}.
Definition set_game_in_progress (v : bool) (x : PokerGame) : PokerGame :=
  {| players := players x; deck := deck x;
     community_cards := community_cards x; pot := pot x;
     current_bet := current_bet x;
     current_player_index := current_player_index x;
     game_stage := game_stage x; game_in_progress := v;
     small_blind_index := small_blind_index x;
     big_blind_index := big_blind_index x;
     small_blind_amount := small_blind_amount x;
     big_blind_amount := big_blind_amount x; log_messages := log_messages x;
     human_action_needed := human_action_needed x; console := console x |}.
Definition set_small_blind_index (v : Z) (x : PokerGame) : PokerGame :=
  {| players := players x; deck := deck x;
     community_cards := community_cards x; pot := pot x;
     current_bet := current_bet x;
     current_player_index := current_player_index x;
     game_stage := game_stage x; game_in_progress := game_in_progress x;
     small_blind_index := v; big_blind_index := big_blind_index x;
     small_blind_amount := small_blind_amount x;
     big_blind_amount := big_blind_amount x; log_messages := log_messages x;
     human_action_needed := human_action_needed x; console := console x |}.
Definition set_big_blind_index (v : Z) (x : PokerGame) : PokerGame :=
  {| players := players x; deck := deck x;
     community_cards := community_cards x; pot := pot x;
     current_bet := current_bet x;
     current_player_index := current_player_index x;
     game_stage := game_stage x; game_in_progress := game_in_progress x;
     small_blind_index := small_blind_index x; big_blind_index := v;
     small_blind_amount := small_blind_amount x;
     big_blind_amount := big_blind_amount x; log_messages := log_messages x;
     human_action_needed := human_action_needed x; console := console x |}.
Definition set_log_messages (v : list Msg) (x : PokerGame) : PokerGame :=
  {| players := players x; deck := deck x;
     community_cards := community_cards x; pot := pot x;
     current_bet := current_bet x;
     current_player_index := current_player_index x;
     game_stage := game_stage x; game_in_progress := game_in_progress x;
     small_blind_index := small_blind_index x;
     big_blind_index := big_blind_index x;
     small_blind_amount := small_blind_amount x;
     big_blind_amount := big_blind_amount x; log_messages := v;
     human_action_needed := human_action_needed x; console := console x |}.
Definition set_human_action_needed (v : bool) (x : PokerGame) : PokerGame :=
  {| players := players x; deck := deck x;
     community_cards := community_cards x; pot := pot x;
     current_bet := current_bet x;
     current_player_index := current_player_index x;
     game_stage := game_stage x; game_in_progress := game_in_progress x;
     small_blind_index := small_blind_index x;
     big_blind_index := big_blind_index x;
     small_blind_amount := small_blind_amount x;
     big_blind_amount := big_blind_amount x; log_messages := log_messages x;
     human_action_needed := v; console := console x |}.
Definition set_console (v : list Msg) (x : PokerGame) : PokerGame :=
  {| players := players x; deck := deck x;
     community_cards := community_cards x; pot := pot x;
     current_bet := current_bet x;
     current_player_index := current_player_index x;
     game_stage := game_stage x; game_in_progress := game_in_progress x;
     small_blind_index := small_blind_index x;
     big_blind_index := big_blind_index x;
     small_blind_amount := small_blind_amount x;
     big_blind_amount := big_blind_amount x; log_messages := log_messages x;
     human_action_needed := human_action_needed x; console := v |}.

(** ** The engine's monad: the table as state, Python exceptions, and runs
    that have not returned *)

Inductive Outcome (A : Type) : Type :=
| Done (a : A) (g : PokerGame)     (* returned [a], leaving the table [g] *)
| Throw (e : Exn) (g : PokerGame)  (* raised [e], leaving the table [g] *)
| Running (g : PokerGame).         (* not returned within the steps given;
                                      [g] is the table reached so far *)
Arguments Done {A} a g.
Arguments Throw {A} e g.
Arguments Running {A} g.

Definition M (A : Type) : Type := PokerGame -> Outcome A.

Definition ret {A} (a : A) : M A := fun g => Done a g.

Definition bind {A B} (m : M A) (k : A -> M B) : M B :=
  fun g =>
    match m g with
    | Done a g' => k a g'
    | Throw e g' => Throw e g'
    | Running g' => Running g'
    end.

Notation "x <- m ;; k" := (bind m (fun x => k))
  (at level 61, m at next level, right associativity).
Notation "m ;; k" := (bind m (fun _ => k))
  (at level 61, right associativity).

Definition get : M PokerGame := fun g => Done g g.
Definition modify (f : PokerGame -> PokerGame) : M unit := fun g => Done tt (f g).
Definition throw {A} (e : Exn) : M A := fun g => Throw e g.
Definition running {A} : M A := fun g => Running g.
Definition lift {A} (r : Res A) : M A :=
  match r with Ok a => ret a | Err e => throw e end.

(** [try: m except Exception as e: h e]. *)
Definition try_except {A} (m : M A) (h : Exn -> M A) : M A :=
  fun g => match m g with Throw e g' => h e g' | o => o end.

(** The table a call leaves behind, whatever its outcome. *)
Definition table_after {A} (o : Outcome A) : PokerGame :=
  match o with Done _ g | Throw _ g | Running g => g end.

(** [threading.Thread(target=m).start()], run to its end at once: what the
    thread raises, or that it is still running, is not the caller's. *)
Definition spawn (m : M unit) : M unit := fun g => Done tt (table_after (m g)).

(** [self.log] prints and appends; [print] only prints. *)
Definition print (m : Msg) : M unit :=
  modify (fun g => set_console (console g ++ [m]) g).
Definition log (m : Msg) : M unit :=
  print m ;; modify (fun g => set_log_messages (log_messages g ++ [m]) g).

(** *** Seats: reading and mutating [self.players[i]] *)

Fixpoint update_nth {A} (k : nat) (f : A -> A) (l : list A) : list A :=
  match l, k with
  | [], _ => []
  | x :: r, O => f x :: r
  | x :: r, S k' => x :: update_nth k' f r
  end.

(** [enumerate]-style map, seat numbers counted from [i]. *)
Fixpoint map_seats {A} (i : nat) (f : nat -> A -> A) (l : list A) : list A :=
  match l with
  | [] => []
  | x :: r => f i x :: map_seats (S i) f r
  end.

(** The seat that [self.players[i]] denotes. *)
Definition seat_of (i : Z) : M nat :=
  g <- get ;;
  match position (length (players g)) i with
  | Some k => ret k
  | None => throw IndexError
  end.

(** The current fields of the player object at seat [k]. *)
Definition seat (k : nat) : M Player :=
  g <- get ;;
  match nth_error (players g) k with
  | Some p => ret p
  | None => throw IndexError
  end.

(** An attribute assignment on the player object at seat [k]. *)
Definition upd (k : nat) (f : Player -> Player) : M unit :=
  modify (fun g => set_players (update_nth k f (players g)) g).

Definition n_players (g : PokerGame) : Z := Z.of_nat (length (players g)).

Definition live (p : Player) : bool := negb (is_folded p) && negb (is_all_in p).

(** *** [handle_action] *)

Definition min_raise_of (g : PokerGame) : Z :=
  if 0 <? current_bet g then current_bet g * 2 else big_blind_amount g.

Definition handle_action (action amount : PyVal) : M unit :=
  g <- get ;;
  k <- seat_of (current_player_index g) ;;
  player <- seat k ;;
  (if is_str action "fold" then
     upd k (set_is_folded true) ;;
     log (MsgFolds (name player))
   else if is_str action "check" then
     log (MsgChecks (name player))
   else if is_str action "call" then
     let amount_to_call := current_bet g - bet player in
     if chips player <=? amount_to_call then
       log (MsgAllInToCall (name player)) ;;
       upd k (fun p => set_bet (bet p + chips p) p) ;;
       upd k (set_chips 0) ;;
       upd k (set_is_all_in true)
     else
       log (MsgCalls (name player) amount_to_call) ;;
       upd k (fun p => set_chips (chips p - amount_to_call) p) ;;
       upd k (fun p => set_bet (bet p + amount_to_call) p)
   else if is_str action "raise" then
     let min_raise := min_raise_of g in
     match amount with
     | PyInt requested =>
         let amount := Z.max min_raise requested in
         let amount := Z.min amount (chips player + bet player) in
         let all_in := chips player + bet player <=? amount in
         let amount := if all_in then chips player + bet player else amount in
         (if all_in then
            upd k (set_is_all_in true) ;;
            log (MsgRaisesAllIn (name player) amount)
          else log (MsgRaises (name player) amount)) ;;
         let amount_to_raise := amount - bet player in
         upd k (fun p => set_chips (chips p - amount_to_raise) p) ;;
         upd k (set_bet amount) ;;
         modify (set_current_bet amount) ;;
         modify (fun g => set_players
           (map_seats 0 (fun j p => if negb (j =? k)%nat && live p
                                    then set_has_acted false p else p)
              (players g)) g)
     | _ => throw TypeError  (* max(min_raise, amount) *)
     end
   else ret tt) ;;
  upd k (set_has_acted true) ;;
  g <- get ;;
  i <- lift (modulo (current_player_index g + 1) (n_players g)) ;;
  modify (set_current_player_index i).

(** *** [end_round]: the payout *)

Definition sum_bets (ps : list Player) : Z := fold_right Z.add 0 (map bet ps).
Definition sum_chips (ps : list Player) : Z := fold_right Z.add 0 (map chips ps).

Definition indexed {A} (l : list A) : list (nat * A) := combine (seq 0 (length l)) l.

Definition HAND_NAMES : list string :=
  ["High Card"; "One Pair"; "Two Pair"; "Three of a Kind"; "Straight"; "Flush";
   "Full House"; "Four of a Kind"; "Straight Flush"; "Royal Flush"]%string.

(** The sort and comparison key of [end_round]:
    [(rank[0], [c.value for c in rank[1]])]. *)
Definition rank_key (r : Z * list Card) : Z * list Z := (fst r, map value (snd r)).
Definition key_ltb : Z * list Z -> Z * list Z -> bool := pair_ltb Z.ltb Z.eqb list_ltb.
Definition key_eqb (a b : Z * list Z) : bool :=
  (fst a =? fst b) && list_eqb (snd a) (snd b).

(** [[{"player": p, "rank": self.evaluate_hand(p.hand + self.community_cards)}
      for p in active_players]], a player object standing as its seat. *)
Fixpoint rank_all (community : list (option Card)) (active : list (nat * Player))
  : Res (list (nat * (Z * list Card))) :=
  match active with
  | [] => Ok []
  | (k, p) :: rest =>
      r <~ evaluate_hand (hand p ++ community);
      rs <~ rank_all community rest;
      Ok ((k, r) :: rs)
  end.

Definition winners_of (winner_data : list (nat * (Z * list Card)))
    (best : nat * (Z * list Card)) : list (nat * (Z * list Card)) :=
  filter (fun d => key_eqb (rank_key (snd d)) (rank_key (snd best))) winner_data.

Definition pay (winnings : Z) (ps : list Player) (w : nat * (Z * list Card)) : list Player :=
  update_nth (fst w) (fun p => set_chips (chips p + winnings) p) ps.

Definition end_round : M unit :=
  modify (fun g => set_pot (pot g + sum_bets (players g)) g) ;;
  modify (fun g => set_players (map (set_bet 0) (players g)) g) ;;
  g <- get ;;
  let active_players := filter (fun kp => negb (is_folded (snd kp))) (indexed (players g)) in
  log MsgRoundEnd ;;
  modify (fun g => set_players (map (set_show_hand true) (players g)) g) ;;
  (if (length active_players =? 1)%nat then
     winner <- lift (index active_players 0) ;;
     upd (fst winner) (fun p => set_chips (chips p + pot g) p) ;;
     log (MsgWinsPot (name (snd winner)) (pot g))
   else
     data <- lift (rank_all (community_cards g) active_players) ;;
     let winner_data := sorted_desc key_ltb (fun d => rank_key (snd d)) data in
     best <- lift (index winner_data 0) ;;
     let winners := winners_of winner_data best in
     winnings <- lift (floordiv (pot g) (Z.of_nat (length winners))) ;;
     modify (fun g' => set_players (fold_left (pay winnings) winners (players g')) g') ;;
     win_hand_name <- lift (index HAND_NAMES (fst (snd best))) ;;
     log (MsgWinWith (map (fun w => nth (fst w) (map name (players g)) ""%string) winners)
            (pot g) win_hand_name)) ;;
  modify (set_game_in_progress false) ;;
  log MsgRoundOver.

(** *** Betting rounds *)

(** The round-close test of [process_turn]. *)
Definition active_players (g : PokerGame) : list Player :=
  filter (fun p => negb (is_folded p)) (players g).
Definition active_not_allin (g : PokerGame) : list Player :=
  filter (fun p => negb (is_all_in p)) (active_players g).
Definition acted_players (g : PokerGame) : list Player :=
  filter has_acted (active_not_allin g).
Definition bets (g : PokerGame) : list Z :=
  nodup Z.eq_dec (map bet (active_not_allin g)).

Definition round_closed (g : PokerGame) : bool :=
  (length (acted_players g) =? length (active_not_allin g))%nat
  && (length (bets g) <=? 1)%nat.

(** [self.deck.deal()] on the table's deck. *)
Definition deal_one : M (option Card) :=
  g <- get ;;
  let (c, rest) := deal (deck g) in
  modify (set_deck rest) ;;
  ret c.

(** [' '.join(map(lambda c: c.suit + c.rank, cards))]: reading the
    attributes of a missing card raises. *)
Definition card_str (cards : list (option Card)) : M (list Card) :=
  match present cards with
  | Ok cs => ret cs
  | Err e => throw e
  end.

(** The [while] loop of [process_betting_round]: advance to the first seat
    that is neither folded nor all-in. With [fuel] the number of seats every
    seat has been looked at once the fuel is spent, and the loop never ends. *)
Fixpoint seek_live (fuel : nat) : M unit :=
  g <- get ;;
  k <- seat_of (current_player_index g) ;;
  p <- seat k ;;
  if is_folded p || is_all_in p then
    match fuel with
    | O => running
    | S fuel' =>
        i <- lift (modulo (current_player_index g + 1) (n_players g)) ;;
        modify (set_current_player_index i) ;;
        seek_live fuel'
    end
  else ret tt.

Definition process_betting_round (process_turn : M unit) : M unit :=
  g <- get ;;
  (if negb (Stage_eqb (game_stage g) PreFlop) then
     i <- lift (modulo (small_blind_index g) (n_players g)) ;;
     modify (set_current_player_index i) ;;
     seek_live (length (players g)) ;;
     modify (set_current_bet 0) ;;
     modify (fun g =>
       set_players
         (map (fun p => let p := set_bet 0 p in
                        if live p then set_has_acted false p else p)
            (players g)) g)
   else ret tt) ;;
  process_turn.

(** The first loop of [end_betting_round]: the bets go to the pot. *)
Definition collect_bets : M unit :=
  modify (fun g => set_pot (pot g + sum_bets (players g)) g) ;;
  modify (fun g => set_players (map (set_bet 0) (players g)) g).

(** The stage change of [end_betting_round] and the cards it deals. *)
Definition advance_stage : M Stage :=
  g <- get ;;
  stage <- lift (next_stage (game_stage g)) ;;
  modify (set_game_stage stage) ;;
  match stage with
  | Flop =>
      c1 <- deal_one ;; c2 <- deal_one ;; c3 <- deal_one ;;
      modify (fun g => set_community_cards (community_cards g ++ [c1; c2; c3]) g) ;;
      log MsgFlop ;; ret stage
  | Turn =>
      c <- deal_one ;;
      modify (fun g => set_community_cards (community_cards g ++ [c]) g) ;;
      log MsgTurn ;; ret stage
  | River =>
      c <- deal_one ;;
      modify (fun g => set_community_cards (community_cards g ++ [c]) g) ;;
      log MsgRiver ;; ret stage
  | _ => ret stage
  end.

(** What [end_betting_round] does once the new stage is entered: settle
    at showdown, otherwise announce the board and open the next round. *)
Definition enter_stage (process_turn : M unit) (stage : Stage) : M unit :=
  if Stage_eqb stage Showdown then end_round
  else
    g <- get ;;
    cs <- card_str (community_cards g) ;;
    log (MsgCommunity cs) ;;
    process_betting_round process_turn.

Definition end_betting_round (process_turn : M unit) : M unit :=
  collect_bets ;;
  stage <- advance_stage ;;
  enter_stage process_turn stage.

(** *** The action providers *)

(** What the world answers during one iteration of the turn loop: the
    outcome of [random.random() < 0.7] and the reply of the Gemini service. *)
Inductive GeminiReply : Type :=
| TransportError                 (* [generate_content] or [.text] raised *)
| Unparseable                    (* [json.loads] raised on the extracted text *)
| Parsed (action amount : option PyVal).
                                 (* the decoded object: the value under each
                                    key, if the key is there *)

Record Answer : Type := mkAnswer { coin : bool; reply : GeminiReply }.

Definition get_cpu_action (k : nat) (coin : bool) : M unit :=
  g <- get ;;
  player <- seat k ;;
  let amount_to_call := current_bet g - bet player in
  let action :=
    if 0 <? amount_to_call then
      if coin || (chips player <=? amount_to_call) then "call"%string
      else "fold"%string
    else "check"%string in
  handle_action (PyStr action) (PyInt 0).

(** [p.to_dict()] reads the cards of a hand only when [show_hand] is set. *)
Fixpoint player_states (ps : list Player) : M unit :=
  match ps with
  | [] => ret tt
  | p :: r =>
      (if show_hand p then card_str (hand p) ;; ret tt else ret tt) ;;
      player_states r
  end.

Definition default (d : PyVal) (v : option PyVal) : PyVal :=
  match v with Some x => x | None => d end.

Definition get_gemini_poker_action (k : nat) (r : GeminiReply) : M unit :=
  g <- get ;;
  player <- seat k ;;
  card_str (hand player) ;;
  card_str (community_cards g) ;;
  player_states (players g) ;;
  try_except
    (log (MsgGeminiThinking (name player)) ;;
     match r with
     | TransportError => throw ServiceError
     | Unparseable => throw ValueError
     | Parsed a amt =>
         let action := default (PyStr "fold") a in
         let amount := default (PyInt 0) amt in
         log (MsgGeminiAction action (if is_str action "raise" then Some amount else None)) ;;
         handle_action action amount
     end)
    (fun e =>
       print (MsgGeminiError e) ;;
       handle_action (PyStr "fold") (PyInt 0)).

(** *** The turn loop *)

(** The loop body from the actor lookup on: skip a seat that cannot act,
    suspend for the human seat, or ask the seat's provider and go on. *)
Definition take_turn (process_turn : M unit) (a : Answer) : M unit :=
  g <- get ;;
  k <- seat_of (current_player_index g) ;;
  current_player <- seat k ;;
  if is_folded current_player || is_all_in current_player then
    i <- lift (modulo (current_player_index g + 1) (n_players g)) ;;
    modify (set_current_player_index i) ;;
    process_turn
  else
    let is_human := negb (is_cpu current_player) && negb (is_gemini current_player) in
    if is_human then
      log MsgYourTurn ;;
      modify (set_human_action_needed true)
    else
      (if is_cpu current_player then get_cpu_action k (coin a)
       else if is_gemini current_player then get_gemini_poker_action k (reply a)
       else ret tt) ;;
      process_turn.

(** Every iteration of the [while] loop takes one [Answer] of the world
    (used or not); when the answers run out the loop is [Running]. The
    calls [end_betting_round] -> [process_betting_round] -> [process_turn]
    are the source's: each is the last thing its caller does. *)
Fixpoint process_turn (env : list Answer) : M unit :=
  g <- get ;;
  if negb (game_in_progress g) then ret tt else
  match env with
  | [] => running
  | a :: env' =>
      if (length (active_players g) <=? 1)%nat then end_round
      else if round_closed g then end_betting_round (process_turn env')
      else take_turn (process_turn env') a
  end.

(** *** Starting a hand *)

Fixpoint deal_hands (ps : list Player) (d : list Card) : list Player * list Card :=
  match ps with
  | [] => ([], d)
  | p :: r =>
      let (c1, d1) := deal d in
      let (c2, d2) := deal d1 in
      let p' := set_show_hand (negb (is_cpu p) && negb (is_gemini p))
                  (set_is_all_in false (set_is_folded false (set_has_acted false
                  (set_bet 0 (set_hand [c1; c2] p))))) in
      let (r', d') := deal_hands r d2 in
      (p' :: r', d')
  end.

(** A blind: [p.bet = min(amount, p.chips); p.chips -= p.bet;
    if p.chips == 0: p.is_all_in = True]. *)
Definition post_blind (amount : Z) (p : Player) : Player :=
  let p := set_bet (Z.min amount (chips p)) p in
  let p := set_chips (chips p - bet p) p in
  if chips p =? 0 then set_is_all_in true p else p.

(** [p.chips > 0]. *)
Definition funded (p : Player) : bool := 0 <? chips p.

(** The locked block of [start_round] up to the seating filter. *)
Definition reset_table (shuffled : list Card) : M unit :=
  modify (set_game_in_progress true) ;;
  modify (set_deck shuffled) ;;
  modify (set_community_cards []) ;;
  modify (set_pot 0) ;;
  modify (set_current_bet 0) ;;
  modify (set_game_stage PreFlop) ;;
  modify (set_log_messages []) ;;
  modify (fun g => set_players (filter funded (players g)) g).

(** The rest of the locked block: deal, rotate and post the blinds. *)
Definition post_blinds : M unit :=
  modify (fun g => let (ps, d) := deal_hands (players g) (deck g) in
                   set_deck d (set_players ps g)) ;;
  g <- get ;;
  sbi <- lift (modulo (small_blind_index g + 1) (n_players g)) ;;
  modify (set_small_blind_index sbi) ;;
  bbi <- lift (modulo (sbi + 1) (n_players g)) ;;
  modify (set_big_blind_index bbi) ;;
  sb <- seat_of sbi ;;
  bb <- seat_of bbi ;;
  sb_player <- seat sb ;;
  log (MsgSmallBlind (name sb_player) (small_blind_amount g)) ;;
  upd sb (post_blind (small_blind_amount g)) ;;
  bb_player <- seat bb ;;
  log (MsgBigBlind (name bb_player) (big_blind_amount g)) ;;
  upd bb (post_blind (big_blind_amount g)) ;;
  sb_player <- seat sb ;;
  bb_player <- seat bb ;;
  modify (fun g => set_pot (pot g + (bet sb_player + bet bb_player)) g) ;;
  modify (set_current_bet (big_blind_amount g)) ;;
  i <- lift (modulo (bbi + 1) (n_players g)) ;;
  modify (set_current_player_index i).

(** The locked block of [start_round]; [false] when it returned early. *)
Definition start_round_locked (shuffled : list Card) : M bool :=
  reset_table shuffled ;;
  g <- get ;;
  if (length (players g) <? 2)%nat then
    log MsgTooFewFunded ;;
    modify (set_game_in_progress false) ;;
    ret false
  else post_blinds ;; ret true.

Definition start_round (shuffled : list Card) (env : list Answer) : M unit :=
  started <- start_round_locked shuffled ;;
  if started then process_betting_round (process_turn env) else ret tt.

Definition start_game (shuffled : list Card) (env : list Answer) : M unit :=
  g <- get ;;
  if (length (players g) <? 2)%nat then log MsgTooFewPlayers
  else
    modify (set_game_in_progress true) ;;
    i <- lift (modulo (small_blind_index g + 1) (n_players g)) ;;
    modify (set_small_blind_index i) ;;
    start_round shuffled env.

Definition handle_human_action (action amount : PyVal) (env : list Answer) : M unit :=
  g <- get ;;
  if negb (human_action_needed g) then ret tt else
  g <- get ;;
  if negb (human_action_needed g) then ret tt else
  modify (set_human_action_needed false) ;;
  handle_action action amount ;;
  spawn (process_turn env).

(** ** The table's construction and the HTTP routes *)

Definition decimal (n : nat) : string :=
  DecimalString.NilEmpty.string_of_uint (Nat.to_uint n).

(** [PokerGame.__init__]; [model] says whether the Gemini model was
    configured, [shuffled] is the deck [Deck()] produced. *)
Definition new_game (human_player_name : string) (cpu_players gemini_players : nat)
    (model : bool) (shuffled : list Card) : PokerGame :=
  {| players :=
       new_player human_player_name false false
       :: map (fun i => new_player (String.append "CPU " (decimal (i + 1))) true false)
            (seq 0 cpu_players)
       ++ (if model
           then map (fun i => new_player (String.append "Gemini " (decimal (i + 1))) false true)
                  (seq 0 gemini_players)
           else []);
     deck := shuffled; community_cards := []; pot := 0; current_bet := 0;
     current_player_index := 0; game_stage := PreFlop; game_in_progress := false;
     small_blind_index := -1; big_blind_index := -1;
     small_blind_amount := 10; big_blind_amount := 20;
     log_messages := []; human_action_needed := false; console := [] |}.

Inductive Response : Type :=
| Success                (* 200, {"success": true} *)
| Error400               (* 400, {"error": ...} *)
| Error500 (e : Exn)     (* the handler raised *)
| NoResponse.            (* the handler has not returned *)

Definition response_of {A} (o : Outcome A) : Response :=
  match o with
  | Done _ _ => Success
  | Throw e _ => Error500 e
  | Running _ => NoResponse
  end.

(** The global [game] is [None] until a game was started. *)
Definition start_game_route (name_ : string) (cpu_players gemini_players : nat)
    (model : bool) (init_deck shuffled : list Card) (env : list Answer)
  : Response * option PokerGame :=
  let game := new_game name_ cpu_players gemini_players model init_deck in
  (Success, Some (table_after (spawn (start_game shuffled env) game))).

(** [data.get('action')] and [data.get('amount', 0)] of the request body. *)
Definition player_action_route (data_action data_amount : option PyVal)
    (env : list Answer) (game : option PokerGame) : Response * option PokerGame :=
  match game with
  | None => (Error400, None)
  | Some g =>
      if negb (human_action_needed g) then (Error400, Some g)
      else
        let o := handle_human_action (default PyNone data_action)
                   (default (PyInt 0) data_amount) env g in
        (response_of o, Some (table_after o))
  end.

Definition next_round_route (shuffled : list Card) (env : list Answer)
    (game : option PokerGame) : Response * option PokerGame :=
  match game with
  | None => (Error400, None)
  | Some g =>
      if game_in_progress g then (Error400, Some g)
      else
        let o := start_round shuffled env g in
        (response_of o, Some (table_after o))
  end.

(** ** The effect of [handle_action], seat by seat

    A summary of the branches of [handle_action] as functions on the
    actor's fields; [handle_action_effect] below proves that the engine
    does exactly this. *)

Definition seat_after (action : PyVal) (requested : Z) (g : PokerGame) (p : Player)
  : Player :=
  if is_str action "fold" then set_is_folded true p
  else if is_str action "check" then p
  else if is_str action "call" then
    let amount_to_call := current_bet g - bet p in
    if chips p <=? amount_to_call
    then set_is_all_in true (set_chips 0 (set_bet (bet p + chips p) p))
    else set_bet (bet p + amount_to_call) (set_chips (chips p - amount_to_call) p)
  else if is_str action "raise" then
    let amount := Z.min (Z.max (min_raise_of g) requested) (chips p + bet p) in
    let p' := if chips p + bet p <=? amount then set_is_all_in true p else p in
    set_bet amount (set_chips (chips p - (amount - bet p)) p')
  else p.

(** The [elif] chain reaches the raise branch. *)
Definition is_raise (action : PyVal) : bool :=
  negb (is_str action "fold") && negb (is_str action "check")
  && negb (is_str action "call") && is_str action "raise".

(** The loop of the raise branch over the other seats. *)
Definition reopen (k : nat) (ps : list Player) : list Player :=
  map_seats 0 (fun j p => if negb (j =? k)%nat && live p
                          then set_has_acted false p else p) ps.

Definition players_after (action : PyVal) (requested : Z) (g : PokerGame)
    (k : nat) (p : Player) : list Player :=
  let ps := update_nth k (fun _ => seat_after action requested g p) (players g) in
  update_nth k (set_has_acted true) (if is_raise action then reopen k ps else ps).

(** What [handle_action] never touches. *)
Definition frame (g g' : PokerGame) : Prop :=
  pot g' = pot g /\ deck g' = deck g /\ community_cards g' = community_cards g
  /\ game_stage g' = game_stage g /\ game_in_progress g' = game_in_progress g
  /\ small_blind_index g' = small_blind_index g
  /\ big_blind_index g' = big_blind_index g
  /\ small_blind_amount g' = small_blind_amount g
  /\ big_blind_amount g' = big_blind_amount g
  /\ human_action_needed g' = human_action_needed g.

(** ** Quantities the specification speaks of *)

(** sum(all chips) + pot + sum(all current bets). *)
Definition total (g : PokerGame) : Z :=
  sum_chips (players g) + pot g + sum_bets (players g).

(** The maximum [bet] among the seats that have not folded. *)
Definition highest_bet (g : PokerGame) : Z :=
  fold_right Z.max 0 (map bet (active_players g)).

(** Every card of the hands and of the board was dealt (none is [None]),
    so that the strings and dictionaries built from them can be built. *)
Definition cards_dealt (g : PokerGame) : Prop :=
  (forall q, In q (players g) -> exists cs, present (hand q) = Ok cs)
  /\ exists cs, present (community_cards g) = Ok cs.

Definition is_int (v : PyVal) : bool :=
  match v with PyInt _ => true | _ => false end.

(** The replies on which [get_gemini_poker_action] ends in its [except]
    branch: the service call or the JSON decoding raised, or the decoded
    object asks for a raise by something that is no number. *)
Definition reply_raises (r : GeminiReply) : bool :=
  match r with
  | TransportError | Unparseable => true
  | Parsed a amt =>
      is_raise (default (PyStr "fold") a) && negb (is_int (default (PyInt 0) amt))
  end.

(** The decoded object has no "action". *)
Definition reply_lacks_action (r : GeminiReply) : bool :=
  match r with Parsed None _ => true | _ => false end.

(** The round-close condition in the specification's words: every seat
    that is neither folded nor all-in has acted, and those seats show at
    most one bet value. *)
Definition round_is_closed (g : PokerGame) : Prop :=
  (forall p, In p (players g) -> is_folded p = false -> is_all_in p = false ->
             has_acted p = true)
  /\ (forall p q, In p (players g) -> In q (players g) ->
                  is_folded p = false -> is_all_in p = false ->
                  is_folded q = false -> is_all_in q = false ->
                  bet p = bet q).

(** The number of community cards dealt on entering a stage. *)
Definition dealt_on (s : Stage) : nat :=
  match s with Flop => 3 | Turn => 1 | River => 1 | _ => 0 end.

(** The tables the server can be seen in: after the game was started,
    after a human action was submitted while one was awaited, after the
    next hand was asked for. The answers of the world may run out at any
    turn of the loop, so every table the loop passes through is among them. *)
Inductive reachable : PokerGame -> Prop :=
| reach_start (human : string) (cpus geminis : nat) (model : bool)
    (d0 d : list Card) (env : list Answer) :
    reachable (table_after (start_game d env (new_game human cpus geminis model d0)))
| reach_human (g : PokerGame) (action amount : PyVal) (env : list Answer) :
    reachable g -> human_action_needed g = true ->
    reachable (table_after (handle_human_action action amount env g))
| reach_next (g : PokerGame) (d : list Card) (env : list Answer) :
    reachable g -> game_in_progress g = false ->
    reachable (table_after (start_round d env g)).

(** A contender ties for the best hand rank: no contender's rank key
    compares higher. *)
Definition is_best (data : list (nat * (Z * list Card)))
    (d : nat * (Z * list Card)) : bool :=
  forallb (fun d' => negb (key_ltb (rank_key (snd d)) (rank_key (snd d')))) data.

(** The seats still in the hand, each with its seat number. *)
Definition contenders (g : PokerGame) : list (nat * Player) :=
  filter (fun kp => negb (is_folded (snd kp))) (indexed (players g)).

(** The category and the values of the tiebreak cards of a rank. *)
Definition rank_values (r : Res (Z * list Card)) : option (Z * list Z) :=
  match r with
  | Ok (category, cards) => Some (category, map value cards)
  | Err _ => None
  end.

(** The sum of a field over the seats. *)
Definition sum_of (proj : Player -> Z) (l : list Player) : Z :=
  fold_right Z.add 0 (map proj l).

(** The sort key of a contender at showdown. *)
Definition showdown_key (d : nat * (Z * list Card)) : Z * list Z := rank_key (snd d).

(** ** Example tables *)

(** A human seat with [c] chips and a bet of [b]. *)
Definition seat_with (n : string) (c b : Z) : Player :=
  set_bet b (set_chips c (new_player n false false)).

(** A table in the middle of a pre-flop round, its first seat to act. *)
Definition table_of (ps : list Player) (cb : Z) : PokerGame :=
  {| players := ps; deck := []; community_cards := []; pot := 0;
     current_bet := cb; current_player_index := 0; game_stage := PreFlop;
     game_in_progress := true; small_blind_index := 1; big_blind_index := 2;
     small_blind_amount := 10; big_blind_amount := 20;
     log_messages := []; human_action_needed := false; console := [] |}.

(** ** Example hands *)

(** A game of the human seat and two scripted seats. In the first hand the
    human raises to 985, one scripted seat folds, the other calls, and the
    human folds on the flop, keeping 15 chips. The second hand makes the
    human the big blind. *)
Definition yes : Answer := mkAnswer true TransportError.
Definition no : Answer := mkAnswer false TransportError.

Definition hand1_start : PokerGame :=
  table_after (start_game fresh_deck [yes] (new_game "You" 2 0 false fresh_deck)).
Definition hand1_raised : PokerGame :=
  table_after (handle_human_action (PyStr "raise") (PyInt 985)
                 [no; yes; yes; yes; yes; yes] hand1_start).
(** The same first hand, had both scripted seats folded to a raise to 40:
    the table as the turn loop finds it next. *)
Definition folded_to_raiser : PokerGame :=
  table_after (handle_human_action (PyStr "raise") (PyInt 40) [no; no] hand1_start).

Definition hand1_folded : PokerGame :=
  table_after (handle_human_action (PyStr "fold") (PyInt 0) [yes] hand1_raised).
Definition hand2_blinds : PokerGame :=
  table_after (start_round fresh_deck [] hand1_folded).

(** The specification's example: a pot of 101 and two seats that both play
    the board, a royal flush in spades. Each receives 50; one chip stays in
    the pot. *)
Definition showdown_table : PokerGame :=
  let seat_a := set_hand [Some (card Heart R2); Some (card Diamond R3)]
                  (seat_with "A" 500 0) in
  let seat_b := set_hand [Some (card Club R4); Some (card Diamond R5)]
                  (seat_with "B" 700 0) in
  set_community_cards
    (map Some [card Spade RA; card Spade RK; card Spade RQ; card Spade RJ;
               card Spade R10])
    (set_pot 101 (set_game_stage Showdown (table_of [seat_a; seat_b] 0))).

Definition showdown_data : list (nat * (Z * list Card)) :=
  let royal := [card Spade RA; card Spade RK; card Spade RQ; card Spade RJ;
                card Spade R10] in
  [(0%nat, (9, royal)); (1%nat, (9, royal))].

(** A showdown on the board 2 3 4 5 K: seat A holds ace and six, seat B
    six and nine, so both play the six-high straight. *)
Definition straight_showdown : PokerGame :=
  let seat_a := set_hand [Some (card Spade RA); Some (card Heart R6)]
                  (seat_with "A" 500 0) in
  let seat_b := set_hand [Some (card Club R6); Some (card Diamond R9)]
                  (seat_with "B" 500 0) in
  set_community_cards
    (map Some [card Heart R2; card Diamond R3; card Club R4; card Spade R5;
               card Diamond RK])
    (set_pot 100 (set_game_stage Showdown (table_of [seat_a; seat_b] 0))).

(** ** The state sent to the browser *)

(** [Card.to_dict]: [{"suit": self.suit, "rank": self.rank}]; the card may
    be the [None] an exhausted deck dealt. *)
Definition card_to_dict (c : option Card) : Res (Suit * Rank) :=
  match c with
  | Some c => Ok (suit c, rank c)
  | None => Err AttributeError
  end.

(** [[c.to_dict() for c in cards]]. *)
Fixpoint cards_to_dict (cards : list (option Card)) : Res (list (Suit * Rank)) :=
  match cards with
  | [] => Ok []
  | c :: r => d <~ card_to_dict c; ds <~ cards_to_dict r; Ok (d :: ds)
  end.

(** The dictionary of [Player.to_dict], key by key. *)
Record PlayerDict : Type := mkPlayerDict {
  dict_name : string;
  dict_hand : list (Suit * Rank);
  dict_chips : Z;
  dict_bet : Z;
  dict_has_acted : bool;
  dict_is_folded : bool;
  dict_is_all_in : bool;
  dict_is_cpu : bool;
  dict_is_gemini : bool;
  dict_show_hand : bool
}.

(** [Player.to_dict]: the hand is read only when [show_hand] is set. *)
Definition player_to_dict (p : Player) : Res PlayerDict :=
  h <~ (if show_hand p then cards_to_dict (hand p) else Ok []);
  Ok {| dict_name := name p; dict_hand := h; dict_chips := chips p;
        dict_bet := bet p; dict_has_acted := has_acted p;
        dict_is_folded := is_folded p; dict_is_all_in := is_all_in p;
        dict_is_cpu := is_cpu p; dict_is_gemini := is_gemini p;
        dict_show_hand := show_hand p |}.

(** [[p.to_dict() for p in self.players]]. *)
Fixpoint players_to_dict (ps : list Player) : Res (list PlayerDict) :=
  match ps with
  | [] => Ok []
  | p :: r => d <~ player_to_dict p; ds <~ players_to_dict r; Ok (d :: ds)
  end.

(** [l[-n:]] for a positive [n]: the last [n] items, all of them when the
    list is shorter. *)
Definition last_items {A} (n : nat) (l : list A) : list A :=
  skipn (length l - n) l.

(** The dictionary of [get_state], key by key. *)
Record State : Type := mkState {
  state_players : list PlayerDict;
  state_community_cards : list (Suit * Rank);
  state_pot : Z;
  state_current_bet : Z;
  state_current_player_index : Z;
  state_game_stage : Stage;
  state_game_in_progress : bool;
  state_log : list Msg;
  state_human_action_needed : bool
}.

Definition get_state (g : PokerGame) : Res State :=
  ps <~ players_to_dict (players g);
  cc <~ cards_to_dict (community_cards g);
  Ok {| state_players := ps; state_community_cards := cc; state_pot := pot g;
        state_current_bet := current_bet g;
        state_current_player_index := current_player_index g;
        state_game_stage := game_stage g;
        state_game_in_progress := game_in_progress g;
        state_log := last_items 10 (log_messages g);
        state_human_action_needed := human_action_needed g |}.

(** The answer of [/game_state]. *)
Inductive StateResponse : Type :=
| State200 (s : State)      (* 200, the state as JSON *)
| State404                  (* 404, {"error": "Game not started"} *)
| State500 (e : Exn).       (* the handler raised *)

Definition game_state_route (game : option PokerGame) : StateResponse :=
  match game with
  | None => State404
  | Some g => match get_state g with
              | Ok s => State200 s
              | Err e => State500 e
              end
  end.

(** ** Conditions that the engine keeps or establishes *)

(** What a call leaves behind in each of its outcomes: [Q] when it
    returned, [E] when it raised or has not returned. *)
Definition hoare {A} (P : PokerGame -> Prop) (m : M A)
    (Q : A -> PokerGame -> Prop) (E : PokerGame -> Prop) : Prop :=
  forall g, P g ->
    match m g with
    | Done a g' => Q a g'
    | Throw _ g' => E g'
    | Running g' => E g'
    end.

(** A condition on the table that holds after the call, whatever its
    outcome, when it held before. *)
Definition keeps {A} (I : PokerGame -> Prop) (m : M A) : Prop :=
  hoare I m (fun _ => I) I.

(** No stack, bet, pot or stake is negative. *)
Definition seat_solvent (p : Player) : Prop := 0 <= chips p /\ 0 <= bet p.

Definition solvent (g : PokerGame) : Prop :=
  Forall seat_solvent (players g)
  /\ 0 <= pot g /\ 0 <= current_bet g
  /\ 0 <= small_blind_amount g /\ 0 <= big_blind_amount g.

(** The seat is the human's. *)
Definition is_human (p : Player) : bool := negb (is_cpu p) && negb (is_gemini p).

(** The cards in the seats' hands, seat by seat. *)
Definition hole_cards (ps : list Player) : list (option Card) :=
  flat_map hand ps.

Definition Rank_eq_dec (a b : Rank) : {a = b} + {a <> b}.
Proof. decide equality. Defined.

Definition Card_eq_dec (a b : Card) : {a = b} + {a <> b}.
Proof. decide equality; [apply Rank_eq_dec|apply Suit_eq_dec]. Defined.

(** The five cards share one suit. *)
Definition one_suit (h : list Card) : Prop :=
  h <> [] /\ forall c c', In c h -> In c' h -> suit c = suit c'.

(** The seat that index [i] denotes, counted round the table. *)
Definition seat_at (ps : list Player) (i : Z) : option Player :=
  nth_error ps (Z.to_nat (i mod Z.of_nat (length ps))).

(** The comparison of [evaluate_hand] is the order of the keys
    (category, values sorted highest first). *)
Definition selection_key (r : Z * list Card) : Z * list Z :=
  (fst r, values_desc (snd r)).

(** A game of the human seat and one scripted seat: the scripted seat
    calls the big blind, the human raises to 1000 and is called. *)
Definition heads_up_start : PokerGame :=
  table_after (start_game fresh_deck [yes; yes] (new_game "You" 1 0 false fresh_deck)).
Definition both_all_in : PokerGame :=
  table_after (handle_human_action (PyStr "raise") (PyInt 1000) [yes] heads_up_start).

(** The cards [get_state] reads: the hands that are shown and the board. *)
Definition shown_cards (g : PokerGame) : list (option Card) :=
  flat_map (fun p => if show_hand p then hand p else []) (players g)
  ++ community_cards g.

(** Every seat that is not the human's keeps its cards face down. *)
Definition hands_hidden (g : PokerGame) : Prop :=
  Forall (fun p => show_hand p = is_human p) (players g).

(** The table waits for nobody. *)
Definition quiet (g : PokerGame) : Prop := human_action_needed g = false.

(** The state of the table while the turn loop runs: it waits for nobody
    and the scripted seats' cards are face down. *)
Definition in_play (g : PokerGame) : Prop := quiet g /\ hands_hidden g.

(** When the table waits for the human, a hand is in progress, the seat
    to act is the human's and can act, and the other seats' cards are face
    down. *)
Definition waits_for_human (g : PokerGame) : Prop :=
  human_action_needed g = true ->
  game_in_progress g = true
  /\ hands_hidden g
  /\ exists k p,
       position (length (players g)) (current_player_index g) = Some k
       /\ nth_error (players g) k = Some p
       /\ is_human p = true /\ live p = true.

(** * Properties of the engine *)

(** ** Lists of seats *)

Section SeatLists.
Context {A : Type}.

Lemma update_nth_length (k : nat) (f : A -> A) (l : list A) :
  length (update_nth k f l) = length l.
Proof.
  revert k; induction l as [|x r IH]; intros [|k]; simpl; auto.
Qed.

Lemma nth_error_update_nth_eq (k : nat) (f : A -> A) (l : list A) :
  nth_error (update_nth k f l) k = option_map f (nth_error l k).
Proof.
  revert k; induction l as [|x r IH]; intros [|k]; simpl; auto.
Qed.

Lemma nth_error_update_nth_neq (k j : nat) (f : A -> A) (l : list A) :
  j <> k -> nth_error (update_nth k f l) j = nth_error l j.
Proof.
  revert k j; induction l as [|x r IH]; intros [|k] [|j] H; simpl;
    try congruence; auto.
Qed.

Lemma map_seats_length (i : nat) (f : nat -> A -> A) (l : list A) :
  length (map_seats i f l) = length l.
Proof.
  revert i; induction l as [|x r IH]; intros i; simpl; auto.
Qed.

Lemma nth_error_map_seats (i j : nat) (f : nat -> A -> A) (l : list A) :
  nth_error (map_seats i f l) j = option_map (f (i + j)%nat) (nth_error l j).
Proof.
  revert i j; induction l as [|x r IH]; intros i [|j]; simpl; auto.
  - now rewrite Nat.add_0_r.
  - rewrite IH. now rewrite Nat.add_succ_r.
Qed.
End SeatLists.

Lemma position_lt (n : nat) (i : Z) (k : nat) :
  position n i = Some k -> (k < n)%nat.
Proof.
  unfold position.
  destruct ((0 <=? i) && (i <? Z.of_nat n)) eqn:E1;
    [|destruct ((- Z.of_nat n <=? i) && (i <? 0)) eqn:E2];
    intros H; inversion H; subst;
    match goal with
    | E : _ && _ = true |- _ =>
        apply andb_true_iff in E; destruct E as [E E'];
        rewrite ?Z.leb_le, ?Z.ltb_lt in E, E'; lia
    end.
Qed.

(** The monad computes: these unfold one layer of it. *)
Ltac mred :=
  cbv beta iota delta [bind ret get modify throw lift upd seat seat_of log print].

Ltac proj :=
  cbn [players deck community_cards pot current_bet current_player_index game_stage
       game_in_progress small_blind_index big_blind_index small_blind_amount
       big_blind_amount log_messages human_action_needed console
       set_players set_deck set_community_cards set_pot set_current_bet
       set_current_player_index set_game_stage set_game_in_progress
       set_small_blind_index set_big_blind_index set_log_messages
       set_human_action_needed set_console].

Section MoreSeatLists.
Context {A : Type}.

Lemma update_nth_update_nth (k : nat) (f h : A -> A) (l : list A) :
  update_nth k f (update_nth k h l) = update_nth k (fun x => f (h x)) l.
Proof.
  revert k; induction l as [|x r IH]; intros [|k]; simpl; auto.
  now rewrite IH.
Qed.

Lemma update_nth_ext (k : nat) (f h : A -> A) (l : list A) (x : A) :
  nth_error l k = Some x -> f x = h x -> update_nth k f l = update_nth k h l.
Proof.
  revert k; induction l as [|y r IH]; intros [|k]; simpl; auto; intros H1 H2.
  - inversion H1; subst; now rewrite H2.
  - now rewrite (IH k H1 H2).
Qed.
End MoreSeatLists.

(** ** [handle_action], branch by branch *)

Ltac upd_eq p Hp :=
  lazymatch goal with
  | |- @eq (list Player) _ _ =>
      first [ apply (update_nth_ext _ _ _ _ p Hp)
            | f_equal; first [ apply (update_nth_ext _ _ _ _ p Hp)
                             | f_equal; apply (update_nth_ext _ _ _ _ p Hp) ] ]
  | |- _ => idtac
  end.

Lemma handle_action_effect (g : PokerGame) (k : nat) (p : Player)
    (action amount : PyVal) (requested : Z) :
  position (length (players g)) (current_player_index g) = Some k ->
  nth_error (players g) k = Some p ->
  (is_raise action = true -> amount = PyInt requested) ->
  exists g', handle_action action amount g = Done tt g'
    /\ players g' = players_after action requested g k p
    /\ current_bet g' = (if is_raise action
                         then bet (seat_after action requested g p)
                         else current_bet g)
    /\ current_player_index g' = (current_player_index g + 1) mod n_players g
    /\ frame g g'.
Proof.
  intros Hk Hp Ha.
  pose proof (position_lt _ _ _ Hk) as Hlt.
  unfold handle_action, players_after, seat_after, is_raise, frame in *.
  mred. rewrite Hk. mred. rewrite Hp.
  destruct (is_str action "fold") eqn:Ef;
    [|destruct (is_str action "check") eqn:Ec;
      [|destruct (is_str action "call") eqn:El;
        [|destruct (is_str action "raise") eqn:Er]]];
    cbn [negb andb] in *.
  all: try (rewrite (Ha eq_refl); clear Ha).
  all: repeat match goal with
         | |- context [if ?c then _ else _] =>
             lazymatch c with (_ <=? _) => destruct c eqn:? end
         end.
  all: proj; unfold modulo, n_players; proj;
    repeat (rewrite update_nth_length || rewrite map_seats_length);
    (destruct (Z.of_nat (length (players g)) =? 0) eqn:E0;
     [apply Z.eqb_eq in E0; lia|]);
    (eexists; split; [reflexivity|]); proj.
  all: repeat split; try reflexivity.
  all: unfold reopen; repeat rewrite update_nth_update_nth.
  all: repeat match goal with
         | H : (_ <=? _) = true |- _ => apply Z.leb_le in H
         | H : (_ <=? _) = false |- _ => apply Z.leb_gt in H
         end.
  all: try (upd_eq p Hp).
  all: unfold set_has_acted, set_bet, set_chips, set_is_all_in, set_is_folded; cbn;
    try reflexivity; try (f_equal; lia); try lia.
Qed.

Lemma update_nth_same {A} (k : nat) (l : list A) (x : A) :
  nth_error l k = Some x -> update_nth k (fun _ => x) l = l.
Proof.
  revert k; induction l as [|y r IH]; intros [|k]; simpl; auto; intros H.
  - now inversion H.
  - now rewrite IH.
Qed.

Lemma nth_error_reopen_actor (k : nat) (ps : list Player) :
  nth_error (reopen k ps) k = nth_error ps k.
Proof.
  unfold reopen. rewrite nth_error_map_seats. simpl.
  rewrite Nat.eqb_refl. simpl. now destruct (nth_error ps k).
Qed.

(** The actor's seat after any action. *)
Lemma actor_after (g : PokerGame) (k : nat) (p : Player) (action : PyVal) (r : Z) :
  nth_error (players g) k = Some p ->
  nth_error (players_after action r g k p) k
  = Some (set_has_acted true (seat_after action r g p)).
Proof.
  intros Hp. unfold players_after.
  rewrite nth_error_update_nth_eq.
  destruct (is_raise action); rewrite ?nth_error_reopen_actor;
    rewrite nth_error_update_nth_eq, Hp; reflexivity.
Qed.

(** ** C5: the raise clamp *)

(** C5. A raise is applied at min(max(minRaise, requested), chips + bet),
    with minRaise = 2 * currentBet when currentBet > 0 and bigBlindAmount
    otherwise: the actor's bet becomes that amount, the difference leaves the
    stack, the table's current bet follows, and the actor is marked all-in
    exactly when the amount is the whole of chips + bet. *)
Theorem raise_is_clamped (g : PokerGame) (k : nat) (actor : Player) (requested : Z) :
  position (length (players g)) (current_player_index g) = Some k ->
  nth_error (players g) k = Some actor ->
  let minRaise := if 0 <? current_bet g then current_bet g * 2 else big_blind_amount g in
  let amount := Z.min (Z.max minRaise requested) (chips actor + bet actor) in
  exists g' actor',
    handle_action (PyStr "raise") (PyInt requested) g = Done tt g'
    /\ nth_error (players g') k = Some actor'
    /\ bet actor' = amount
    /\ chips actor' = chips actor + bet actor - amount
    /\ current_bet g' = amount
    /\ is_all_in actor' = (is_all_in actor || (amount =? chips actor + bet actor)).
Proof.
  intros Hk Hp minRaise amount.
  destruct (handle_action_effect g k actor (PyStr "raise") (PyInt requested) requested
              Hk Hp (fun _ => eq_refl)) as (g' & Hrun & Hps & Hcb & _).
  exists g', (set_has_acted true (seat_after (PyStr "raise") requested g actor)).
  split; [exact Hrun|].
  split; [rewrite Hps; now apply actor_after|].
  change (is_raise (PyStr "raise")) with true in Hcb. cbv iota in Hcb.
  rewrite Hcb.
  unfold seat_after. cbn [is_str String.eqb Ascii.eqb Bool.eqb].
  fold minRaise. unfold min_raise_of. fold minRaise. fold amount.
  destruct (chips actor + bet actor <=? amount) eqn:E; cbn.
  - apply Z.leb_le in E.
    assert (amount = chips actor + bet actor) as -> by (subst amount; lia).
    rewrite Z.eqb_refl, orb_true_r. repeat split; lia.
  - apply Z.leb_gt in E.
    assert ((amount =? chips actor + bet actor) = false) as -> by (apply Z.eqb_neq; lia).
    rewrite orb_false_r. repeat split; lia.
Qed.

(** The specification's example: chips = 50, bet = 0, currentBet = 20 and a
    raise to 1000 end with bet = 50, chips = 0, all-in. *)
Lemma raise_is_clamped_witness :
  let g := table_of [seat_with "A" 50 0; seat_with "B" 990 10; seat_with "C" 980 20] 20 in
  position (length (players g)) (current_player_index g) = Some 0%nat
  /\ nth_error (players g) 0 = Some (seat_with "A" 50 0)
  /\ exists g' actor',
       handle_action (PyStr "raise") (PyInt 1000) g = Done tt g'
       /\ nth_error (players g') 0 = Some actor'
       /\ bet actor' = 50
       /\ chips actor' = 0
       /\ current_bet g' = 50
       /\ is_all_in actor' = true.
Proof.
  split; [reflexivity|]. split; [reflexivity|].
  exact (raise_is_clamped
           (table_of [seat_with "A" 50 0; seat_with "B" 990 10; seat_with "C" 980 20] 20)
           0%nat (seat_with "A" 50 0) 1000 eq_refl eq_refl).
Defined.

(** ** C4: the action "all-in" *)

(** An action that is none of "fold", "check", "call", "raise" matches no
    branch of [handle_action]: it only marks the actor as having acted and
    passes the turn. *)
Lemma unhandled_action_effect (g : PokerGame) (k : nat) (p : Player)
    (action amount : PyVal) :
  position (length (players g)) (current_player_index g) = Some k ->
  nth_error (players g) k = Some p ->
  is_str action "fold" = false -> is_str action "check" = false ->
  is_str action "call" = false -> is_str action "raise" = false ->
  exists g', handle_action action amount g = Done tt g'
    /\ players g' = update_nth k (set_has_acted true) (players g)
    /\ current_bet g' = current_bet g
    /\ pot g' = pot g.
Proof.
  intros Hk Hp Hf Hc Hl Hr.
  destruct (handle_action_effect g k p action amount 0 Hk Hp)
    as (g' & Hrun & Hps & Hcb & _ & Hfr).
  { unfold is_raise. rewrite Hr, andb_false_r. discriminate. }
  exists g'. split; [exact Hrun|].
  unfold players_after, seat_after, is_raise in Hps, Hcb.
  rewrite Hf, Hc, Hl, Hr in Hps, Hcb. cbn [negb andb] in Hps, Hcb.
  rewrite (update_nth_same _ _ _ Hp) in Hps.
  repeat split; try assumption. apply Hfr.
Qed.

(** "all-in" is such an action. *)
Lemma all_in_action_effect (g : PokerGame) (k : nat) (p : Player) (amount : PyVal) :
  position (length (players g)) (current_player_index g) = Some k ->
  nth_error (players g) k = Some p ->
  exists g', handle_action (PyStr "all-in") amount g = Done tt g'
    /\ players g' = update_nth k (set_has_acted true) (players g)
    /\ current_bet g' = current_bet g
    /\ pot g' = pot g.
Proof.
  intros Hk Hp. now apply (unhandled_action_effect g k p).
Qed.

(** C4. An actor with chips = 100 and bet = 0 who submits "all-in" keeps
    chips = 100 and bet = 0 and is not marked all-in: the engine wagers
    nothing for this action. *)
Theorem all_in_request_wagers_nothing :
  let g := table_of [seat_with "A" 100 0; seat_with "B" 990 10; seat_with "C" 980 20] 20 in
  exists g' actor',
    handle_action (PyStr "all-in") (PyInt 0) g = Done tt g'
    /\ nth_error (players g') 0 = Some actor'
    /\ chips actor' = 100 /\ bet actor' = 0 /\ is_all_in actor' = false
    /\ has_acted actor' = true.
Proof.
  cbv zeta. eexists. eexists. split; [reflexivity|].
  split; [reflexivity|]. repeat split.
Qed.

(** ** C9: a failing Gemini reply *)

Lemma player_states_ok (ps : list Player) (g : PokerGame) :
  (forall q, In q ps -> exists cs, present (hand q) = Ok cs) ->
  player_states ps g = Done tt g.
Proof.
  induction ps as [|q r IH]; intros H; [reflexivity|].
  cbn [player_states]. unfold bind at 1.
  destruct (H q (or_introl eq_refl)) as [cs Hcs].
  destruct (show_hand q); unfold card_str; rewrite ?Hcs; cbn;
    apply IH; intros; apply H; now right.
Qed.

(** A raise by something that is no number raises TypeError before
    anything is changed. *)
Lemma handle_action_bad_amount (g : PokerGame) (k : nat) (p : Player)
    (action amount : PyVal) :
  position (length (players g)) (current_player_index g) = Some k ->
  nth_error (players g) k = Some p ->
  is_raise action = true -> is_int amount = false ->
  handle_action action amount g = Throw TypeError g.
Proof.
  intros Hk Hp Hr Hi. unfold handle_action, is_raise in *.
  mred. rewrite Hk. mred. rewrite Hp.
  destruct (is_str action "fold"); [discriminate|].
  destruct (is_str action "check"); [discriminate|].
  destruct (is_str action "call"); [discriminate|].
  destruct (is_str action "raise"); [|discriminate].
  destruct amount; [discriminate| |]; reflexivity.
Qed.

Lemma fold_effect (g : PokerGame) (k : nat) (p : Player) (amount : PyVal) :
  position (length (players g)) (current_player_index g) = Some k ->
  nth_error (players g) k = Some p ->
  exists g', handle_action (PyStr "fold") amount g = Done tt g'
    /\ players g'
       = update_nth k (fun _ => set_has_acted true (set_is_folded true p)) (players g)
    /\ current_bet g' = current_bet g
    /\ frame g g'
    /\ log_messages g' = log_messages g ++ [MsgFolds (name p)]
    /\ console g' = console g ++ [MsgFolds (name p)].
Proof.
  intros Hk Hp.
  pose proof (position_lt _ _ _ Hk) as Hlt.
  unfold handle_action, frame. mred. rewrite Hk. mred. rewrite Hp.
  cbn [is_str String.eqb Ascii.eqb Bool.eqb].
  proj; unfold modulo, n_players; proj.
  repeat rewrite update_nth_length.
  destruct (Z.of_nat (length (players g)) =? 0) eqn:E0; [apply Z.eqb_eq in E0; lia|].
  eexists; split; [reflexivity|]; proj.
  rewrite update_nth_update_nth.
  repeat split; try reflexivity.
  now apply (update_nth_ext _ _ _ _ p Hp).
Qed.



(** ** C8: the human action route *)


(** ** C7: closing a betting round *)

Lemma filter_length_all {A} (f : A -> bool) (l : list A) :
  length (filter f l) = length l <-> (forall x, In x l -> f x = true).
Proof.
  induction l as [|x r IH]; simpl.
  - split; [intros _ y []|reflexivity].
  - pose proof (filter_length_le f r) as Hle.
    destruct (f x) eqn:E; simpl; split.
    + intros H y [<-|Hy]; [exact E|]. apply IH; [lia|exact Hy].
    + intros H. f_equal. apply IH. intros y Hy. apply H. now right.
    + intros H. lia.
    + intros H. specialize (H x (or_introl eq_refl)). congruence.
Qed.

Lemma nodup_length_le1 {A} (dec : forall x y : A, {x = y} + {x <> y}) (l : list A) :
  (length (nodup dec l) <= 1)%nat <-> (forall x y, In x l -> In y l -> x = y).
Proof.
  split.
  - intros H x y Hx Hy.
    apply (nodup_In dec) in Hx. apply (nodup_In dec) in Hy.
    revert H Hx Hy.
    destruct (nodup dec l) as [|a [|b r]]; simpl; intros H Hx Hy;
      [contradiction| |lia].
    destruct Hx as [<-|[]], Hy as [<-|[]]. reflexivity.
  - intros H.
    pose proof (NoDup_nodup dec l) as Hnd.
    destruct (nodup dec l) as [|a [|b r]] eqn:E; simpl; try lia.
    exfalso.
    assert (Ha : In a l) by (apply (nodup_In dec); rewrite E; now left).
    assert (Hb : In b l) by (apply (nodup_In dec); rewrite E; right; now left).
    rewrite (H a b Ha Hb) in Hnd.
    inversion Hnd as [|? ? Hn _]. apply Hn. now left.
Qed.

Lemma In_active_not_allin (g : PokerGame) (p : Player) :
  In p (active_not_allin g)
  <-> In p (players g) /\ is_folded p = false /\ is_all_in p = false.
Proof.
  unfold active_not_allin, active_players. rewrite !filter_In, !negb_true_iff. tauto.
Qed.

Lemma round_closed_iff (g : PokerGame) : round_closed g = true <-> round_is_closed g.
Proof.
  unfold round_closed, round_is_closed, acted_players, bets.
  rewrite andb_true_iff, Nat.eqb_eq, Nat.leb_le, filter_length_all, nodup_length_le1.
  split; intros [H1 H2]; split.
  - intros p Hp Hf Ha. apply H1. now apply In_active_not_allin.
  - intros p q Hp Hq Hpf Hpa Hqf Hqa. apply H2; apply in_map; now apply In_active_not_allin.
  - intros p Hp. apply In_active_not_allin in Hp. now apply H1.
  - intros x y Hx Hy. apply in_map_iff in Hx, Hy.
    destruct Hx as (p & <- & Hp), Hy as (q & <- & Hq).
    apply In_active_not_allin in Hp, Hq. now apply H2.
Qed.

Lemma advance_stage_effect (g : PokerGame) (s : Stage) :
  next_stage (game_stage g) = Ok s ->
  exists g1, advance_stage g = Done s g1
    /\ game_stage g1 = s /\ players g1 = players g /\ pot g1 = pot g
    /\ game_in_progress g1 = game_in_progress g
    /\ (exists cards, community_cards g1 = community_cards g ++ cards
          /\ length cards = dealt_on s).
Proof.
  intros H. unfold advance_stage. mred. rewrite H. mred.
  destruct s; unfold deal_one; mred; proj.
  all: repeat match goal with |- context [deal ?d] => destruct (deal d) end; mred; proj.
  all: eexists; split; [reflexivity|]; proj; repeat split.
  all: try (now exists []; rewrite app_nil_r).
  all: eexists; split; reflexivity.
Qed.

Lemma collect_bets_effect (g : PokerGame) :
  collect_bets g
  = Done tt (set_players (map (set_bet 0) (players g))
               (set_pot (pot g + sum_bets (players g)) g)).
Proof. reflexivity. Qed.

(** The head of the turn loop, case by case. *)
Lemma process_turn_head (g : PokerGame) (a : Answer) (env : list Answer) :
  game_in_progress g = true ->
  process_turn (a :: env) g
  = if (length (active_players g) <=? 1)%nat then end_round g
    else if round_closed g then end_betting_round (process_turn env) g
    else take_turn (process_turn env) a g.
Proof.
  intros H. cbn [process_turn]. unfold bind at 1. unfold get at 1.
  rewrite H. cbn [negb].
  destruct (length (active_players g) <=? 1)%nat; [reflexivity|].
  destruct (round_closed g); reflexivity.
Qed.




(** ** C2: the order of the tiebreak cards *)

(** C2. The full house 2,2,2,5,5 comes back with the pair first, 5,5,2,2,2;
    four nines with a king or a deuce as kicker come back kicker first, and
    so do three of a kind, two pair and one pair: the sort key puts the
    cards that are not in the group in front. *)
Theorem tiebreak_puts_kickers_first :
  rank_values (get_hand_rank [card Spade R2; card Heart R2; card Diamond R2;
                              card Spade R5; card Heart R5])
    = Some (6, [5; 5; 2; 2; 2])
  /\ rank_values (get_hand_rank [card Spade R9; card Heart R9; card Diamond R9;
                                 card Club R9; card Spade RK])
    = Some (7, [13; 9; 9; 9; 9])
  /\ rank_values (get_hand_rank [card Spade R9; card Heart R9; card Diamond R9;
                                 card Club R9; card Spade R2])
    = Some (7, [2; 9; 9; 9; 9])
  /\ rank_values (get_hand_rank [card Spade R7; card Heart R7; card Diamond R7;
                                 card Club R4; card Spade RK])
    = Some (3, [13; 4; 7; 7; 7])
  /\ rank_values (get_hand_rank [card Spade R7; card Heart R7; card Diamond R3;
                                 card Club R3; card Spade RK])
    = Some (2, [13; 7; 7; 3; 3])
  /\ rank_values (get_hand_rank [card Spade R7; card Heart R7; card Diamond R3;
                                 card Club R4; card Spade RK])
    = Some (1, [13; 4; 3; 7; 7]).
Proof. repeat split. Qed.

(** ** C3: the wheel *)

(** [get_hand_rank] does move the ace of a wheel of mixed suits behind the
    deuce, whatever the suits. *)
Lemma wheel_rank_ace_last (s1 s2 s3 s4 s5 : Suit) :
  (length (nodup Suit_eq_dec [s1; s2; s3; s4; s5]) =? 1)%nat = false ->
  get_hand_rank [card s1 RA; card s2 R5; card s3 R4; card s4 R3; card s5 R2]
  = Ok (4, [card s2 R5; card s3 R4; card s4 R3; card s5 R2; card s1 RA]).
Proof.
  destruct s1, s2, s3, s4, s5; intros H; try discriminate H; reflexivity.
Qed.

(** C3. With A,2,3,4,5,6 among the seven cards, [evaluate_hand] compares
    the wheel as ace-high: it prefers the wheel to the six-high straight and
    returns it as the best hand. A wheel of one suit, a straight flush,
    keeps its ace in front already in [get_hand_rank]. At showdown a seat
    holding ace and six on the board 2 3 4 5 K is therefore ranked below a
    seat holding six and nine, and gets nothing of a pot the two should
    share. *)
Theorem wheel_beats_six_high_in_selection :
  let wheel5 := [card Spade RA; card Heart R2; card Diamond R3; card Club R4;
                 card Spade R5] in
  let six_high := [card Heart R2; card Diamond R3; card Club R4; card Spade R5;
                   card Heart R6] in
  let seven := map Some (wheel5 ++ [card Heart R6; card Diamond RK]) in
  rank_values (get_hand_rank wheel5) = Some (4, [5; 4; 3; 2; 14])
  /\ rank_values (get_hand_rank [card Spade RA; card Spade R2; card Spade R3;
                                 card Spade R4; card Spade R5])
     = Some (8, [14; 5; 4; 3; 2])
  /\ rank_values (get_hand_rank six_high) = Some (4, [6; 5; 4; 3; 2])
  /\ (exists w r, get_hand_rank wheel5 = Ok w /\ get_hand_rank six_high = Ok r
                   /\ better w r = true /\ better r w = false)
  /\ rank_values (evaluate_hand seven) = Some (4, [5; 4; 3; 2; 14])
  /\ exists g', end_round straight_showdown = Done tt g'
                /\ map chips (players straight_showdown) = [500; 500]
                /\ map chips (players g') = [500; 600].
Proof.
  cbv zeta. split; [reflexivity|]. split; [reflexivity|]. split; [reflexivity|].
  split; [|split; [reflexivity|]].
  - eexists. eexists. split; [reflexivity|]. split; [reflexivity|].
    split; reflexivity.
  - eexists. split; [vm_compute; reflexivity|]. split; reflexivity.
Qed.

(** ** C1: chips + pot + bets *)

Section Sums.
Variable proj : Player -> Z.

Lemma sum_of_update_nth (k : nat) (f : Player -> Player) (l : list Player) (x : Player) :
  nth_error l k = Some x ->
  sum_of proj (update_nth k f l) = sum_of proj l - proj x + proj (f x).
Proof.
  unfold sum_of.
  revert k; induction l as [|y r IH]; intros [|k] H; simpl in *; try discriminate.
  - inversion H; subst. lia.
  - rewrite (IH k H). lia.
Qed.

Lemma map_update_nth_same (k : nat) (f : Player -> Player) (l : list Player) :
  (forall x, proj (f x) = proj x) -> map proj (update_nth k f l) = map proj l.
Proof.
  intros Hf. revert k; induction l as [|y r IH]; intros [|k]; simpl; auto.
  - now rewrite Hf.
  - now rewrite IH.
Qed.

Lemma map_map_seats_same (i : nat) (f : nat -> Player -> Player) (l : list Player) :
  (forall j x, proj (f j x) = proj x) -> map proj (map_seats i f l) = map proj l.
Proof.
  intros Hf. revert i; induction l as [|y r IH]; intros i; simpl; auto.
  now rewrite Hf, IH.
Qed.
End Sums.

Lemma sum_chips_is_sum_of (l : list Player) : sum_chips l = sum_of chips l.
Proof. reflexivity. Qed.

Lemma sum_bets_is_sum_of (l : list Player) : sum_bets l = sum_of bet l.
Proof. reflexivity. Qed.

(** Whatever the action, what leaves the actor's stack goes to the
    actor's bet. *)
Lemma seat_after_conserves (action : PyVal) (r : Z) (g : PokerGame) (p : Player) :
  chips (seat_after action r g p) + bet (seat_after action r g p) = chips p + bet p.
Proof.
  unfold seat_after.
  repeat match goal with
         | |- context [if ?c then _ else _] => destruct c
         end; cbn; lia.
Qed.

Lemma reopen_keeps (proj : Player -> Z) (k : nat) (ps : list Player) :
  (forall v x, proj (set_has_acted v x) = proj x) ->
  map proj (reopen k ps) = map proj ps.
Proof.
  intros H. unfold reopen. apply map_map_seats_same.
  intros j x. destruct (negb (j =? k)%nat && live x); auto.
Qed.

Lemma players_after_sum (proj : Player -> Z) (action : PyVal) (r : Z)
    (g : PokerGame) (k : nat) (p : Player) :
  (forall v x, proj (set_has_acted v x) = proj x) ->
  nth_error (players g) k = Some p ->
  sum_of proj (players_after action r g k p)
  = sum_of proj (players g) - proj p + proj (seat_after action r g p).
Proof.
  intros Hproj Hp. unfold players_after, sum_of.
  rewrite (map_update_nth_same proj) by (intros; apply Hproj).
  destruct (is_raise action); rewrite ?(reopen_keeps proj) by exact Hproj;
    exact (sum_of_update_nth proj k (fun _ => seat_after action r g p)
             (players g) p Hp).
Qed.

(** Every action, handled by [handle_action], leaves chips + pot + bets as
    it was. *)
Lemma handle_action_conserves (g : PokerGame) (k : nat) (p : Player)
    (action amount : PyVal) (requested : Z) :
  position (length (players g)) (current_player_index g) = Some k ->
  nth_error (players g) k = Some p ->
  (is_raise action = true -> amount = PyInt requested) ->
  exists g', handle_action action amount g = Done tt g' /\ total g' = total g.
Proof.
  intros Hk Hp Ha.
  destruct (handle_action_effect g k p action amount requested Hk Hp Ha)
    as (g' & Hrun & Hps & _ & _ & Hpot & _).
  exists g'. split; [exact Hrun|].
  unfold total. rewrite Hpot, Hps, !sum_chips_is_sum_of, !sum_bets_is_sum_of.
  rewrite (players_after_sum chips) by (reflexivity || exact Hp).
  rewrite (players_after_sum bet) by (reflexivity || exact Hp).
  pose proof (seat_after_conserves action requested g p).
  unfold sum_of, sum_chips, sum_bets in *. lia.
Qed.

Lemma sum_bets_zeroed (ps : list Player) : sum_bets (map (set_bet 0) ps) = 0.
Proof. induction ps as [|p r IH]; simpl; [reflexivity|]. exact IH. Qed.

Lemma sum_chips_zeroed (ps : list Player) :
  sum_chips (map (set_bet 0) ps) = sum_chips ps.
Proof.
  unfold sum_chips. induction ps as [|p r IH]; simpl; [reflexivity|].
  now rewrite IH.
Qed.

(** Sweeping the bets into the pot at the end of a betting round leaves
    chips + pot + bets as it was. *)
Lemma collect_bets_conserves (g : PokerGame) :
  exists g', collect_bets g = Done tt g' /\ total g' = total g.
Proof.
  eexists. split; [apply collect_bets_effect|].
  unfold total. proj. rewrite sum_bets_zeroed, sum_chips_zeroed. lia.
Qed.


(** ** C6: the table's current bet and the highest bet *)


Lemma position_mod (n : nat) (x : Z) :
  (0 < n)%nat ->
  position n (x mod Z.of_nat n) = Some (Z.to_nat (x mod Z.of_nat n)).
Proof.
  intros Hn. unfold position.
  pose proof (Z.mod_pos_bound x (Z.of_nat n) ltac:(lia)) as [H1 H2].
  apply Z.leb_le in H1. apply Z.ltb_lt in H2. now rewrite H1, H2.
Qed.

Lemma nth_error_lt {A} (l : list A) (k : nat) :
  (k < length l)%nat -> exists x, nth_error l k = Some x.
Proof.
  intros H. destruct (nth_error l k) eqn:E; [eauto|].
  apply nth_error_None in E. lia.
Qed.

Lemma deal_hands_length (ps : list Player) (d : list Card) :
  length (fst (deal_hands ps d)) = length ps.
Proof.
  revert d; induction ps as [|p r IH]; intros d; simpl; [reflexivity|].
  destruct (deal d) as [c1 d1]. destruct (deal d1) as [c2 d2].
  specialize (IH d2). destruct (deal_hands r d2). simpl in *. now rewrite IH.
Qed.

Lemma deal_hands_fresh (ps : list Player) (d : list Card) :
  Forall (fun p => bet p = 0 /\ is_folded p = false) (fst (deal_hands ps d)).
Proof.
  revert d; induction ps as [|p r IH]; intros d; simpl; [constructor|].
  destruct (deal d) as [c1 d1]. destruct (deal d1) as [c2 d2].
  specialize (IH d2). destruct (deal_hands r d2). simpl in *.
  constructor; [split; reflexivity|exact IH].
Qed.

Lemma Forall_update_nth {A} (P : A -> Prop) (k : nat) (f : A -> A) (l : list A) :
  Forall P l -> (forall x, P x -> P (f x)) -> Forall P (update_nth k f l).
Proof.
  intros H Hf. revert k; induction H as [|x r Hx Hr IH]; intros [|k]; simpl;
    constructor; auto.
Qed.

Lemma start_round_locked_effect (g : PokerGame) (d : list Card) :
  (2 <= length (filter funded (players g)))%nat ->
  exists g' sb bb,
    start_round_locked d g = Done true g'
    /\ players g'
       = update_nth bb (post_blind (big_blind_amount g))
           (update_nth sb (post_blind (small_blind_amount g))
              (fst (deal_hands (filter funded (players g)) d)))
    /\ current_bet g' = big_blind_amount g
    /\ big_blind_amount g' = big_blind_amount g
    /\ game_in_progress g' = true
    /\ sb <> bb
    /\ (sb < length (filter funded (players g)))%nat
    /\ (bb < length (filter funded (players g)))%nat
    /\ exists sb_player bb_player,
         nth_error (players g') sb = Some sb_player
         /\ nth_error (players g') bb = Some bb_player
         /\ pot g' = bet sb_player + bet bb_player.
Proof.
  intros Hn.
  unfold start_round_locked, reset_table. mred. proj.
  destruct (length (filter funded (players g)) <? 2)%nat eqn:E;
    [apply Nat.ltb_lt in E; lia|].
  unfold post_blinds. mred. proj.
  set (ps := filter funded (players g)) in *.
  pose proof (deal_hands_length ps d) as Hlen.
  destruct (deal_hands ps d) as [ps' d'] eqn:Ed. cbn [fst] in *. proj.
  unfold modulo, n_players. proj. rewrite Hlen.
  destruct (Z.of_nat (length ps) =? 0) eqn:E0; [apply Z.eqb_eq in E0; lia|].
  mred. proj.
  set (sbi := (small_blind_index g + 1) mod Z.of_nat (length ps)).
  set (bbi := (sbi + 1) mod Z.of_nat (length ps)).
  assert (Hsb : (Z.to_nat sbi < length ps')%nat).
  { subst sbi. pose proof (Z.mod_pos_bound (small_blind_index g + 1)
                             (Z.of_nat (length ps)) ltac:(lia)). lia. }
  assert (Hbb : (Z.to_nat bbi < length ps')%nat).
  { subst bbi. pose proof (Z.mod_pos_bound (sbi + 1)
                             (Z.of_nat (length ps)) ltac:(lia)). lia. }
  rewrite Hlen. unfold sbi at 1. rewrite position_mod by lia. fold sbi. proj.
  rewrite Hlen. unfold bbi at 1. rewrite position_mod by lia. fold bbi. proj.
  destruct (nth_error_lt ps' _ Hsb) as [p1 H1]. rewrite H1. proj.
  destruct (nth_error_lt (update_nth (Z.to_nat sbi) (post_blind (small_blind_amount g)) ps')
              (Z.to_nat bbi)) as [p2 H2]; [now rewrite update_nth_length|].
  rewrite H2. proj.
  destruct (nth_error_lt
              (update_nth (Z.to_nat bbi) (post_blind (big_blind_amount g))
                 (update_nth (Z.to_nat sbi) (post_blind (small_blind_amount g)) ps'))
              (Z.to_nat sbi)) as [p3 H3]; [now rewrite !update_nth_length|].
  rewrite H3. proj.
  destruct (nth_error_lt
              (update_nth (Z.to_nat bbi) (post_blind (big_blind_amount g))
                 (update_nth (Z.to_nat sbi) (post_blind (small_blind_amount g)) ps'))
              (Z.to_nat bbi)) as [p4 H4]; [now rewrite !update_nth_length|].
  rewrite H4. proj.
  assert (Hrange : 0 <= sbi < Z.of_nat (length ps)).
  { subst sbi. apply Z.mod_pos_bound. lia. }
  assert (Hne : Z.to_nat sbi <> Z.to_nat bbi).
  { subst bbi. destruct (Z.eq_dec (sbi + 1) (Z.of_nat (length ps))) as [Heq|Hneq].
    - rewrite Heq, Z_mod_same_full. lia.
    - rewrite Z.mod_small by lia. lia. }
  eexists. exists (Z.to_nat sbi), (Z.to_nat bbi). split; [reflexivity|].
  proj. repeat split; try lia.
  exists p3, p4. repeat split; try assumption; try lia.
Qed.

Lemma post_blind_bet (amount : Z) (p : Player) :
  bet (post_blind amount p) = Z.min amount (chips p).
Proof. unfold post_blind. cbn. destruct (_ =? 0); reflexivity. Qed.

Lemma post_blind_is_folded (amount : Z) (p : Player) :
  is_folded (post_blind amount p) = is_folded p.
Proof. unfold post_blind. cbn. destruct (_ =? 0); reflexivity. Qed.

Lemma deal_hands_chips (ps : list Player) (d : list Card) :
  map chips (fst (deal_hands ps d)) = map chips ps.
Proof.
  revert d; induction ps as [|p r IH]; intros d; simpl; [reflexivity|].
  destruct (deal d) as [c1 d1]. destruct (deal d1) as [c2 d2].
  specialize (IH d2). destruct (deal_hands r d2). simpl in *. now rewrite IH.
Qed.

Lemma post_blind_conserves (amount : Z) (p : Player) :
  chips (post_blind amount p) + bet (post_blind amount p) = chips p.
Proof. unfold post_blind. cbn. destruct (_ =? 0); cbn; lia. Qed.

Lemma sum_zero (l : list Z) : (forall x, In x l -> x = 0) -> fold_right Z.add 0 l = 0.
Proof.
  induction l as [|x r IH]; simpl; intros H; [reflexivity|].
  rewrite (H x (or_introl eq_refl)), IH; [reflexivity|]. intros; apply H; now right.
Qed.

(** Posting the blinds on any table with two funded seats: the stacks and
    the bets together still hold what the funded stacks held, and the pot
    holds the two blinds once more. With positive blinds chips + pot + bets
    has grown. *)
Lemma blinds_inflate_total (g : PokerGame) (d : list Card) :
  (2 <= length (filter funded (players g)))%nat ->
  exists g',
    start_round_locked d g = Done true g'
    /\ sum_chips (players g') + sum_bets (players g')
       = sum_chips (filter funded (players g))
    /\ total g' = sum_chips (filter funded (players g)) + pot g'
    /\ (0 < small_blind_amount g -> 0 < big_blind_amount g -> 0 < pot g').
Proof.
  intros Hn.
  destruct (start_round_locked_effect g d Hn)
    as (g' & sb & bb & Hrun & Hps & _ & _ & _ & Hne & Hsb & Hbb
        & psb & pbb & Hpsb & Hpbb & Hpot).
  exists g'. split; [exact Hrun|].
  set (ps := filter funded (players g)) in *.
  set (dealt := fst (deal_hands ps d)) in *.
  assert (Hlen : length dealt = length ps) by apply deal_hands_length.
  destruct (nth_error_lt dealt sb) as [p1 H1]; [lia|].
  destruct (nth_error_lt dealt bb) as [p2 H2]; [lia|].
  assert (H2' : nth_error (update_nth sb (post_blind (small_blind_amount g)) dealt) bb
                = Some p2) by (rewrite nth_error_update_nth_neq; auto).
  assert (Hsum : sum_chips (players g') + sum_bets (players g') = sum_chips ps).
  { rewrite Hps, !sum_chips_is_sum_of, !sum_bets_is_sum_of.
    rewrite (sum_of_update_nth chips _ _ _ _ H2'), (sum_of_update_nth bet _ _ _ _ H2').
    rewrite (sum_of_update_nth chips _ _ _ _ H1), (sum_of_update_nth bet _ _ _ _ H1).
    pose proof (post_blind_conserves (small_blind_amount g) p1).
    pose proof (post_blind_conserves (big_blind_amount g) p2).
    pose proof (deal_hands_fresh ps d) as Hfresh. fold dealt in Hfresh.
    rewrite Forall_forall in Hfresh.
    assert (Hb1 : bet p1 = 0) by (apply Hfresh; eapply nth_error_In; eassumption).
    assert (Hb2 : bet p2 = 0) by (apply Hfresh; eapply nth_error_In; eassumption).
    assert (Hz : sum_of bet dealt = 0).
    { apply sum_zero. intros x Hx. apply in_map_iff in Hx.
      destruct Hx as (q & <- & Hq). now apply Hfresh. }
    assert (Hc : sum_of chips dealt = sum_of chips ps).
    { unfold sum_of, dealt. now rewrite deal_hands_chips. }
    unfold sum_of, sum_chips, sum_bets in *. lia. }
  split; [exact Hsum|]. split; [unfold total; lia|].
  intros Hsba Hbba. rewrite Hpot.
  rewrite Hps in Hpsb, Hpbb.
  rewrite nth_error_update_nth_neq, nth_error_update_nth_eq, H1 in Hpsb by auto.
  rewrite nth_error_update_nth_eq, H2' in Hpbb.
  inversion Hpsb; inversion Hpbb; subst psb pbb.
  rewrite !post_blind_bet.
  assert (Hfunded : forall q, In q dealt -> 0 < chips q).
  { intros q Hq. apply (in_map chips) in Hq. unfold dealt in Hq.
    rewrite deal_hands_chips in Hq. apply in_map_iff in Hq.
    destruct Hq as (q0 & <- & Hq0). apply filter_In in Hq0.
    destruct Hq0 as [_ Hf]. now apply Z.ltb_lt in Hf. }
  pose proof (Hfunded p1 (nth_error_In _ _ H1)).
  pose proof (Hfunded p2 (nth_error_In _ _ H2)). lia.
Qed.

Lemma fold_max_le (l : list Z) (m : Z) :
  0 <= m -> (forall x, In x l -> x <= m) -> fold_right Z.max 0 l <= m.
Proof.
  intros Hm. induction l as [|y r IH]; simpl; intros H; [exact Hm|].
  apply Z.max_lub; [apply H; now left|apply IH; intros; apply H; now right].
Qed.

Lemma fold_max_ge (l : list Z) (x : Z) :
  In x l -> x <= fold_right Z.max 0 l.
Proof.
  induction l as [|y r IH]; simpl; intros H; [contradiction|].
  destruct H as [<-|H]; [apply Z.le_max_l|].
  specialize (IH H). lia.
Qed.

Lemma fold_max_in (l : list Z) :
  0 < fold_right Z.max 0 l -> In (fold_right Z.max 0 l) l.
Proof.
  induction l as [|y r IH]; simpl; intros H; [lia|].
  destruct (Z.max_spec y (fold_right Z.max 0 r)) as [[Hlt ->]|[Hle ->]].
  - right. apply IH. rewrite Z.max_r in H by lia. exact H.
  - now left.
Qed.

Lemma filter_all {A} (f : A -> bool) (l : list A) :
  (forall x, In x l -> f x = true) -> filter f l = l.
Proof.
  induction l as [|y r IH]; simpl; intros H; [reflexivity|].
  rewrite (H y (or_introl eq_refl)). f_equal. apply IH. intros; apply H; now right.
Qed.

Lemma blinds_current_bet (g : PokerGame) (d : list Card) :
  (2 <= length (filter funded (players g)))%nat ->
  small_blind_amount g <= big_blind_amount g ->
  0 < big_blind_amount g ->
  exists g',
    start_round_locked d g = Done true g'
    /\ current_bet g' = big_blind_amount g
    /\ highest_bet g' <= current_bet g'
    /\ (highest_bet g' = current_bet g'
        <-> exists p, In p (players g') /\ bet p = big_blind_amount g).
Proof.
  intros Hn Hsb Hbb.
  destruct (start_round_locked_effect g d Hn) as (g' & sb & bb & Hrun & Hps & Hcb & _).
  exists g'. split; [exact Hrun|]. split; [exact Hcb|].
  assert (Hall : Forall (fun p => bet p <= big_blind_amount g /\ is_folded p = false)
                   (players g')).
  { rewrite Hps. apply Forall_update_nth; [apply Forall_update_nth|].
    - eapply Forall_impl; [|apply deal_hands_fresh].
      intros p [H1 H2]. split; [lia|exact H2].
    - intros p [H1 H2]. rewrite post_blind_bet, post_blind_is_folded. split; [lia|exact H2].
    - intros p [H1 H2]. rewrite post_blind_bet, post_blind_is_folded. split; [lia|exact H2]. }
  rewrite Forall_forall in Hall.
  assert (Hact : active_players g' = players g').
  { unfold active_players. apply filter_all. intros p Hp.
    destruct (Hall p Hp) as [_ ->]. reflexivity. }
  unfold highest_bet. rewrite Hact, Hcb.
  assert (Hle : fold_right Z.max 0 (map bet (players g')) <= big_blind_amount g).
  { apply fold_max_le; [lia|]. intros x Hx. apply in_map_iff in Hx.
    destruct Hx as (p & <- & Hp). now apply Hall. }
  split; [exact Hle|]. split.
  - intros Heq. rewrite <- Heq in Hbb. apply fold_max_in in Hbb.
    rewrite Heq in Hbb. apply in_map_iff in Hbb.
    destruct Hbb as (p & Hb & Hp). now exists p.
  - intros (p & Hp & Hb). apply Z.le_antisymm; [exact Hle|].
    apply fold_max_ge. rewrite <- Hb. now apply in_map.
Qed.

Lemma in_players_after (g : PokerGame) (k : nat) (p : Player) (action : PyVal) (r : Z)
    (q' : Player) :
  nth_error (players g) k = Some p ->
  In q' (players_after action r g k p) ->
  q' = set_has_acted true (seat_after action r g p)
  \/ exists q, In q (players g) /\ bet q' = bet q /\ is_folded q' = is_folded q.
Proof.
  intros Hp Hin. apply In_nth_error in Hin. destruct Hin as [j Hj].
  destruct (Nat.eq_dec j k) as [->|Hne].
  - rewrite (actor_after g k p action r Hp) in Hj. left. congruence.
  - right. unfold players_after in Hj.
    rewrite nth_error_update_nth_neq in Hj by exact Hne.
    destruct (is_raise action).
    + unfold reopen in Hj. rewrite nth_error_map_seats in Hj.
      rewrite nth_error_update_nth_neq in Hj by exact Hne.
      destruct (nth_error (players g) j) as [q|] eqn:Eq; [|discriminate].
      exists q. split; [eapply nth_error_In; eassumption|].
      cbn in Hj. inversion Hj; subst.
      destruct (negb (j =? k)%nat && live q); split; reflexivity.
    + rewrite nth_error_update_nth_neq in Hj by exact Hne.
      exists q'. split; [eapply nth_error_In; eassumption|]. split; reflexivity.
Qed.

Lemma raise_current_bet_is_highest (g : PokerGame) (k : nat) (p : Player)
    (action : PyVal) (requested : Z) :
  position (length (players g)) (current_player_index g) = Some k ->
  nth_error (players g) k = Some p ->
  is_raise action = true ->
  let applied := Z.min (Z.max (min_raise_of g) requested) (chips p + bet p) in
  exists g', handle_action action (PyInt requested) g = Done tt g'
    /\ current_bet g' = applied
    /\ (is_folded p = false -> 0 <= applied ->
        (forall q, In q (players g) -> is_folded q = false -> bet q <= applied) ->
        highest_bet g' = current_bet g').
Proof.
  intros Hk Hp Hr applied.
  destruct (handle_action_effect g k p action (PyInt requested) requested Hk Hp
              (fun _ => eq_refl)) as (g' & Hrun & Hps & Hcb & _).
  rewrite Hr in Hcb.
  assert (Hsa : bet (seat_after action requested g p) = applied
                /\ is_folded (seat_after action requested g p) = is_folded p).
  { unfold is_raise in Hr. unfold seat_after.
    destruct (is_str action "fold"); [discriminate|].
    destruct (is_str action "check"); [discriminate|].
    destruct (is_str action "call"); [discriminate|].
    destruct (is_str action "raise"); [|discriminate].
    fold applied. destruct (chips p + bet p <=? applied); cbn; auto. }
  destruct Hsa as [Hbet Hfold].
  exists g'. split; [exact Hrun|]. rewrite Hcb, Hbet. split; [reflexivity|].
  intros Hf H0 Hle.
  unfold highest_bet, active_players. rewrite Hps.
  apply Z.le_antisymm.
  - apply fold_max_le; [exact H0|].
    intros x Hx. apply in_map_iff in Hx. destruct Hx as (q' & <- & Hq').
    apply filter_In in Hq'. destruct Hq' as [Hin Hnf]. apply negb_true_iff in Hnf.
    destruct (in_players_after g k p action requested q' Hp Hin)
      as [->|(q & Hq & Hb & Hfo)].
    + cbn. rewrite Hbet. lia.
    + rewrite Hb. apply Hle; [exact Hq|congruence].
  - apply fold_max_ge. apply in_map_iff.
    exists (set_has_acted true (seat_after action requested g p)).
    split; [exact Hbet|]. apply filter_In. split.
    + eapply nth_error_In. apply (actor_after g k p action requested Hp).
    + cbn. now rewrite Hfold, Hf.
Qed.

Lemma other_actions_keep_current_bet (g : PokerGame) (k : nat) (p : Player)
    (action amount : PyVal) :
  position (length (players g)) (current_player_index g) = Some k ->
  nth_error (players g) k = Some p ->
  is_raise action = false ->
  exists g', handle_action action amount g = Done tt g'
    /\ current_bet g' = current_bet g.
Proof.
  intros Hk Hp Hr.
  destruct (handle_action_effect g k p action amount 0 Hk Hp) as (g' & Hrun & _ & Hcb & _).
  { rewrite Hr. discriminate. }
  rewrite Hr in Hcb. now exists g'.
Qed.



(** ** C10: splitting the pot at showdown *)

(** *** Descending sorts *)

Section StrictOrders.
Context {K : Type} (ltb : K -> K -> bool).
Hypothesis ltb_irrefl : forall a, ltb a a = false.
Hypothesis ltb_trans : forall a b c, ltb a b = true -> ltb b c = true -> ltb a c = true.
Hypothesis ltb_total : forall a b, ltb a b = false -> ltb b a = false -> a = b.

Lemma ltb_asym (a b : K) : ltb a b = true -> ltb b a = false.
Proof.
  intros H. destruct (ltb b a) eqn:E; [|reflexivity].
  rewrite <- (ltb_irrefl a). symmetry. now apply (ltb_trans a b a).
Qed.

Lemma ltb_negtrans (a b c : K) :
  ltb a b = false -> ltb b c = false -> ltb a c = false.
Proof.
  intros Hab Hbc. destruct (ltb a c) eqn:Hac; [|reflexivity].
  destruct (ltb b a) eqn:Hba.
  - rewrite <- Hbc. symmetry. now apply (ltb_trans b a c).
  - rewrite (ltb_total a b Hab Hba) in Hac. congruence.
Qed.
End StrictOrders.

Section SortedDesc.
Context {A K : Type} (ltb : K -> K -> bool) (key : A -> K).
Hypothesis ltb_irrefl : forall a, ltb a a = false.
Hypothesis ltb_asym' : forall a b, ltb a b = true -> ltb b a = false.
Hypothesis ltb_negtrans' : forall a b c, ltb a b = false -> ltb b c = false -> ltb a c = false.

Lemma insert_desc_perm (x : A) (l : list A) :
  Permutation (x :: l) (insert_desc ltb key x l).
Proof.
  induction l as [|y r IH]; simpl; [apply Permutation_refl|].
  destruct (ltb (key x) (key y)); [|apply Permutation_refl].
  eapply perm_trans; [apply perm_swap|]. now apply perm_skip.
Qed.

Lemma sorted_desc_perm (l : list A) : Permutation l (sorted_desc ltb key l).
Proof.
  induction l as [|x r IH]; simpl; [constructor|].
  eapply perm_trans; [|apply insert_desc_perm]. now apply perm_skip.
Qed.

Lemma insert_desc_sorted (x : A) (l : list A) :
  StronglySorted (not_below ltb key) l -> StronglySorted (not_below ltb key) (insert_desc ltb key x l).
Proof.
  induction 1 as [|y r Hs IH Hy]; simpl.
  - constructor; constructor.
  - destruct (ltb (key x) (key y)) eqn:E.
    + constructor; [exact IH|].
      eapply Permutation_Forall; [apply insert_desc_perm|].
      constructor; [now apply ltb_asym'|exact Hy].
    + constructor; [now constructor|].
      constructor; [exact E|].
      eapply Forall_impl; [|exact Hy].
      intros z Hz. now apply (ltb_negtrans' _ (key y)).
Qed.

Lemma sorted_desc_sorted (l : list A) : StronglySorted (not_below ltb key) (sorted_desc ltb key l).
Proof.
  induction l as [|x r IH]; simpl; [constructor|]. now apply insert_desc_sorted.
Qed.

(** The head of the sorted list is a maximum of the list. *)
Lemma sorted_desc_head_max (l : list A) (h : A) (t : list A) :
  sorted_desc ltb key l = h :: t ->
  forall x, In x l -> ltb (key h) (key x) = false.
Proof.
  intros E x Hx.
  pose proof (sorted_desc_sorted l) as Hs. rewrite E in Hs.
  apply (Permutation_in _ (sorted_desc_perm l)) in Hx. rewrite E in Hx.
  inversion Hs as [|? ? _ Hall]; subst.
  destruct Hx as [<-|Hx]; [apply ltb_irrefl|].
  rewrite Forall_forall in Hall. now apply Hall.
Qed.

Lemma filter_length_perm (f : A -> bool) (l l' : list A) :
  Permutation l l' -> length (filter f l) = length (filter f l').
Proof.
  induction 1 as [|x l l' _ IH|x y l|l l' l'' _ IH1 _ IH2]; simpl.
  - reflexivity.
  - destruct (f x); simpl; now rewrite IH.
  - destruct (f x), (f y); reflexivity.
  - now rewrite IH1.
Qed.
End SortedDesc.

(** The order of Python on lists of integers and on the keys of [end_round]. *)
Lemma list_ltb_irrefl (l : list Z) : list_ltb l l = false.
Proof.
  induction l as [|a r IH]; simpl; [reflexivity|].
  now rewrite Z.ltb_irrefl, Z.eqb_refl, IH.
Qed.

Lemma list_ltb_trans (a b c : list Z) :
  list_ltb a b = true -> list_ltb b c = true -> list_ltb a c = true.
Proof.
  revert b c; induction a as [|x a IH]; intros [|y b] [|z c]; simpl;
    try discriminate; auto.
  intros H1 H2.
  apply orb_true_iff in H1, H2. apply orb_true_iff.
  destruct H1 as [H1|H1], H2 as [H2|H2];
    rewrite ?andb_true_iff, ?Z.ltb_lt, ?Z.eqb_eq in *.
  - left; lia.
  - left; lia.
  - left; lia.
  - right. destruct H1 as [-> H1], H2 as [-> H2]. split; [reflexivity|].
    now apply (IH b c).
Qed.

Lemma list_ltb_total (a b : list Z) :
  list_ltb a b = false -> list_ltb b a = false -> a = b.
Proof.
  revert b; induction a as [|x a IH]; intros [|y b]; simpl; try discriminate; auto.
  intros H1 H2. apply orb_false_iff in H1, H2.
  destruct H1 as [H1 H1'], H2 as [H2 H2'].
  apply Z.ltb_ge in H1, H2. assert (x = y) by lia. subst y.
  rewrite Z.eqb_refl in H1', H2'. simpl in *. f_equal. now apply IH.
Qed.

Lemma key_ltb_irrefl (a : Z * list Z) : key_ltb a a = false.
Proof.
  unfold key_ltb, pair_ltb. now rewrite Z.ltb_irrefl, Z.eqb_refl, list_ltb_irrefl.
Qed.

Lemma key_ltb_trans (a b c : Z * list Z) :
  key_ltb a b = true -> key_ltb b c = true -> key_ltb a c = true.
Proof.
  unfold key_ltb, pair_ltb. destruct a as [x a], b as [y b], c as [z c]; simpl.
  intros H1 H2. apply orb_true_iff in H1, H2. apply orb_true_iff.
  destruct H1 as [H1|H1], H2 as [H2|H2];
    rewrite ?andb_true_iff, ?Z.ltb_lt, ?Z.eqb_eq in *.
  - left; lia.
  - left; lia.
  - left; lia.
  - right. destruct H1 as [-> H1], H2 as [-> H2]. split; [reflexivity|].
    now apply (list_ltb_trans a b c).
Qed.

Lemma key_ltb_total (a b : Z * list Z) :
  key_ltb a b = false -> key_ltb b a = false -> a = b.
Proof.
  unfold key_ltb, pair_ltb. destruct a as [x a], b as [y b]; simpl.
  intros H1 H2. apply orb_false_iff in H1, H2.
  destruct H1 as [H1 H1'], H2 as [H2 H2'].
  apply Z.ltb_ge in H1, H2. assert (x = y) by lia. subst y.
  rewrite Z.eqb_refl in H1', H2'. simpl in *. f_equal. now apply list_ltb_total.
Qed.

Lemma key_eqb_eq (a b : Z * list Z) : key_eqb a b = true <-> a = b.
Proof.
  unfold key_eqb, list_eqb. destruct a as [x a], b as [y b]; simpl.
  rewrite andb_true_iff, Z.eqb_eq.
  destruct (list_eq_dec Z.eq_dec a b); split.
  - intros [-> _]. now subst.
  - intros H; inversion H; auto.
  - intros [_ H]. discriminate.
  - intros H; inversion H; subst. contradiction.
Qed.

(** *** Ranks at showdown *)

Lemma get_hand_rank_category (h : list Card) (r : Z * list Card) :
  get_hand_rank h = Ok r -> 0 <= fst r <= 9.
Proof.
  unfold get_hand_rank.
  repeat match goal with
         | |- context [rbind ?x _] => destruct x; cbn [rbind]
         | |- context [if ?c then _ else _] => destruct c
         end;
    intros H; inversion H; subst; cbn; lia.
Qed.

Lemma evaluate_loop_category (hs : list (list (option Card))) (best r : Z * list Card) :
  -1 <= fst best <= 9 -> evaluate_loop hs best = Ok r -> -1 <= fst r <= 9.
Proof.
  revert best; induction hs as [|h hs IH]; intros best Hb; simpl.
  - intros H; inversion H; subst; exact Hb.
  - destruct (present h) as [cs|]; cbn [rbind]; [|discriminate].
    destruct (get_hand_rank cs) as [rk|] eqn:E; cbn [rbind]; [|discriminate].
    apply IH. apply get_hand_rank_category in E.
    destruct (better rk best); lia.
Qed.

Lemma evaluate_hand_category (h : list (option Card)) (r : Z * list Card) :
  evaluate_hand h = Ok r -> -1 <= fst r <= 9.
Proof. apply evaluate_loop_category. cbn. lia. Qed.

Lemma rank_all_spec (c : list (option Card)) (l : list (nat * Player))
    (data : list (nat * (Z * list Card))) :
  rank_all c l = Ok data ->
  map fst data = map fst l
  /\ Forall (fun d => -1 <= fst (snd d) <= 9) data.
Proof.
  revert data; induction l as [|[k p] l IH]; intros data; simpl.
  - intros H; inversion H; subst. split; [reflexivity|constructor].
  - destruct (evaluate_hand (hand p ++ c)) as [r|] eqn:E; cbn [rbind]; [|discriminate].
    destruct (rank_all c l) as [rs|]; cbn [rbind]; [|discriminate].
    intros H; inversion H; subst. destruct (IH rs eq_refl) as [H1 H2].
    split; [simpl; now rewrite H1|].
    constructor; [apply (evaluate_hand_category _ _ E)|exact H2].
Qed.

Lemma hand_name_found (c : Z) :
  -1 <= c <= 9 -> exists s, index HAND_NAMES c = Ok s.
Proof.
  intros H.
  assert (c = -1 \/ c = 0 \/ c = 1 \/ c = 2 \/ c = 3 \/ c = 4 \/ c = 5 \/ c = 6
          \/ c = 7 \/ c = 8 \/ c = 9) as Hc by lia.
  repeat destruct Hc as [->|Hc]; try subst c; eexists; reflexivity.
Qed.

(** *** Seats with their numbers *)

Lemma combine_seq_map {A} (h : A -> A) (i : nat) (l : list A) :
  combine (seq i (length (map h l))) (map h l)
  = map (fun kp => (fst kp, h (snd kp))) (combine (seq i (length l)) l).
Proof.
  revert i; induction l as [|x r IH]; intros i; simpl; [reflexivity|].
  now rewrite IH.
Qed.

Lemma contenders_map (h : Player -> Player) (ps : list Player) :
  (forall p, is_folded (h p) = is_folded p) ->
  filter (fun kp => negb (is_folded (snd kp))) (indexed (map h ps))
  = map (fun kp => (fst kp, h (snd kp)))
      (filter (fun kp => negb (is_folded (snd kp))) (indexed ps)).
Proof.
  intros Hh. unfold indexed. rewrite combine_seq_map.
  induction (combine (seq 0 (length ps)) ps) as [|[k p] r IH]; simpl; [reflexivity|].
  rewrite Hh. destruct (is_folded p); simpl; now rewrite IH.
Qed.

Lemma rank_all_map (c : list (option Card)) (h : Player -> Player)
    (l : list (nat * Player)) :
  (forall p, hand (h p) = hand p) ->
  rank_all c (map (fun kp => (fst kp, h (snd kp))) l) = rank_all c l.
Proof.
  intros Hh. induction l as [|[k p] r IH]; simpl; [reflexivity|].
  now rewrite Hh, IH.
Qed.

Lemma map_fst_combine_seq {A} (i : nat) (l : list A) :
  map fst (combine (seq i (length l)) l) = seq i (length l).
Proof.
  revert i; induction l as [|x r IH]; intros i; simpl; [reflexivity|].
  now rewrite IH.
Qed.

Lemma NoDup_map_fst_filter {A B} (f : A * B -> bool) (l : list (A * B)) :
  NoDup (map fst l) -> NoDup (map fst (filter f l)).
Proof.
  induction l as [|x r IH]; simpl; intros H; [constructor|].
  inversion H as [|? ? Hn Hr]; subst.
  destruct (f x); simpl; [|now apply IH].
  constructor; [|now apply IH].
  intros Hin. apply Hn. apply in_map_iff in Hin. destruct Hin as (y & Hy & Hin).
  apply filter_In in Hin. apply in_map_iff. exists y. tauto.
Qed.

Lemma contenders_seats (g : PokerGame) :
  NoDup (map fst (contenders g))
  /\ forall k, In k (map fst (contenders g)) -> (k < length (players g))%nat.
Proof.
  unfold contenders, indexed. split.
  - apply NoDup_map_fst_filter. rewrite map_fst_combine_seq. apply seq_NoDup.
  - intros k Hk. apply in_map_iff in Hk. destruct Hk as ([k' p] & <- & Hin).
    apply filter_In in Hin. destruct Hin as [Hin _].
    apply in_combine_l in Hin. apply in_seq in Hin. simpl. lia.
Qed.

(** *** Paying the winners *)

Lemma pay_length (w : Z) (ps : list Player) (d : nat * (Z * list Card)) :
  length (pay w ps d) = length ps.
Proof. apply update_nth_length. Qed.

Lemma fold_pay_length (w : Z) (ws : list (nat * (Z * list Card))) (ps : list Player) :
  length (fold_left (pay w) ws ps) = length ps.
Proof.
  revert ps; induction ws as [|d ws IH]; intros ps; simpl; [reflexivity|].
  now rewrite IH, pay_length.
Qed.

Lemma fold_pay_seat (w : Z) (ws : list (nat * (Z * list Card))) (ps : list Player)
    (k : nat) (p : Player) :
  NoDup (map fst ws) ->
  nth_error ps k = Some p ->
  exists p', nth_error (fold_left (pay w) ws ps) k = Some p'
    /\ chips p' = chips p + (if existsb (Nat.eqb k) (map fst ws) then w else 0).
Proof.
  revert ps p; induction ws as [|d ws IH]; intros ps p Hnd Hp; simpl.
  - exists p. split; [exact Hp|lia].
  - inversion Hnd as [|? ? Hn Hr]; subst.
    destruct (Nat.eqb_spec k (fst d)) as [->|Hne]; simpl.
    + destruct (IH (pay w ps d) (set_chips (chips p + w) p) Hr) as (p' & H1 & H2).
      { unfold pay. now rewrite nth_error_update_nth_eq, Hp. }
      exists p'. split; [exact H1|]. rewrite H2. cbn.
      destruct (existsb (Nat.eqb (fst d)) (map fst ws)) eqn:E; [|lia].
      exfalso. apply Hn. apply existsb_exists in E. destruct E as (x & Hx & Heq).
      apply Nat.eqb_eq in Heq. now subst.
    + apply (IH (pay w ps d) p Hr).
      unfold pay. now rewrite nth_error_update_nth_neq.
Qed.

Lemma fold_pay_sum (w : Z) (ws : list (nat * (Z * list Card))) (ps : list Player) :
  (forall k, In k (map fst ws) -> (k < length ps)%nat) ->
  sum_chips (fold_left (pay w) ws ps) = sum_chips ps + Z.of_nat (length ws) * w.
Proof.
  revert ps; induction ws as [|d ws IH]; intros ps Hlt.
  - simpl. lia.
  - cbn [fold_left]. rewrite IH.
    + destruct (nth_error ps (fst d)) as [p|] eqn:Ep.
      * unfold pay. rewrite !sum_chips_is_sum_of.
        rewrite (sum_of_update_nth chips _ _ _ _ Ep). cbn [chips set_chips length].
        unfold sum_of, sum_chips. rewrite Nat2Z.inj_succ. lia.
      * apply nth_error_None in Ep. specialize (Hlt (fst d) (or_introl eq_refl)). lia.
    + intros k Hk. rewrite pay_length. apply Hlt. now right.
Qed.

(** *** The winners *)

Lemma best_is_head (data : list (nat * (Z * list Card))) (best : nat * (Z * list Card))
    (t : list (nat * (Z * list Card))) (d : nat * (Z * list Card)) :
  sorted_desc key_ltb showdown_key data = best :: t ->
  In d data ->
  key_eqb (showdown_key d) (showdown_key best) = is_best data d.
Proof.
  intros Hs Hd.
  assert (Hmax : forall x, In x data -> key_ltb (showdown_key best) (showdown_key x) = false).
  { eapply (sorted_desc_head_max key_ltb showdown_key); eauto using key_ltb_irrefl.
    - intros a b. apply ltb_asym; eauto using key_ltb_irrefl, key_ltb_trans.
    - intros a b c. apply ltb_negtrans; eauto using key_ltb_trans, key_ltb_total. }
  assert (Hbest : In best data).
  { apply (Permutation_in _ (Permutation_sym (sorted_desc_perm key_ltb showdown_key data))).
    rewrite Hs. now left. }
  unfold is_best. fold showdown_key.
  destruct (key_eqb (showdown_key d) (showdown_key best)) eqn:E; symmetry.
  - apply key_eqb_eq in E. apply forallb_forall. intros x Hx.
    change (negb (key_ltb (showdown_key d) (showdown_key x)) = true).
    rewrite E, (Hmax x Hx). reflexivity.
  - destruct (forallb _ data) eqn:F; [|reflexivity].
    rewrite forallb_forall in F. specialize (F best Hbest).
    change (negb (key_ltb (showdown_key d) (showdown_key best)) = true) in F.
    apply negb_true_iff in F.
    rewrite (key_ltb_total _ _ F (Hmax d Hd)) in E.
    assert (key_eqb (showdown_key best) (showdown_key best) = true) by now apply key_eqb_eq.
    congruence.
Qed.

Lemma winners_are_the_best (data : list (nat * (Z * list Card)))
    (best : nat * (Z * list Card)) (t : list (nat * (Z * list Card))) :
  sorted_desc key_ltb showdown_key data = best :: t ->
  winners_of (best :: t) best = filter (is_best data) (best :: t).
Proof.
  intros Hs. unfold winners_of. apply filter_ext_in. intros d Hd.
  apply (best_is_head data best t d Hs).
  apply (Permutation_in _ (Permutation_sym (sorted_desc_perm key_ltb showdown_key data))).
  now rewrite Hs.
Qed.

Lemma position_zero (n : nat) : position (S n) 0 = Some 0%nat.
Proof.
  unfold position. replace (0 <? Z.of_nat (S n)) with true; [reflexivity|].
  symmetry. apply Z.ltb_lt. lia.
Qed.

Lemma existsb_seat_ext (k : nat) (l l' : list nat) :
  (forall x, In x l <-> In x l') ->
  existsb (Nat.eqb k) l = existsb (Nat.eqb k) l'.
Proof.
  intros H. apply eq_true_iff_eq. rewrite !existsb_exists.
  split; intros (x & Hx & E); exists x; split; auto; now apply H.
Qed.

Lemma sum_chips_map_same (h : Player -> Player) (ps : list Player) :
  (forall p, chips (h p) = chips p) -> sum_chips (map h ps) = sum_chips ps.
Proof.
  intros Hh. unfold sum_chips. rewrite map_map. f_equal.
  apply map_ext. exact Hh.
Qed.

(** C10. At showdown, when n >= 2 contenders tie for the best hand rank,
    each of them receives floor(pot / n), the pot being the table's pot
    with the outstanding bets swept in; every other seat keeps its stack, so
    the stacks grow by n * floor(pot / n) in all and the remainder pot mod n
    reaches nobody; the pot itself is left as it is until the next hand
    resets it to 0. *)
Theorem showdown_split (g : PokerGame) (data : list (nat * (Z * list Card))) :
  rank_all (community_cards g) (contenders g) = Ok data ->
  (2 <= length (filter (is_best data) data))%nat ->
  let stake := pot g + sum_bets (players g) in
  let winners := filter (is_best data) data in
  let n := Z.of_nat (length winners) in
  exists g',
    end_round g = Done tt g'
    /\ pot g' = stake
    /\ (forall k p, nth_error (players g) k = Some p ->
          exists p', nth_error (players g') k = Some p'
            /\ chips p' = chips p
                          + (if existsb (Nat.eqb k) (map fst winners)
                             then stake / n else 0))
    /\ sum_chips (players g') = sum_chips (players g) + n * (stake / n)
    /\ game_in_progress g' = false
    /\ (forall d, exists g'', reset_table d g' = Done tt g'' /\ pot g'' = 0).
Proof.
  intros Hrank Hn stake winners n.
  destruct (rank_all_spec _ _ _ Hrank) as [Hseats Hcats].
  destruct (contenders_seats g) as [Hnd Hlt].
  pose proof (sorted_desc_perm key_ltb showdown_key data) as Hperm.
  assert (Hlen : length (contenders g) = length data).
  { rewrite <- (length_map fst (contenders g)), <- Hseats. now rewrite length_map. }
  pose proof (filter_length_le (is_best data) data) as Hle. fold winners in Hn, Hle.
  destruct (sorted_desc key_ltb showdown_key data) as [|best t] eqn:Hs.
  { apply Permutation_length in Hperm. simpl in Hperm. lia. }
  assert (Hbest : In best data).
  { apply (Permutation_in _ (Permutation_sym Hperm)). now left. }
  assert (Hwlen : length (filter (is_best data) (best :: t)) = length winners).
  { symmetry. now apply filter_length_perm. }
  destruct (hand_name_found (fst (snd best))) as [nm Hnm].
  { rewrite Forall_forall in Hcats. now apply Hcats. }
  unfold end_round. mred. proj.
  rewrite !(contenders_map (set_bet 0)) by reflexivity.
  change (filter (fun kp : nat * Player => negb (is_folded (snd kp)))
            (indexed (players g))) with (contenders g).
  rewrite length_map.
  destruct (length (contenders g) =? 1)%nat eqn:E1; [apply Nat.eqb_eq in E1; lia|].
  rewrite (rank_all_map _ (set_bet 0)) by reflexivity.
  rewrite Hrank. mred.
  change (sorted_desc key_ltb (fun d => rank_key (snd d)) data)
    with (sorted_desc key_ltb showdown_key data).
  rewrite Hs. unfold index at 1. cbn [length]. rewrite position_zero. cbn [nth_error]. mred.
  rewrite (winners_are_the_best data best t Hs).
  unfold floordiv. rewrite Hwlen. fold n.
  destruct (n =? 0) eqn:E0; [apply Z.eqb_eq in E0; lia|]. mred. proj.
  rewrite Hnm. mred.
  eexists. split; [reflexivity|]. proj.
  assert (Hmem : forall x, In x (map fst (filter (is_best data) (best :: t)))
                           <-> In x (map fst winners)).
  { intros x. unfold winners. rewrite !in_map_iff.
    split; intros (y & Hy & Hin); exists y; (split; [exact Hy|]);
      apply filter_In in Hin; apply filter_In; destruct Hin as [Hin Hb];
      (split; [|exact Hb]).
    - now apply (Permutation_in _ (Permutation_sym Hperm)).
    - now apply (Permutation_in _ Hperm). }
  assert (Hnd' : NoDup (map fst (filter (is_best data) (best :: t)))).
  { apply NoDup_map_fst_filter.
    apply (Permutation_NoDup (Permutation_map fst Hperm)). now rewrite Hseats. }
  split; [reflexivity|]. split; [|split; [|split]].
  - intros k p Hp.
    destruct (fold_pay_seat (stake / n) (filter (is_best data) (best :: t))
                (map (set_show_hand true) (map (set_bet 0) (players g))) k
                (set_show_hand true (set_bet 0 p)) Hnd') as (p' & H1 & H2).
    { rewrite !nth_error_map, Hp. reflexivity. }
    exists p'. split; [exact H1|]. rewrite H2. cbn [chips set_show_hand set_bet].
    now rewrite (existsb_seat_ext k _ _ Hmem).
  - rewrite fold_pay_sum.
    + rewrite Hwlen. fold n. rewrite !sum_chips_map_same by reflexivity. reflexivity.
    + intros k Hk. rewrite !length_map. apply Hlt. rewrite <- Hseats.
      apply Hmem in Hk. unfold winners in Hk. apply in_map_iff in Hk.
      destruct Hk as (y & <- & Hin). apply filter_In in Hin. apply in_map. tauto.
  - reflexivity.
  - intros d. eexists. split; reflexivity.
Qed.

Lemma showdown_split_witness :
  rank_all (community_cards showdown_table) (contenders showdown_table)
  = Ok showdown_data
  /\ (2 <= length (filter (is_best showdown_data) showdown_data))%nat
  /\ exists g',
       end_round showdown_table = Done tt g'
       /\ pot g' = 101
       /\ (forall k p, nth_error (players showdown_table) k = Some p ->
             exists p', nth_error (players g') k = Some p'
               /\ chips p' = chips p
                             + (if existsb (Nat.eqb k) [0%nat; 1%nat] then 50 else 0))
       /\ sum_chips (players g') = sum_chips (players showdown_table) + 2 * 50
       /\ game_in_progress g' = false
       /\ (forall d, exists g'', reset_table d g' = Done tt g'' /\ pot g'' = 0).
Proof.
  assert (H1 : rank_all (community_cards showdown_table) (contenders showdown_table)
               = Ok showdown_data) by (vm_compute; reflexivity).
  assert (H2 : (2 <= length (filter (is_best showdown_data) showdown_data))%nat)
    by (vm_compute; lia).
  exact (conj H1 (conj H2 (showdown_split showdown_table showdown_data H1 H2))).
Defined.
(** *** Ranking never fails on dealt cards *)

Lemma sorted_desc_length {A K} (ltb : K -> K -> bool) (key : A -> K) (l : list A) :
  length (sorted_desc ltb key l) = length l.
Proof. symmetry. apply Permutation_length, sorted_desc_perm. Qed.

Lemma nodup_singleton_all (l : list Z) (v : Z) :
  nodup Z.eq_dec l = [v] -> forall x, In x l -> x = v.
Proof.
  intros H x Hx. apply (nodup_In Z.eq_dec) in Hx. rewrite H in Hx.
  destruct Hx as [<-|[]]. reflexivity.
Qed.

Lemma count_of_all (v : Z) (l : list Z) :
  (forall x, In x l -> x = v) -> count_of v l = Z.of_nat (length l).
Proof.
  intros H. unfold count_of. f_equal. f_equal. apply filter_all.
  intros x Hx. rewrite (H x Hx). apply Z.eqb_refl.
Qed.

Lemma value_counts_cases (values : list Z) :
  values <> [] ->
  (exists v, value_counts values = [(v, Z.of_nat (length values))])
  \/ (exists c0 c1 r, value_counts values = c0 :: c1 :: r).
Proof.
  intros Hne. unfold value_counts.
  set (items := map (fun v => (v, count_of v values)) (nodup Z.eq_dec values)).
  pose proof (sorted_desc_perm zpair_ltb (fun item : Z * Z => (snd item, fst item)) items)
    as Hperm.
  destruct (sorted_desc zpair_ltb _ items) as [|c0 [|c1 r]] eqn:E.
  - exfalso. apply Permutation_length in Hperm. subst items.
    rewrite length_map in Hperm. simpl in Hperm.
    destruct values as [|x values]; [congruence|].
    assert (In x (nodup Z.eq_dec (x :: values))) by (apply nodup_In; now left).
    destruct (nodup Z.eq_dec (x :: values)); [contradiction|discriminate].
  - left. apply Permutation_sym, Permutation_length_1_inv in Hperm.
    subst items. destruct (nodup Z.eq_dec values) as [|v [|w t]] eqn:En;
      try discriminate.
    simpl in Hperm. inversion Hperm; subst. exists v. f_equal. f_equal.
    apply count_of_all. now apply nodup_singleton_all.
  - right. now exists c0, c1, r.
Qed.

Lemma index_zero {A} (x : A) (l : list A) : index (x :: l) 0 = Ok x.
Proof. unfold index. cbn [length]. now rewrite position_zero. Qed.

Lemma index_one {A} (x y : A) (l : list A) : index (x :: y :: l) 1 = Ok y.
Proof.
  unfold index, position. cbn [length].
  replace (1 <? Z.of_nat (S (S (length l)))) with true; [reflexivity|].
  symmetry. apply Z.ltb_lt. lia.
Qed.

Lemma get_hand_rank_total (h : list Card) :
  length h = 5%nat -> exists r, get_hand_rank h = Ok r.
Proof.
  intros Hlen. unfold get_hand_rank.
  set (hand := sorted_desc Z.ltb value h).
  assert (Hvals : length (map value hand) = 5%nat).
  { subst hand. now rewrite length_map, sorted_desc_length. }
  destruct (value_counts_cases (map value hand)) as [(v & ->)|(c0 & c1 & r & ->)].
  - intros E. rewrite E in Hvals. discriminate.
  - rewrite Hvals, index_zero. cbn [rbind snd fst]. cbn [Z.eqb Z.of_nat Pos.of_succ_nat Pos.succ Pos.eqb].
    repeat match goal with
           | |- context [if ?c then _ else _] => destruct c
           end; eexists; reflexivity.
  - rewrite index_zero, index_one. cbn [rbind].
    repeat match goal with
           | |- context [if ?c then _ else _] => destruct c; cbn [rbind]
           end; eexists; reflexivity.
Qed.

Lemma combinations_spec {A} (l : list A) (k : nat) (c : list A) :
  In c (combinations l k) -> length c = k /\ forall x, In x c -> In x l.
Proof.
  revert k c; induction l as [|y l IH]; intros [|k] c; simpl.
  - intros [<-|[]]. split; [reflexivity|intros x []].
  - intros [].
  - intros [<-|[]]. split; [reflexivity|intros x []].
  - intros H. apply in_app_or in H. destruct H as [H|H].
    + apply in_map_iff in H. destruct H as (c' & <- & Hc').
      destruct (IH k c' Hc') as [H1 H2]. split; [simpl; now rewrite H1|].
      intros x [<-|Hx]; [now left|right; now apply H2].
    + destruct (IH (S k) c H) as [H1 H2]. split; [exact H1|].
      intros x Hx. right. now apply H2.
Qed.

Lemma present_some (cs : list (option Card)) :
  (forall x, In x cs -> x <> None) ->
  exists l, present cs = Ok l /\ length l = length cs.
Proof.
  induction cs as [|[c|] cs IH]; intros H.
  - exists []. split; reflexivity.
  - destruct IH as (l & Hl & Hlen); [intros; apply H; now right|].
    exists (c :: l). simpl. rewrite Hl. simpl. split; [reflexivity|now rewrite Hlen].
  - exfalso. now apply (H None (or_introl eq_refl)).
Qed.

Lemma present_ok_in (cs : list (option Card)) (l : list Card) :
  present cs = Ok l -> forall x, In x cs -> x <> None.
Proof.
  revert l; induction cs as [|[c|] cs IH]; intros l; simpl.
  - intros _ x [].
  - destruct (present cs) as [l'|]; cbn [rbind]; [|discriminate].
    intros _ x [<-|Hx]; [discriminate|]. now apply (IH l').
  - discriminate.
Qed.

Lemma evaluate_loop_total (hs : list (list (option Card))) (best : Z * list Card) :
  (forall h, In h hs -> length h = 5%nat /\ forall x, In x h -> x <> None) ->
  exists r, evaluate_loop hs best = Ok r.
Proof.
  revert best; induction hs as [|h hs IH]; intros best H; simpl.
  - now exists best.
  - destruct (H h (or_introl eq_refl)) as [Hlen Hsome].
    destruct (present_some h Hsome) as (cs & -> & Hcs). cbn [rbind].
    destruct (get_hand_rank_total cs) as [rk ->]; [congruence|]. cbn [rbind].
    apply IH. intros; apply H; now right.
Qed.

Lemma evaluate_hand_total (hand : list (option Card)) :
  (forall x, In x hand -> x <> None) -> exists r, evaluate_hand hand = Ok r.
Proof.
  intros H. apply evaluate_loop_total. intros h Hh.
  destruct (combinations_spec _ _ _ Hh) as [H1 H2]. split; [exact H1|].
  intros x Hx. apply H. now apply H2.
Qed.

Lemma rank_all_total (c : list (option Card)) (l : list (nat * Player)) :
  (forall kp x, In kp l -> In x (hand (snd kp) ++ c) -> x <> None) ->
  exists data, rank_all c l = Ok data.
Proof.
  induction l as [|[k p] l IH]; intros H; simpl.
  - now exists [].
  - destruct (evaluate_hand_total (hand p ++ c)) as [r ->].
    { intros x Hx. apply (H (k, p)); [now left|exact Hx]. }
    destruct IH as [rs ->]; [intros kp x Hkp; apply H; now right|].
    cbn [rbind]. eexists; reflexivity.
Qed.

(** With every card dealt, every contender's hand can be ranked. *)
Lemma showdown_ranks_exist (g : PokerGame) :
  cards_dealt g -> exists data, rank_all (community_cards g) (contenders g) = Ok data.
Proof.
  intros [Hhands [cc Hcc]]. apply rank_all_total.
  intros [k p] x Hkp Hx. cbn [snd] in Hx.
  unfold contenders, indexed in Hkp. apply filter_In in Hkp. destruct Hkp as [Hkp _].
  apply in_combine_r in Hkp. destruct (Hhands p Hkp) as [hc Hhc].
  apply in_app_or in Hx. destruct Hx as [Hx|Hx].
  - now apply (present_ok_in _ _ Hhc).
  - now apply (present_ok_in _ _ Hcc).
Qed.

(** * Further properties of the engine *)

(** ** The deck *)

(** X1. The deck [Deck.__init__] builds holds 52 cards, no card twice, and
    every suit-rank pair is among them. *)
Theorem fresh_deck_complete :
  length fresh_deck = 52%nat /\ NoDup fresh_deck /\ forall c : Card, In c fresh_deck.
Proof.
  split; [reflexivity|]. split.
  - replace fresh_deck with (nodup Card_eq_dec fresh_deck) by (vm_compute; reflexivity).
    apply NoDup_nodup.
  - intros [[] []]; vm_compute; tauto.
Qed.

(** X2. [Deck.deal] hands out the last card of the list and leaves the
    cards before it; an empty deck gives [None] and stays empty. *)
Theorem deal_pops_last (d : list Card) :
  match deal d with
  | (Some c, rest) => d = rest ++ [c]
  | (None, rest) => d = [] /\ rest = []
  end.
Proof.
  unfold deal. destruct (rev d) as [|c r] eqn:E.
  - assert (d = []) as -> by (rewrite <- (rev_involutive d), E; reflexivity).
    split; reflexivity.
  - rewrite <- (rev_involutive d), E. reflexivity.
Qed.

Lemma deal_snoc (d : list Card) (c : Card) : deal (d ++ [c]) = (Some c, d).
Proof.
  unfold deal. rewrite rev_app_distr. simpl. now rewrite rev_involutive.
Qed.

Lemma deal_nonempty (d : list Card) :
  (1 <= length d)%nat -> exists c r, d = r ++ [c] /\ deal d = (Some c, r).
Proof.
  intros H. pose proof (deal_pops_last d) as Hd.
  destruct (deal d) as [[c|] r] eqn:E.
  - exists c, r. split; [exact Hd|reflexivity].
  - destruct Hd as [-> _]. simpl in H. lia.
Qed.

(** Dealing the hole cards: two cards a seat, off the end of the deck. *)
Lemma deal_hands_spec (ps : list Player) (d : list Card) :
  (2 * length ps <= length d)%nat ->
  exists dealt,
    hole_cards (fst (deal_hands ps d)) = map Some dealt
    /\ d = snd (deal_hands ps d) ++ rev dealt
    /\ length dealt = (2 * length ps)%nat
    /\ Forall (fun p => length (hand p) = 2%nat) (fst (deal_hands ps d)).
Proof.
  revert d; induction ps as [|p r IH]; intros d H.
  - exists []. simpl. rewrite app_nil_r. repeat split. constructor.
  - cbn [length] in H. cbn [deal_hands].
    destruct (deal_nonempty d ltac:(lia)) as (c1 & d1 & Hd & ->).
    assert (Hl1 : length d = S (length d1)).
    { rewrite Hd, length_app. simpl. lia. }
    destruct (deal_nonempty d1 ltac:(lia)) as (c2 & d2 & Hd1 & ->).
    assert (Hl2 : length d1 = S (length d2)).
    { rewrite Hd1, length_app. simpl. lia. }
    destruct (IH d2 ltac:(lia)) as (dealt & H1 & H2 & H3 & H4).
    destruct (deal_hands r d2) as [r' d'] eqn:Er. cbn [fst snd] in *.
    exists (c1 :: c2 :: dealt). repeat split.
    + unfold hole_cards in *. cbn [flat_map]. rewrite H1. reflexivity.
    + rewrite Hd, Hd1, H2. cbn [rev]. now rewrite <- !app_assoc.
    + cbn [length]. lia.
    + constructor; [reflexivity|exact H4].
Qed.

(** ** Hand ranking *)

Lemma filter_split_perm {A} (f : A -> bool) (l : list A) :
  Permutation l (filter (fun x => negb (f x)) l ++ filter f l).
Proof.
  induction l as [|x r IH]; simpl; [constructor|].
  destruct (f x); simpl.
  - apply Permutation_cons_app. exact IH.
  - now constructor.
Qed.

(** X2. On five cards [get_hand_rank] never raises: it returns a category
    between 0 and 9 together with the same five cards in some order. *)
Theorem get_hand_rank_five (h : list Card) :
  length h = 5%nat ->
  exists category cards,
    get_hand_rank h = Ok (category, cards)
    /\ 0 <= category <= 9
    /\ Permutation h cards.
Proof.
  intros Hlen.
  destruct (get_hand_rank_total h Hlen) as [[category cards] Hr].
  exists category, cards. split; [exact Hr|].
  split; [exact (get_hand_rank_category h _ Hr)|].
  revert Hr. unfold get_hand_rank.
  set (hand := sorted_desc Z.ltb value h).
  assert (Hp : Permutation h hand) by apply sorted_desc_perm.
  assert (Hg1 : forall v, Permutation h (by_group1 v hand)).
  { intros v. etransitivity; [exact Hp|apply sorted_desc_perm]. }
  assert (Hg2 : forall v w, Permutation h (by_group2 v w hand)).
  { intros v w. etransitivity; [exact Hp|apply sorted_desc_perm]. }
  assert (Hw : Permutation h (filter (fun c => negb (value c =? 14)) hand
                              ++ filter (fun c => value c =? 14) hand)).
  { etransitivity; [exact Hp|apply filter_split_perm]. }
  repeat match goal with
         | |- context [if ?c then _ else _] => destruct c; cbn [rbind]
         | |- context [rbind ?r _] => destruct r; cbn [rbind]
         end;
    intros E; inversion E; subst; auto.
Qed.

Lemma get_hand_rank_five_witness :
  let h := [card Spade R2; card Heart R7; card Club R7; card Spade RK; card Heart R9] in
  length h = 5%nat
  /\ exists category cards,
       get_hand_rank h = Ok (category, cards)
       /\ 0 <= category <= 9
       /\ Permutation h cards.
Proof.
  split; [reflexivity|].
  exact (get_hand_rank_five
           [card Spade R2; card Heart R7; card Club R7; card Spade RK; card Heart R9]
           eq_refl).
Defined.

(** *** The rank does not depend on the order of the cards *)

Section SortKeys.
Context {A B K : Type} (ltb : K -> K -> bool) (f : A -> B) (key : B -> K).

Lemma map_insert_desc (x : A) (l : list A) :
  map f (insert_desc ltb (fun a => key (f a)) x l)
  = insert_desc ltb key (f x) (map f l).
Proof.
  induction l as [|y r IH]; simpl; [reflexivity|].
  destruct (ltb (key (f x)) (key (f y))); simpl; [now rewrite IH|reflexivity].
Qed.

Lemma map_sorted_desc (l : list A) :
  map f (sorted_desc ltb (fun a => key (f a)) l) = sorted_desc ltb key (map f l).
Proof.
  induction l as [|x r IH]; simpl; [reflexivity|].
  now rewrite map_insert_desc, IH.
Qed.
End SortKeys.

Section SortUnique.
Context {A K : Type} (ltb : K -> K -> bool) (key : A -> K).
Hypothesis ltb_asym' : forall a b, ltb a b = true -> ltb b a = false.
Hypothesis ltb_negtrans' :
  forall a b c, ltb a b = false -> ltb b c = false -> ltb a c = false.
Hypothesis key_apart :
  forall a b, ltb (key a) (key b) = false -> ltb (key b) (key a) = false -> a = b.

Lemma sorted_perm_eq (l l' : list A) :
  StronglySorted (not_below ltb key) l -> StronglySorted (not_below ltb key) l' ->
  Permutation l l' -> l = l'.
Proof.
  intros Hs. revert l'. induction Hs as [|a t Ht IH Ha]; intros l' Hs' Hp.
  - apply Permutation_nil in Hp. now subst.
  - destruct Hs' as [|b t' Ht' Hb].
    + apply Permutation_sym, Permutation_nil in Hp. discriminate.
    + assert (a = b) as <-.
      { assert (Hin1 : In a (b :: t')) by (apply (Permutation_in _ Hp); now left).
        assert (Hin2 : In b (a :: t))
          by (apply (Permutation_in _ (Permutation_sym Hp)); now left).
        destruct Hin1 as [->|Hin1]; [reflexivity|].
        destruct Hin2 as [->|Hin2]; [reflexivity|].
        rewrite Forall_forall in Ha, Hb.
        apply key_apart; [apply Ha, Hin2|apply Hb, Hin1]. }
      f_equal. apply IH; [exact Ht'|]. now apply Permutation_cons_inv in Hp.
Qed.

Lemma sorted_desc_perm_eq (l l' : list A) :
  Permutation l l' -> sorted_desc ltb key l = sorted_desc ltb key l'.
Proof.
  intros Hp. apply sorted_perm_eq.
  - now apply sorted_desc_sorted.
  - now apply sorted_desc_sorted.
  - etransitivity; [apply Permutation_sym, sorted_desc_perm|].
    etransitivity; [exact Hp|apply sorted_desc_perm].
Qed.
End SortUnique.

Lemma Zltb_asym (a b : Z) : (a <? b) = true -> (b <? a) = false.
Proof. rewrite Z.ltb_lt, Z.ltb_ge. lia. Qed.

Lemma Zltb_negtrans (a b c : Z) :
  (a <? b) = false -> (b <? c) = false -> (a <? c) = false.
Proof. rewrite !Z.ltb_ge. lia. Qed.

Lemma Zltb_apart (a b : Z) : (a <? b) = false -> (b <? a) = false -> a = b.
Proof. rewrite !Z.ltb_ge. lia. Qed.

Lemma bz_ltb_asym (a b : bool * Z) : bz_ltb a b = true -> bz_ltb b a = false.
Proof.
  destruct a as [[] x], b as [[] y]; unfold bz_ltb, pair_ltb, bool_ltb; cbn;
    rewrite ?Z.ltb_lt, ?Z.ltb_ge; try lia; try discriminate; reflexivity.
Qed.

Lemma bz_ltb_negtrans (a b c : bool * Z) :
  bz_ltb a b = false -> bz_ltb b c = false -> bz_ltb a c = false.
Proof.
  destruct a as [[] x], b as [[] y], c as [[] z];
    unfold bz_ltb, pair_ltb, bool_ltb; cbn;
    rewrite ?Z.ltb_lt, ?Z.ltb_ge; try lia; try discriminate; reflexivity.
Qed.

Lemma bz_ltb_apart (a b : bool * Z) :
  bz_ltb a b = false -> bz_ltb b a = false -> a = b.
Proof.
  destruct a as [[] x], b as [[] y]; unfold bz_ltb, pair_ltb, bool_ltb; cbn;
    rewrite ?Z.ltb_ge; try discriminate; intros; f_equal; lia.
Qed.

(** The values of the cards, highest first, whatever the order they came in. *)
Lemma sorted_values (h : list Card) :
  map value (sorted_desc Z.ltb value h) = values_desc h.
Proof. unfold values_desc. apply (map_sorted_desc Z.ltb value (fun v => v)). Qed.

Lemma values_desc_perm (h h' : list Card) :
  Permutation h h' -> values_desc h = values_desc h'.
Proof.
  intros Hp. unfold values_desc.
  apply (sorted_desc_perm_eq Z.ltb (fun v => v) Zltb_asym Zltb_negtrans Zltb_apart).
  now apply Permutation_map.
Qed.

Lemma nodup_length_perm {A} (dec : forall x y : A, {x = y} + {x <> y}) (l l' : list A) :
  Permutation l l' -> length (nodup dec l) = length (nodup dec l').
Proof.
  intros Hp. apply Permutation_length, NoDup_Permutation; try apply NoDup_nodup.
  intros x. rewrite !nodup_In. split; apply Permutation_in; [|apply Permutation_sym]; exact Hp.
Qed.

Lemma by_group1_values (v : Z) (hand : list Card) :
  map value (by_group1 v hand)
  = sorted_desc bz_ltb (fun x => (negb (x =? v), x)) (map value hand).
Proof.
  unfold by_group1.
  apply (map_sorted_desc bz_ltb value (fun x => (negb (x =? v), x))).
Qed.

Lemma by_group2_values (v w : Z) (hand : list Card) :
  map value (by_group2 v w hand)
  = sorted_desc bz_ltb (fun x => (negb (x =? v) && negb (x =? w), x)) (map value hand).
Proof.
  unfold by_group2.
  apply (map_sorted_desc bz_ltb value (fun x => (negb (x =? v) && negb (x =? w), x))).
Qed.

Lemma filter_values (f : Z -> bool) (hand : list Card) :
  map value (filter (fun c => f (value c)) hand) = filter f (map value hand).
Proof.
  induction hand as [|c r IH]; simpl; [reflexivity|].
  destruct (f (value c)); simpl; now rewrite IH.
Qed.

(** X3. The category and the values [get_hand_rank] returns do not depend
    on the order in which the cards are given. *)
Theorem get_hand_rank_order_free (h h' : list Card) :
  Permutation h h' ->
  rank_values (get_hand_rank h) = rank_values (get_hand_rank h').
Proof.
  intros Hp. unfold get_hand_rank.
  set (hand := sorted_desc Z.ltb value h).
  set (hand' := sorted_desc Z.ltb value h').
  assert (Hv : map value hand' = map value hand).
  { subst hand hand'. rewrite !sorted_values. symmetry. now apply values_desc_perm. }
  assert (Hs : length (nodup Suit_eq_dec (map suit hand'))
               = length (nodup Suit_eq_dec (map suit hand))).
  { apply nodup_length_perm, Permutation_map. subst hand hand'.
    etransitivity; [apply Permutation_sym, sorted_desc_perm|].
    etransitivity; [apply Permutation_sym, Hp|apply sorted_desc_perm]. }
  rewrite Hv, Hs.
  assert (H1 : forall v, map value (by_group1 v hand') = map value (by_group1 v hand)).
  { intros v. now rewrite !by_group1_values, Hv. }
  assert (H2 : forall v w, map value (by_group2 v w hand') = map value (by_group2 v w hand)).
  { intros v w. now rewrite !by_group2_values, Hv. }
  assert (H3 : forall f, map value (filter (fun c => f (value c)) hand')
                         = map value (filter (fun c => f (value c)) hand)).
  { intros f. now rewrite !filter_values, Hv. }
  repeat match goal with
         | |- context [if ?c then _ else _] => destruct c; cbn [rbind]
         | |- context [rbind ?r _] => destruct r; cbn [rbind]
         end;
    cbn [rank_values]; rewrite ?map_app, ?H1, ?H2, ?Hv;
    rewrite ?(H3 (fun v => negb (v =? 14))), ?(H3 (fun v => v =? 14));
    reflexivity.
Qed.

Lemma get_hand_rank_order_free_witness :
  let h := [card Spade R7; card Heart R7; card Diamond R3; card Club R4; card Spade RK] in
  let h' := [card Spade RK; card Diamond R3; card Heart R7; card Club R4; card Spade R7] in
  Permutation h h'
  /\ rank_values (get_hand_rank h) = rank_values (get_hand_rank h').
Proof.
  assert (Hp : Permutation
                 [card Spade R7; card Heart R7; card Diamond R3; card Club R4; card Spade RK]
                 [card Spade RK; card Diamond R3; card Heart R7; card Club R4; card Spade R7]).
  { apply (Permutation_trans (l' := [card Spade RK; card Spade R7; card Heart R7;
                                      card Diamond R3; card Club R4])).
    - apply Permutation_sym.
      apply (Permutation_cons_app [card Spade R7; card Heart R7; card Diamond R3;
                                   card Club R4] [] (card Spade RK)).
      rewrite app_nil_r. apply Permutation_refl.
    - apply perm_skip.
      apply (Permutation_cons_app [card Diamond R3; card Heart R7; card Club R4] []
               (card Spade R7)).
      rewrite app_nil_r. apply perm_swap. }
  split; [exact Hp|].
  exact (get_hand_rank_order_free _ _ Hp).
Defined.

(** *** Flushes *)

Lemma one_suit_iff (h : list Card) :
  (length (nodup Suit_eq_dec (map suit (sorted_desc Z.ltb value h))) =? 1)%nat = true
  <-> one_suit h.
Proof.
  assert (Hp : Permutation h (sorted_desc Z.ltb value h)) by apply sorted_desc_perm.
  rewrite <- (nodup_length_perm Suit_eq_dec _ _ (Permutation_map suit Hp)).
  rewrite Nat.eqb_eq. unfold one_suit. split.
  - intros H. split.
    + intros ->. discriminate.
    + intros c c' Hc Hc'.
      apply (proj1 (nodup_length_le1 Suit_eq_dec (map suit h))); [lia| |];
        now apply in_map.
  - intros [Hne Hall].
    assert (Hle : (length (nodup Suit_eq_dec (map suit h)) <= 1)%nat).
    { apply nodup_length_le1. intros x y Hx Hy.
      apply in_map_iff in Hx, Hy. destruct Hx as (c & <- & Hc), Hy as (c' & <- & Hc').
      now apply Hall. }
    destruct h as [|c r]; [congruence|].
    assert (In (suit c) (nodup Suit_eq_dec (map suit (c :: r))))
      by (apply nodup_In; now left).
    destruct (nodup Suit_eq_dec (map suit (c :: r))); [contradiction|simpl in *; lia].
Qed.

Lemma list_eqb_eq (x y : list Z) : list_eqb x y = true <-> x = y.
Proof. unfold list_eqb. destruct (list_eq_dec Z.eq_dec x y); split; congruence. Qed.

(** X4. Whatever [get_hand_rank] returns for cards of one suit is a flush
    or better (category 5 or more); the categories flush, straight flush
    and royal flush (5, 8, 9) are returned for cards of one suit only; and
    the royal flush is returned exactly for cards of one suit with the
    values ace, king, queen, jack, ten. *)
Theorem flush_categories (h : list Card) (category : Z) (cards : list Card) :
  get_hand_rank h = Ok (category, cards) ->
  (one_suit h -> 5 <= category)
  /\ (category = 5 \/ category = 8 \/ category = 9 -> one_suit h)
  /\ (category = 9 <-> one_suit h /\ values_desc h = [14; 13; 12; 11; 10]).
Proof.
  unfold get_hand_rank.
  pose proof (one_suit_iff h) as Hflush.
  rewrite (sorted_values h).
  set (hand := sorted_desc Z.ltb value h) in *.
  destruct (length (nodup Suit_eq_dec (map suit hand)) =? 1)%nat eqn:Ef.
  - assert (Hone : one_suit h) by now apply Hflush.
    pose proof (list_eqb_eq (values_desc h) broadway) as Hb.
    assert (Hbs : values_desc h = broadway ->
                  ((length (nodup Z.eq_dec (values_desc h)) =? 5)%nat
                   && (list_max (values_desc h) - list_min (values_desc h) =? 4)
                   || list_eqb (values_desc h) wheel) = true).
    { intros ->. reflexivity. }
    unfold broadway in *.
    repeat match goal with
           | |- context [if ?c then _ else _] => destruct c eqn:?; cbn [rbind negb]
           | |- context [rbind ?r _] => destruct r; cbn [rbind]
           end;
      intros E; inversion E; subst; clear E;
      (split; [intros _; lia|]); (split; [intros _; exact Hone|]);
      (split;
       [ intros Hc;
         first [ discriminate Hc
               | split; [exact Hone|]; apply Hb;
                 match goal with
                 | H : negb _ = false |- _ => apply negb_false_iff in H; exact H
                 end ]
       | intros [_ Hv];
         first [ reflexivity
               | exfalso;
                 match goal with
                 | H : negb _ = true |- _ =>
                     apply negb_true_iff in H; rewrite (proj2 Hb Hv) in H; discriminate
                 | H : _ && true = false |- _ =>
                     rewrite (Hbs Hv) in H; discriminate
                 end ] ]).
  - assert (Hnot : ~ one_suit h).
    { intros H. apply Hflush in H. congruence. }
    rewrite andb_false_r.
    repeat match goal with
           | |- context [if ?c then _ else _] => destruct c eqn:?; cbn [rbind negb]
           | |- context [rbind ?r _] => destruct r; cbn [rbind]
           end;
      intros E; inversion E; subst; clear E;
      (split; [intros H; contradiction|]);
      (split; [intros [H|[H|H]]; discriminate|]);
      (split; [discriminate|intros [H _]; contradiction]).
Qed.

Lemma flush_categories_witness :
  let h := [card Spade R10; card Spade RA; card Spade RQ; card Spade RK; card Spade RJ] in
  let cards := [card Spade RA; card Spade RK; card Spade RQ; card Spade RJ;
                card Spade R10] in
  get_hand_rank h = Ok (9, cards)
  /\ (one_suit h -> 5 <= 9)
  /\ (9 = 5 \/ 9 = 8 \/ 9 = 9 -> one_suit h)
  /\ (9 = 9 <-> one_suit h /\ values_desc h = [14; 13; 12; 11; 10]).
Proof.
  split; [reflexivity|].
  exact (flush_categories
           [card Spade R10; card Spade RA; card Spade RQ; card Spade RK; card Spade RJ]
           9
           [card Spade RA; card Spade RK; card Spade RQ; card Spade RJ; card Spade R10]
           eq_refl).
Defined.

(** *** [evaluate_hand] *)

Lemma combinations_short {A} (l : list A) (k : nat) :
  (length l < k)%nat -> combinations l k = [].
Proof.
  revert k; induction l as [|x r IH]; intros [|k] H; simpl in *; try lia; auto.
  rewrite (IH k), (IH (S k)) by lia. reflexivity.
Qed.

(** X5. With fewer than five cards there is nothing to rank:
    [evaluate_hand] returns its initial value, the category -1 with no
    cards, and reads none of the cards (a missing card does not raise). *)
Theorem evaluate_hand_short (hand : list (option Card)) :
  (length hand < 5)%nat -> evaluate_hand hand = Ok (-1, []).
Proof.
  intros H. unfold evaluate_hand. now rewrite combinations_short.
Qed.

Lemma evaluate_hand_short_witness :
  (length [Some (card Spade RA); None; Some (card Heart RK)] < 5)%nat
  /\ evaluate_hand [Some (card Spade RA); None; Some (card Heart RK)] = Ok (-1, []).
Proof.
  split; [simpl; lia|].
  apply (evaluate_hand_short [Some (card Spade RA); None; Some (card Heart RK)]).
  simpl; lia.
Defined.

Lemma better_key (rank best : Z * list Card) :
  better rank best = key_ltb (selection_key best) (selection_key rank).
Proof.
  unfold better, key_ltb, pair_ltb, selection_key. cbn [fst snd].
  now rewrite (Z.eqb_sym (fst rank) (fst best)).
Qed.

Lemma key_ltb_asym (a b : Z * list Z) : key_ltb a b = true -> key_ltb b a = false.
Proof. apply (ltb_asym key_ltb key_ltb_irrefl key_ltb_trans). Qed.

Lemma key_ltb_negtrans (a b c : Z * list Z) :
  key_ltb a b = false -> key_ltb b c = false -> key_ltb a c = false.
Proof. apply (ltb_negtrans key_ltb key_ltb_trans key_ltb_total). Qed.

(** The loop of [evaluate_hand] ends with a rank no hand of the list
    beats, which is the rank of one of them unless none beat the start. *)
Lemma evaluate_loop_best (hs : list (list (option Card))) (best r : Z * list Card) :
  evaluate_loop hs best = Ok r ->
  better best r = false
  /\ (r = best \/ exists h cs, In h hs /\ present h = Ok cs /\ get_hand_rank cs = Ok r)
  /\ (forall h cs r', In h hs -> present h = Ok cs -> get_hand_rank cs = Ok r' ->
                      better r' r = false).
Proof.
  revert best; induction hs as [|h hs IH]; intros best; cbn [evaluate_loop].
  - intros E. inversion E; subst. split; [|split].
    + rewrite better_key. apply key_ltb_irrefl.
    + now left.
    + intros h cs r' [].
  - destruct (present h) as [cs|] eqn:Ep; cbn [rbind]; [|discriminate].
    destruct (get_hand_rank cs) as [rank|] eqn:Er; cbn [rbind]; [|discriminate].
    intros E. destruct (IH _ E) as (H1 & H2 & H3). clear IH.
    destruct (better rank best) eqn:Eb; rewrite better_key in Eb, H1.
    + (* the new rank replaces the best so far *)
      split; [|split].
      * rewrite better_key.
        destruct (key_ltb (selection_key r) (selection_key best)) eqn:E1; [|reflexivity].
        pose proof (key_ltb_trans _ _ _ E1 Eb) as E2. congruence.
      * right. destruct H2 as [->|(h' & cs' & Hin & Hp & Hr)].
        -- exists h, cs. repeat split; [now left|exact Ep|exact Er].
        -- exists h', cs'. repeat split; [now right|exact Hp|exact Hr].
      * intros h' cs' r' [<-|Hin] Hp Hr.
        -- rewrite Ep in Hp. inversion Hp; subst. rewrite Er in Hr. inversion Hr; subst.
           rewrite better_key. exact H1.
        -- now apply (H3 h' cs').
    + split; [|split].
      * rewrite better_key. exact H1.
      * destruct H2 as [->|(h' & cs' & Hin & Hp & Hr)]; [now left|].
        right. exists h', cs'. repeat split; [now right|exact Hp|exact Hr].
      * intros h' cs' r' [<-|Hin] Hp Hr.
        -- rewrite Ep in Hp. inversion Hp; subst. rewrite Er in Hr. inversion Hr; subst.
           rewrite better_key.
           apply (key_ltb_negtrans _ (selection_key best)); assumption.
        -- now apply (H3 h' cs').
Qed.

Lemma combinations_nonempty {A} (l : list A) (k : nat) :
  (k <= length l)%nat -> combinations l k <> [].
Proof.
  revert k; induction l as [|x r IH]; intros [|k] H; simpl in *; try discriminate; try lia.
  intros E. apply app_eq_nil in E. destruct E as [E _].
  apply map_eq_nil in E. revert E. apply IH. lia.
Qed.

(** X6. When every card is there, [evaluate_hand] returns the rank of one
    of the five-card selections of the hand (given five cards at least),
    and no selection compares better: none has a higher category, or the
    same category and values that, sorted highest first, compare higher. *)
Theorem evaluate_hand_best (hand : list (option Card)) :
  (5 <= length hand)%nat ->
  (forall x, In x hand -> x <> None) ->
  exists r,
    evaluate_hand hand = Ok r
    /\ (exists h cs, In h (combinations hand 5) /\ present h = Ok cs
                     /\ get_hand_rank cs = Ok r)
    /\ (forall h cs r', In h (combinations hand 5) -> present h = Ok cs ->
                        get_hand_rank cs = Ok r' -> better r' r = false).
Proof.
  intros Hlen Hsome.
  destruct (evaluate_hand_total hand Hsome) as [r Hr].
  exists r. split; [exact Hr|].
  destruct (evaluate_loop_best _ _ _ Hr) as (_ & H2 & H3).
  split; [|exact H3].
  destruct H2 as [->|H2]; [|exact H2].
  (* the start value (-1, []) is beaten by the first selection *)
  exfalso.
  destruct (combinations hand 5) as [|h hs] eqn:Ec.
  - now apply (combinations_nonempty hand 5 Hlen).
  - assert (Hin : In h (combinations hand 5)) by (rewrite Ec; now left).
    destruct (combinations_spec _ _ _ Hin) as [Hl Hsub].
    destruct (present_some h) as (cs & Hp & Hcs); [intros x Hx; apply Hsome, Hsub, Hx|].
    destruct (get_hand_rank_total cs) as [r' Hr']; [congruence|].
    pose proof (H3 h cs r' (or_introl eq_refl) Hp Hr') as Hb.
    pose proof (get_hand_rank_category _ _ Hr') as Hc.
    unfold better in Hb. cbn [fst] in Hb.
    apply orb_false_iff in Hb. destruct Hb as [Hb _].
    apply Z.ltb_ge in Hb. lia.
Qed.

Lemma evaluate_hand_best_witness :
  let hand := map Some [card Spade RA; card Heart R2; card Diamond R3; card Club R4;
                        card Spade R9; card Heart R6; card Diamond RK] in
  (5 <= length hand)%nat
  /\ (forall x, In x hand -> x <> None)
  /\ exists r,
       evaluate_hand hand = Ok r
       /\ (exists h cs, In h (combinations hand 5) /\ present h = Ok cs
                        /\ get_hand_rank cs = Ok r)
       /\ (forall h cs r', In h (combinations hand 5) -> present h = Ok cs ->
                           get_hand_rank cs = Ok r' -> better r' r = false).
Proof.
  intros hand.
  assert (H1 : (5 <= length hand)%nat) by (simpl; lia).
  assert (H2 : forall x, In x hand -> x <> None).
  { intros x Hx. apply in_map_iff in Hx. destruct Hx as (c & <- & _). discriminate. }
  split; [exact H1|]. split; [exact H2|].
  exact (evaluate_hand_best hand H1 H2).
Defined.

(** ** Actions *)

(** The seats other than the actor's after an action: untouched, except
    that a raise takes back [has_acted] from those that can still act. *)
Lemma others_after (g : PokerGame) (k j : nat) (p : Player) (action : PyVal) (r : Z) :
  j <> k ->
  nth_error (players_after action r g k p) j
  = option_map (fun q => if is_raise action && live q then set_has_acted false q else q)
      (nth_error (players g) j).
Proof.
  intros Hj. unfold players_after.
  rewrite nth_error_update_nth_neq by exact Hj.
  destruct (is_raise action); cbn [andb].
  - unfold reopen. rewrite nth_error_map_seats. cbn [Nat.add].
    rewrite nth_error_update_nth_neq by exact Hj.
    destruct (nth_error (players g) j) as [q|]; cbn [option_map]; [|reflexivity].
    destruct (j =? k)%nat eqn:E; [apply Nat.eqb_eq in E; contradiction|].
    reflexivity.
  - rewrite nth_error_update_nth_neq by exact Hj.
    destruct (nth_error (players g) j); reflexivity.
Qed.

(** X7. No action moves chips between seats or into the pot: what leaves
    the actor's stack is added to the actor's bet, the pot stays as it is,
    and no other seat's stack or bet changes. *)
Theorem action_moves_chips_to_own_bet (g : PokerGame) (k : nat) (p : Player)
    (action amount : PyVal) (requested : Z) :
  position (length (players g)) (current_player_index g) = Some k ->
  nth_error (players g) k = Some p ->
  (is_raise action = true -> amount = PyInt requested) ->
  exists g' p',
    handle_action action amount g = Done tt g'
    /\ nth_error (players g') k = Some p'
    /\ chips p' + bet p' = chips p + bet p
    /\ pot g' = pot g
    /\ (forall j q, j <> k -> nth_error (players g) j = Some q ->
          exists q', nth_error (players g') j = Some q'
                     /\ chips q' = chips q /\ bet q' = bet q)
    /\ sum_chips (players g') + sum_bets (players g')
       = sum_chips (players g) + sum_bets (players g).
Proof.
  intros Hk Hp Ha.
  destruct (handle_action_effect g k p action amount requested Hk Hp Ha)
    as (g' & Hrun & Hps & _ & _ & Hfr).
  exists g', (set_has_acted true (seat_after action requested g p)).
  split; [exact Hrun|].
  split; [rewrite Hps; now apply actor_after|].
  split; [apply seat_after_conserves|].
  split; [apply Hfr|].
  split.
  - intros j q Hj Hq. rewrite Hps, (others_after g k j p action requested Hj), Hq.
    cbn [option_map]. eexists. split; [reflexivity|].
    destruct (is_raise action && live q); split; reflexivity.
  - pose proof (players_after_sum chips action requested g k p
                  (fun _ _ => eq_refl) Hp) as H1.
    pose proof (players_after_sum bet action requested g k p
                  (fun _ _ => eq_refl) Hp) as H2.
    pose proof (seat_after_conserves action requested g p) as H3.
    rewrite Hps. unfold sum_of, sum_chips, sum_bets in *. lia.
Qed.

Lemma action_moves_chips_to_own_bet_witness :
  let actor := seat_with "A" 1000 0 in
  let g := table_of [actor; seat_with "B" 990 10; seat_with "C" 980 20] 20 in
  position (length (players g)) (current_player_index g) = Some 0%nat
  /\ nth_error (players g) 0 = Some actor
  /\ (is_raise (PyStr "call") = true -> PyInt 0 = PyInt 0)
  /\ exists g' p',
       handle_action (PyStr "call") (PyInt 0) g = Done tt g'
       /\ nth_error (players g') 0 = Some p'
       /\ chips p' + bet p' = chips actor + bet actor
       /\ pot g' = pot g
       /\ (forall j q, j <> 0%nat -> nth_error (players g) j = Some q ->
             exists q', nth_error (players g') j = Some q'
                        /\ chips q' = chips q /\ bet q' = bet q)
       /\ sum_chips (players g') + sum_bets (players g')
          = sum_chips (players g) + sum_bets (players g).
Proof.
  intros actor g.
  split; [reflexivity|]. split; [reflexivity|]. split; [reflexivity|].
  exact (action_moves_chips_to_own_bet g 0%nat actor (PyStr "call") (PyInt 0) 0
           eq_refl eq_refl (fun _ => eq_refl)).
Defined.

(** X8. A call brings the actor's bet up to the table's current bet when
    the stack covers the difference, and puts the whole stack in otherwise,
    marking the seat all-in; either way the seat has acted and the current
    bet stays. A seat that owes nothing or less (its bet is the current bet
    or above) is covered: its bet becomes the current bet. *)
Theorem call_matches_or_goes_all_in (g : PokerGame) (k : nat) (p : Player)
    (amount : PyVal) :
  position (length (players g)) (current_player_index g) = Some k ->
  nth_error (players g) k = Some p ->
  let owed := current_bet g - bet p in
  exists g' p',
    handle_action (PyStr "call") amount g = Done tt g'
    /\ nth_error (players g') k = Some p'
    /\ has_acted p' = true
    /\ is_folded p' = is_folded p
    /\ current_bet g' = current_bet g
    /\ (owed < chips p ->
        bet p' = current_bet g /\ chips p' = chips p - owed
        /\ is_all_in p' = is_all_in p)
    /\ (chips p <= owed ->
        bet p' = bet p + chips p /\ chips p' = 0 /\ is_all_in p' = true).
Proof.
  intros Hk Hp owed.
  destruct (handle_action_effect g k p (PyStr "call") amount 0 Hk Hp)
    as (g' & Hrun & Hps & Hcb & _ & _); [discriminate|].
  exists g', (set_has_acted true (seat_after (PyStr "call") 0 g p)).
  split; [exact Hrun|].
  split; [rewrite Hps; now apply actor_after|].
  split; [reflexivity|].
  change (is_raise (PyStr "call")) with false in Hcb. cbv iota in Hcb.
  unfold seat_after. cbn [is_str String.eqb Ascii.eqb Bool.eqb]. fold owed.
  destruct (chips p <=? owed) eqn:E.
  - apply Z.leb_le in E. cbn. repeat split; try assumption; try lia.
  - apply Z.leb_gt in E. cbn. repeat split; try assumption; try lia.
Qed.

Lemma call_matches_or_goes_all_in_witness :
  let p := seat_with "A" 15 0 in
  let g := table_of [p; seat_with "B" 990 10; seat_with "C" 980 20] 20 in
  position (length (players g)) (current_player_index g) = Some 0%nat
  /\ nth_error (players g) 0 = Some p
  /\ exists g' p',
       handle_action (PyStr "call") (PyInt 0) g = Done tt g'
       /\ nth_error (players g') 0 = Some p'
       /\ has_acted p' = true
       /\ is_folded p' = is_folded p
       /\ current_bet g' = current_bet g
       /\ (20 - 0 < 15 ->
           bet p' = current_bet g /\ chips p' = chips p - (20 - 0)
           /\ is_all_in p' = is_all_in p)
       /\ (15 <= 20 - 0 ->
           bet p' = bet p + chips p /\ chips p' = 0 /\ is_all_in p' = true).
Proof.
  intros p g. split; [reflexivity|]. split; [reflexivity|].
  exact (call_matches_or_goes_all_in g 0%nat p (PyInt 0) eq_refl eq_refl).
Defined.

(** X9. A raise re-opens the betting: every other seat that is neither
    folded nor all-in loses its [has_acted] mark, the seats that are folded
    or all-in keep theirs, the raiser is marked as having acted, and
    nothing else of the other seats changes. *)
Theorem raise_reopens_betting (g : PokerGame) (k : nat) (p : Player) (requested : Z) :
  position (length (players g)) (current_player_index g) = Some k ->
  nth_error (players g) k = Some p ->
  exists g' p',
    handle_action (PyStr "raise") (PyInt requested) g = Done tt g'
    /\ length (players g') = length (players g)
    /\ nth_error (players g') k = Some p'
    /\ has_acted p' = true
    /\ (forall j q, j <> k -> nth_error (players g) j = Some q ->
          nth_error (players g') j
          = Some (if live q then set_has_acted false q else q)).
Proof.
  intros Hk Hp.
  destruct (handle_action_effect g k p (PyStr "raise") (PyInt requested) requested
              Hk Hp (fun _ => eq_refl)) as (g' & Hrun & Hps & _).
  exists g', (set_has_acted true (seat_after (PyStr "raise") requested g p)).
  split; [exact Hrun|].
  split.
  { rewrite Hps. unfold players_after. rewrite update_nth_length.
    change (is_raise (PyStr "raise")) with true. cbv iota.
    unfold reopen. now rewrite map_seats_length, update_nth_length. }
  split; [rewrite Hps; now apply actor_after|].
  split; [reflexivity|].
  intros j q Hj Hq.
  rewrite Hps, (others_after g k j p (PyStr "raise") requested Hj), Hq.
  reflexivity.
Qed.

Lemma raise_reopens_betting_witness :
  let p := seat_with "A" 1000 0 in
  let g := table_of [p; set_has_acted true (seat_with "B" 990 10);
                     set_is_folded true (set_has_acted true (seat_with "C" 980 20))] 20 in
  position (length (players g)) (current_player_index g) = Some 0%nat
  /\ nth_error (players g) 0 = Some p
  /\ exists g' p',
       handle_action (PyStr "raise") (PyInt 60) g = Done tt g'
       /\ length (players g') = length (players g)
       /\ nth_error (players g') 0 = Some p'
       /\ has_acted p' = true
       /\ (forall j q, j <> 0%nat -> nth_error (players g) j = Some q ->
             nth_error (players g') j
             = Some (if live q then set_has_acted false q else q)).
Proof.
  intros p g. split; [reflexivity|]. split; [reflexivity|].
  exact (raise_reopens_betting g 0%nat p 60 eq_refl eq_refl).
Defined.

(** ** The routes and bad requests *)

(** X10. A submission whose action is none of "fold", "check", "call",
    "raise" (a body without the key "action" among them) is not refused:
    it uses up the human's turn. The seat is marked as having acted,
    nothing is wagered, the turn passes to the next seat and the loop
    resumes; the route answers with success. *)
Theorem unknown_action_uses_the_turn (g : PokerGame) (action amount : option PyVal)
    (env : list Answer) (k : nat) (p : Player) :
  human_action_needed g = true ->
  position (length (players g)) (current_player_index g) = Some k ->
  nth_error (players g) k = Some p ->
  let a := default PyNone action in
  is_str a "fold" = false -> is_str a "check" = false ->
  is_str a "call" = false -> is_str a "raise" = false ->
  exists g1,
    player_action_route action amount env (Some g)
    = (Success, Some (table_after (process_turn env g1)))
    /\ players g1 = update_nth k (set_has_acted true) (players g)
    /\ pot g1 = pot g
    /\ current_bet g1 = current_bet g
    /\ current_player_index g1 = (current_player_index g + 1) mod n_players g
    /\ human_action_needed g1 = false.
Proof.
  intros Hh Hk Hp a Hf Hc Hl Hr.
  set (cleared := set_human_action_needed false g).
  destruct (handle_action_effect cleared k p a (default (PyInt 0) amount) 0 Hk Hp)
    as (g1 & Hrun & Hps & Hcb & Hix & Hfr).
  { unfold is_raise. rewrite Hr, andb_false_r. discriminate. }
  exists g1.
  unfold players_after, seat_after, is_raise in Hps, Hcb.
  rewrite Hf, Hc, Hl, Hr in Hps, Hcb. cbn [negb andb] in Hps, Hcb.
  change (players cleared) with (players g) in Hps.
  rewrite (update_nth_same _ _ _ Hp) in Hps.
  split.
  - unfold player_action_route, handle_human_action. rewrite Hh. cbn [negb].
    cbv beta iota delta [bind ret get modify]. repeat (rewrite Hh; cbn [negb]).
    fold cleared. fold a. rewrite Hrun. reflexivity.
  - split; [exact Hps|]. split; [apply Hfr|]. split; [exact Hcb|].
    split; [exact Hix|].
    transitivity (human_action_needed cleared); [apply Hfr|reflexivity].
Qed.

Lemma unknown_action_uses_the_turn_witness :
  let p := seat_with "You" 1000 0 in
  let g := set_human_action_needed true
             (table_of [p; seat_with "B" 990 10; seat_with "C" 980 20] 20) in
  human_action_needed g = true
  /\ position (length (players g)) (current_player_index g) = Some 0%nat
  /\ nth_error (players g) 0 = Some p
  /\ exists g1,
       player_action_route None None [] (Some g)
       = (Success, Some (table_after (process_turn [] g1)))
       /\ players g1 = update_nth 0 (set_has_acted true) (players g)
       /\ pot g1 = pot g
       /\ current_bet g1 = current_bet g
       /\ current_player_index g1 = (current_player_index g + 1) mod n_players g
       /\ human_action_needed g1 = false.
Proof.
  intros p g. split; [reflexivity|]. split; [reflexivity|]. split; [reflexivity|].
  exact (unknown_action_uses_the_turn g None None [] 0%nat p eq_refl eq_refl eq_refl
           eq_refl eq_refl eq_refl eq_refl).
Defined.

(** X11. A human raise whose amount is no number stalls the table for
    good: the turn flag is cleared before [handle_action] raises its
    TypeError, so the route fails and the table is left with a hand in
    progress that waits for nobody; from then on every submitted action
    and every request for the next round is refused and changes nothing. *)
Theorem bad_raise_amount_stalls_the_table (g : PokerGame) (amount : PyVal)
    (env : list Answer) (k : nat) (p : Player) :
  human_action_needed g = true ->
  game_in_progress g = true ->
  position (length (players g)) (current_player_index g) = Some k ->
  nth_error (players g) k = Some p ->
  is_int amount = false ->
  let stalled := Some (set_human_action_needed false g) in
  player_action_route (Some (PyStr "raise")) (Some amount) env (Some g)
  = (Error500 TypeError, stalled)
  /\ (forall a amt env', player_action_route a amt env' stalled = (Error400, stalled))
  /\ (forall d env', next_round_route d env' stalled = (Error400, stalled)).
Proof.
  intros Hh Hp' Hk Hp Hi stalled.
  split; [|split].
  - unfold player_action_route, handle_human_action. rewrite Hh. cbn [negb].
    cbv beta iota delta [bind ret get modify]. repeat (rewrite Hh; cbn [negb]).
    cbn [default].
    rewrite (handle_action_bad_amount (set_human_action_needed false g) k p
               (PyStr "raise") amount Hk Hp eq_refl Hi).
    reflexivity.
  - intros a amt env'. reflexivity.
  - intros d env'. unfold stalled, next_round_route.
    cbn [game_in_progress set_human_action_needed]. now rewrite Hp'.
Qed.

Lemma bad_raise_amount_stalls_the_table_witness :
  let p := seat_with "You" 1000 0 in
  let g := set_human_action_needed true
             (table_of [p; seat_with "B" 990 10; seat_with "C" 980 20] 20) in
  let stalled := Some (set_human_action_needed false g) in
  human_action_needed g = true
  /\ game_in_progress g = true
  /\ position (length (players g)) (current_player_index g) = Some 0%nat
  /\ nth_error (players g) 0 = Some p
  /\ is_int (PyStr "forty") = false
  /\ player_action_route (Some (PyStr "raise")) (Some (PyStr "forty")) [] (Some g)
     = (Error500 TypeError, stalled)
  /\ (forall a amt env', player_action_route a amt env' stalled = (Error400, stalled))
  /\ (forall d env', next_round_route d env' stalled = (Error400, stalled)).
Proof.
  intros p g stalled.
  split; [reflexivity|]. split; [reflexivity|]. split; [reflexivity|].
  split; [reflexivity|]. split; [reflexivity|].
  exact (bad_raise_amount_stalls_the_table g (PyStr "forty") [] 0%nat p
           eq_refl eq_refl eq_refl eq_refl eq_refl).
Defined.

(** ** Settling a hand without a showdown *)

Lemma filter_none {A} (f : A -> bool) (l : list A) :
  (forall x, In x l -> f x = false) -> filter f l = [].
Proof.
  induction l as [|x r IH]; intros H; simpl; [reflexivity|].
  rewrite (H x (or_introl eq_refl)). apply IH. intros; apply H; now right.
Qed.

(** The only seat that has not folded, with its number. *)
Lemma single_contender (i k : nat) (ps : list Player) (w : Player) :
  nth_error ps k = Some w ->
  is_folded w = false ->
  (forall j q, j <> k -> nth_error ps j = Some q -> is_folded q = true) ->
  filter (fun kp => negb (is_folded (snd kp))) (combine (seq i (length ps)) ps)
  = [((i + k)%nat, w)].
Proof.
  revert i k; induction ps as [|p r IH]; intros i [|k] Hw Hf Hothers;
    try discriminate.
  - cbn in Hw. inversion Hw; subst p. cbn [length seq combine filter snd].
    rewrite Hf. cbn [negb]. rewrite Nat.add_0_r. f_equal.
    apply filter_none. intros [j q] Hin. cbn [snd].
    apply in_combine_r in Hin. apply In_nth_error in Hin. destruct Hin as [n Hn].
    rewrite (Hothers (S n) q); [reflexivity|discriminate|exact Hn].
  - cbn in Hw. cbn [length seq combine filter snd].
    rewrite (Hothers 0%nat p); [|discriminate|reflexivity]. cbn [negb].
    rewrite (IH (S i) k Hw Hf).
    + f_equal. f_equal. lia.
    + intros j q Hj Hq. apply (Hothers (S j) q); [lia|exact Hq].
Qed.

(** X12. When all seats but one have folded, [end_round] gives that seat
    the pot together with every bet still on the table, whatever cards it
    holds (none is read): the bets are zeroed, every hand is turned face
    up, the hand is over, and the pot keeps showing the amount paid. *)
Theorem last_seat_takes_the_pot (g : PokerGame) (k : nat) (w : Player) :
  nth_error (players g) k = Some w ->
  is_folded w = false ->
  (forall j q, j <> k -> nth_error (players g) j = Some q -> is_folded q = true) ->
  let stake := pot g + sum_bets (players g) in
  exists g',
    end_round g = Done tt g'
    /\ pot g' = stake
    /\ game_in_progress g' = false
    /\ players g'
       = update_nth k (fun p => set_chips (chips p + stake) p)
           (map (set_show_hand true) (map (set_bet 0) (players g)))
    /\ (exists w', nth_error (players g') k = Some w' /\ chips w' = chips w + stake)
    /\ sum_chips (players g') = sum_chips (players g) + stake
    /\ In (MsgWinsPot (name w) stake) (log_messages g').
Proof.
  intros Hw Hf Hothers stake.
  pose proof (single_contender 0 k (players g) w Hw Hf Hothers) as Hc.
  cbn [Nat.add] in Hc.
  unfold end_round. mred. proj.
  rewrite !(contenders_map (set_bet 0)) by reflexivity.
  unfold indexed. rewrite Hc. cbn [map length Nat.eqb fst snd].
  unfold index. cbn [length]. rewrite position_zero. cbn [nth_error]. mred. proj.
  cbn [fst snd name set_bet]. fold stake.
  eexists. split; [reflexivity|]. proj.
  split; [reflexivity|]. split; [reflexivity|]. split; [reflexivity|].
  split; [|split].
  - rewrite nth_error_update_nth_eq, !nth_error_map, Hw. cbn [option_map].
    eexists. split; reflexivity.
  - rewrite sum_chips_is_sum_of.
    rewrite (sum_of_update_nth chips k _ _ (set_show_hand true (set_bet 0 w)))
      by (rewrite !nth_error_map, Hw; reflexivity).
    cbn [chips set_chips set_show_hand set_bet].
    rewrite <- sum_chips_is_sum_of.
    rewrite !sum_chips_map_same by reflexivity. lia.
  - rewrite !in_app_iff. left. right. now left.
Qed.

Lemma last_seat_takes_the_pot_witness :
  let w := seat_with "A" 960 40 in
  let g := set_pot 30
             (table_of [w; set_is_folded true (seat_with "B" 990 10);
                        set_is_folded true (seat_with "C" 980 20)] 40) in
  nth_error (players g) 0 = Some w
  /\ is_folded w = false
  /\ (forall j q, j <> 0%nat -> nth_error (players g) j = Some q -> is_folded q = true)
  /\ exists g',
       end_round g = Done tt g'
       /\ pot g' = 100
       /\ game_in_progress g' = false
       /\ players g'
          = update_nth 0 (fun p => set_chips (chips p + 100) p)
              (map (set_show_hand true) (map (set_bet 0) (players g)))
       /\ (exists w', nth_error (players g') 0 = Some w' /\ chips w' = chips w + 100)
       /\ sum_chips (players g') = sum_chips (players g) + 100
       /\ In (MsgWinsPot (name w) 100) (log_messages g').
Proof.
  intros w g.
  assert (H : forall j q, j <> 0%nat -> nth_error (players g) j = Some q ->
                          is_folded q = true).
  { intros [|[|[|j]]] q Hj Hq; try congruence; cbn in Hq.
    - now inversion Hq.
    - now inversion Hq.
    - destruct j; discriminate. }
  split; [reflexivity|]. split; [reflexivity|]. split; [exact H|].
  exact (last_seat_takes_the_pot g 0%nat w eq_refl eq_refl H).
Defined.

(** ** Opening a betting round after the flop *)

Lemma set_current_player_index_same (g : PokerGame) :
  set_current_player_index (current_player_index g) g = g.
Proof. now destruct g. Qed.

Lemma position_in_range (n : nat) (i : Z) :
  0 <= i < Z.of_nat n -> position n i = Some (Z.to_nat i).
Proof.
  intros [H1 H2]. unfold position.
  apply Z.leb_le in H1. apply Z.ltb_lt in H2. now rewrite H1, H2.
Qed.

(** The search of [process_betting_round] stops at the first seat, from
    the one it starts at, that is neither folded nor all-in. *)
Lemma seek_live_finds (fuel d : nat) :
  forall (g : PokerGame) (p : Player),
  0 <= current_player_index g < n_players g ->
  (d <= fuel)%nat ->
  seat_at (players g) (current_player_index g + Z.of_nat d) = Some p ->
  live p = true ->
  (forall d' q, (d' < d)%nat ->
     seat_at (players g) (current_player_index g + Z.of_nat d') = Some q ->
     live q = false) ->
  seek_live fuel g
  = Done tt (set_current_player_index
               ((current_player_index g + Z.of_nat d) mod n_players g) g).
Proof.
  revert fuel; induction d as [|d IH]; intros fuel g p Hr Hd Hp Hl Hfirst.
  - rewrite Z.add_0_r in *. unfold seat_at in Hp. unfold n_players in *.
    rewrite Z.mod_small in * by lia. rewrite set_current_player_index_same.
    destruct fuel; cbn [seek_live]; mred;
      rewrite (position_in_range _ _ Hr); mred; rewrite Hp;
      unfold live in Hl; apply andb_true_iff in Hl; destruct Hl as [H1 H2];
      apply negb_true_iff in H1, H2; rewrite H1, H2; reflexivity.
  - destruct fuel as [|fuel]; [lia|].
    unfold n_players in *.
    destruct (nth_error_lt (players g) (Z.to_nat (current_player_index g)) ltac:(lia))
      as [q Hq].
    assert (Hq' : live q = false).
    { apply (Hfirst 0%nat q); [lia|]. unfold seat_at.
      rewrite Z.add_0_r, Z.mod_small by lia. exact Hq. }
    cbn [seek_live]. mred. rewrite (position_in_range _ _ Hr). mred. rewrite Hq.
    replace (is_folded q || is_all_in q) with true
      by (unfold live in Hq'; destruct (is_folded q), (is_all_in q); cbn in *; congruence).
    unfold modulo, n_players.
    destruct (Z.of_nat (length (players g)) =? 0) eqn:E0; [apply Z.eqb_eq in E0; lia|].
    mred. proj.
    set (n := Z.of_nat (length (players g))) in *.
    set (g1 := set_current_player_index ((current_player_index g + 1) mod n) g).
    assert (H1 : 0 <= (current_player_index g + 1) mod n < n)
      by (apply Z.mod_pos_bound; lia).
    assert (Hshift : forall x : nat,
              seat_at (players g1) (current_player_index g1 + Z.of_nat x)
              = seat_at (players g) (current_player_index g + Z.of_nat (S x))).
    { intros x. unfold seat_at, g1. proj. fold n. f_equal. f_equal.
      rewrite Zplus_mod_idemp_l. f_equal. lia. }
    rewrite (IH fuel g1 p).
    + unfold g1. proj. fold n. f_equal.
      rewrite Zplus_mod_idemp_l.
      replace (current_player_index g + 1 + Z.of_nat d)
        with (current_player_index g + Z.of_nat (S d)) by lia.
      now destruct g.
    + exact H1.
    + lia.
    + rewrite Hshift. exact Hp.
    + exact Hl.
    + intros d' q' Hd' Hq''. rewrite Hshift in Hq''.
      apply (Hfirst (S d') q'); [lia|exact Hq''].
Qed.

(** With no seat that can act the search goes round the table for ever:
    no number of steps ends it. *)
Lemma seek_live_never_ends (fuel : nat) :
  forall g : PokerGame,
  0 <= current_player_index g < n_players g ->
  (forall p, In p (players g) -> live p = false) ->
  exists i, 0 <= i < n_players g
            /\ seek_live fuel g = Running (set_current_player_index i g).
Proof.
  induction fuel as [|fuel IH]; intros g Hr Hnone; unfold n_players in *.
  - destruct (nth_error_lt (players g) (Z.to_nat (current_player_index g)) ltac:(lia))
      as [q Hq].
    pose proof (Hnone q (nth_error_In _ _ Hq)) as Hq'.
    cbn [seek_live]. mred. rewrite (position_in_range _ _ Hr). mred. rewrite Hq.
    replace (is_folded q || is_all_in q) with true
      by (unfold live in Hq'; destruct (is_folded q), (is_all_in q); cbn in *; congruence).
    exists (current_player_index g). split; [exact Hr|].
    now rewrite set_current_player_index_same.
  - destruct (nth_error_lt (players g) (Z.to_nat (current_player_index g)) ltac:(lia))
      as [q Hq].
    pose proof (Hnone q (nth_error_In _ _ Hq)) as Hq'.
    cbn [seek_live]. mred. rewrite (position_in_range _ _ Hr). mred. rewrite Hq.
    replace (is_folded q || is_all_in q) with true
      by (unfold live in Hq'; destruct (is_folded q), (is_all_in q); cbn in *; congruence).
    unfold modulo, n_players.
    destruct (Z.of_nat (length (players g)) =? 0) eqn:E0; [apply Z.eqb_eq in E0; lia|].
    mred. proj.
    set (g1 := set_current_player_index
                 ((current_player_index g + 1) mod Z.of_nat (length (players g))) g).
    destruct (IH g1) as (i & Hir & Hi).
    + unfold g1, n_players. proj. apply Z.mod_pos_bound. lia.
    + exact Hnone.
    + exists i. split; [exact Hir|]. rewrite Hi. unfold g1. now destruct g.
Qed.



(** ** The board *)

Lemma deal_one_some (g : PokerGame) (c : Card) (r : list Card) :
  deck g = r ++ [c] -> deal_one g = Done (Some c) (set_deck r g).
Proof.
  intros H. unfold deal_one. mred. rewrite H, deal_snoc. reflexivity.
Qed.

Lemma split_last {A} (l : list A) :
  (1 <= length l)%nat -> exists r x, l = r ++ [x] /\ length l = S (length r).
Proof.
  intros H. destruct (exists_last (l := l)) as (r & x & ->).
  - intros ->. simpl in H. lia.
  - exists r, x. split; [reflexivity|]. rewrite length_app. simpl. lia.
Qed.

(** X14. The community cards come off the end of the deck: entering the
    flop takes its last three cards, entering the turn or the river the
    last one, each appended to the board in the order dealt; the seats, the
    pot and the turn order are not touched. *)
Theorem board_comes_off_the_deck (g : PokerGame) (s : Stage) :
  next_stage (game_stage g) = Ok s ->
  s <> Showdown ->
  (dealt_on s <= length (deck g))%nat ->
  exists g1 dealt,
    advance_stage g = Done s g1
    /\ length dealt = dealt_on s
    /\ deck g = deck g1 ++ rev dealt
    /\ community_cards g1 = community_cards g ++ map Some dealt
    /\ game_stage g1 = s
    /\ players g1 = players g /\ pot g1 = pot g
    /\ current_bet g1 = current_bet g
    /\ current_player_index g1 = current_player_index g
    /\ small_blind_index g1 = small_blind_index g
    /\ game_in_progress g1 = game_in_progress g
    /\ human_action_needed g1 = human_action_needed g.
Proof.
  intros Hnext Hs Hdeck. unfold advance_stage. mred. rewrite Hnext. mred. proj.
  destruct s; cbn [dealt_on] in Hdeck.
  - destruct (game_stage g); discriminate.
  - destruct (split_last (deck g) ltac:(lia)) as (d1 & c1 & E1 & L1).
    destruct (split_last d1 ltac:(lia)) as (d2 & c2 & E2 & L2).
    destruct (split_last d2 ltac:(lia)) as (d3 & c3 & E3 & L3).
    rewrite (deal_one_some _ c1 d1) by (proj; exact E1). mred.
    rewrite (deal_one_some _ c2 d2) by (proj; exact E2). mred.
    rewrite (deal_one_some _ c3 d3) by (proj; exact E3). mred. proj.
    eexists. exists [c1; c2; c3]. split; [reflexivity|]. proj.
    repeat split. rewrite E1, E2, E3. cbn [rev app]. now rewrite <- !app_assoc.
  - destruct (split_last (deck g) ltac:(lia)) as (d1 & c1 & E1 & L1).
    rewrite (deal_one_some _ c1 d1) by (proj; exact E1). mred. proj.
    eexists. exists [c1]. split; [reflexivity|]. proj.
    repeat split. exact E1.
  - destruct (split_last (deck g) ltac:(lia)) as (d1 & c1 & E1 & L1).
    rewrite (deal_one_some _ c1 d1) by (proj; exact E1). mred. proj.
    eexists. exists [c1]. split; [reflexivity|]. proj.
    repeat split. exact E1.
  - congruence.
Qed.

Lemma board_comes_off_the_deck_witness :
  let g := set_deck fresh_deck (table_of [seat_with "A" 980 0; seat_with "B" 980 0] 0) in
  next_stage (game_stage g) = Ok Flop
  /\ Flop <> Showdown
  /\ (dealt_on Flop <= length (deck g))%nat
  /\ exists g1 dealt,
       advance_stage g = Done Flop g1
       /\ length dealt = dealt_on Flop
       /\ deck g = deck g1 ++ rev dealt
       /\ community_cards g1 = community_cards g ++ map Some dealt
       /\ game_stage g1 = Flop
       /\ players g1 = players g /\ pot g1 = pot g
       /\ current_bet g1 = current_bet g
       /\ current_player_index g1 = current_player_index g
       /\ small_blind_index g1 = small_blind_index g
       /\ game_in_progress g1 = game_in_progress g
       /\ human_action_needed g1 = human_action_needed g.
Proof.
  intros g.
  assert (H2 : Flop <> Showdown) by discriminate.
  assert (H3 : (dealt_on Flop <= length (deck g))%nat) by (vm_compute; lia).
  split; [reflexivity|]. split; [exact H2|]. split; [exact H3|].
  exact (board_comes_off_the_deck g Flop eq_refl H2 H3).
Defined.

(** ** When nobody is left to act *)

Lemma present_app (a b : list (option Card)) (x y : list Card) :
  present a = Ok x -> present b = Ok y -> present (a ++ b) = Ok (x ++ y).
Proof.
  revert x; induction a as [|[c|] a IH]; intros x; cbn [present app].
  - intros E. now inversion E.
  - destruct (present a) as [x'|] eqn:Ea; cbn [rbind]; [|discriminate].
    intros E H. inversion E; subst. rewrite (IH x' eq_refl H). reflexivity.
  - discriminate.
Qed.

Lemma present_map_some (l : list Card) : present (map Some l) = Ok l.
Proof. induction l as [|c l IH]; cbn; [reflexivity|now rewrite IH]. Qed.

Lemma no_live_seat_closes (g : PokerGame) :
  (forall p, In p (players g) -> live p = false) -> round_closed g = true.
Proof.
  intros H. unfold round_closed, acted_players, bets.
  assert (E : active_not_allin g = []).
  { unfold active_not_allin, active_players. apply filter_none.
    intros p Hp. apply filter_In in Hp. destruct Hp as [Hp Hf].
    specialize (H p Hp). unfold live in H. rewrite Hf in H. exact H. }
  rewrite E. reflexivity.
Qed.



(** ** Starting a hand *)

(** The table [start_round] hands to the first betting round, field by
    field. *)
Lemma start_round_locked_table (g : PokerGame) (d : list Card) :
  (2 <= length (filter funded (players g)))%nat ->
  let ps := filter funded (players g) in
  let n := Z.of_nat (length ps) in
  let sbi := (small_blind_index g + 1) mod n in
  let bbi := (sbi + 1) mod n in
  exists g',
    start_round_locked d g = Done true g'
    /\ players g'
       = update_nth (Z.to_nat bbi) (post_blind (big_blind_amount g))
           (update_nth (Z.to_nat sbi) (post_blind (small_blind_amount g))
              (fst (deal_hands ps d)))
    /\ deck g' = snd (deal_hands ps d)
    /\ community_cards g' = []
    /\ game_stage g' = PreFlop
    /\ small_blind_index g' = sbi
    /\ big_blind_index g' = bbi
    /\ current_player_index g' = (bbi + 1) mod n
    /\ current_bet g' = big_blind_amount g
    /\ game_in_progress g' = true
    /\ human_action_needed g' = human_action_needed g
    /\ small_blind_amount g' = small_blind_amount g
    /\ big_blind_amount g' = big_blind_amount g.
Proof.
  intros Hn ps n sbi bbi.
  unfold start_round_locked, reset_table. mred. proj.
  destruct (length (filter funded (players g)) <? 2)%nat eqn:E;
    [apply Nat.ltb_lt in E; lia|].
  unfold post_blinds. mred. proj.
  fold ps.
  pose proof (deal_hands_length ps d) as Hlen.
  destruct (deal_hands ps d) as [ps' d'] eqn:Ed. cbn [fst snd] in *. proj.
  unfold modulo, n_players. proj. rewrite Hlen. fold n.
  assert (Hnpos : 0 < n) by (unfold n, ps; lia).
  destruct (n =? 0) eqn:E0; [apply Z.eqb_eq in E0; lia|].
  mred. proj. fold sbi. fold bbi.
  assert (Hsr : 0 <= sbi < n) by (apply Z.mod_pos_bound; lia).
  assert (Hbr : 0 <= bbi < n) by (apply Z.mod_pos_bound; lia).
  assert (Hsb : (Z.to_nat sbi < length ps')%nat) by (unfold n in *; lia).
  assert (Hbb : (Z.to_nat bbi < length ps')%nat) by (unfold n in *; lia).
  rewrite Hlen. unfold sbi at 1. fold n.
  assert (Hpos : forall x, 0 <= x < n -> position (length ps) x = Some (Z.to_nat x)).
  { intros x [H1 H2]. unfold position. fold n.
    apply Z.leb_le in H1. apply Z.ltb_lt in H2. now rewrite H1, H2. }
  fold sbi. rewrite (Hpos sbi Hsr). proj.
  rewrite Hlen. rewrite (Hpos bbi Hbr). proj.
  destruct (nth_error_lt ps' _ Hsb) as [p1 H1]. rewrite H1. proj.
  destruct (nth_error_lt (update_nth (Z.to_nat sbi) (post_blind (small_blind_amount g)) ps')
              (Z.to_nat bbi)) as [p2 H2]; [now rewrite update_nth_length|].
  rewrite H2. proj.
  destruct (nth_error_lt
              (update_nth (Z.to_nat bbi) (post_blind (big_blind_amount g))
                 (update_nth (Z.to_nat sbi) (post_blind (small_blind_amount g)) ps'))
              (Z.to_nat sbi)) as [p3 H3]; [now rewrite !update_nth_length|].
  rewrite H3. proj.
  destruct (nth_error_lt
              (update_nth (Z.to_nat bbi) (post_blind (big_blind_amount g))
                 (update_nth (Z.to_nat sbi) (post_blind (small_blind_amount g)) ps'))
              (Z.to_nat bbi)) as [p4 H4]; [now rewrite !update_nth_length|].
  rewrite H4. proj.
  eexists. split; [reflexivity|]. proj. repeat split.
Qed.

Lemma hole_cards_update_nth (k : nat) (f : Player -> Player) (ps : list Player) :
  (forall p, hand (f p) = hand p) ->
  hole_cards (update_nth k f ps) = hole_cards ps.
Proof.
  intros Hf. unfold hole_cards.
  revert k; induction ps as [|p r IH]; intros [|k]; cbn [update_nth flat_map];
    rewrite ?Hf, ?IH; reflexivity.
Qed.

Lemma map_update_nth_keep {A B} (pr : A -> B) (k : nat) (f : A -> A) (l : list A) :
  (forall x, pr (f x) = pr x) -> map pr (update_nth k f l) = map pr l.
Proof.
  intros Hf. revert k; induction l as [|x r IH]; intros [|k]; cbn [update_nth map];
    rewrite ?Hf, ?IH; reflexivity.
Qed.

Lemma post_blind_hand (amount : Z) (p : Player) : hand (post_blind amount p) = hand p.
Proof. unfold post_blind. now destruct (_ =? 0). Qed.

Lemma post_blind_name (amount : Z) (p : Player) : name (post_blind amount p) = name p.
Proof. unfold post_blind. now destruct (_ =? 0). Qed.

Lemma deal_hands_names (ps : list Player) (d : list Card) :
  map name (fst (deal_hands ps d)) = map name ps.
Proof.
  revert d; induction ps as [|p r IH]; intros d; simpl; [reflexivity|].
  destruct (deal d) as [c1 d1]. destruct (deal d1) as [c2 d2].
  specialize (IH d2). destruct (deal_hands r d2). simpl in *. now rewrite IH.
Qed.

(** X16. A hand is dealt to the seats that still have chips, in their old
    order, the others leaving the table. With a deck that holds two cards
    a seat, every seat gets exactly two cards, taken one after the other
    off the end of the deck: the cards dealt and the cards left make up the
    deck again, so no card is dealt twice. *)
Theorem hole_cards_come_off_the_deck (g : PokerGame) (d : list Card) :
  (2 <= length (filter funded (players g)))%nat ->
  (2 * length (filter funded (players g)) <= length d)%nat ->
  exists g' dealt,
    start_round_locked d g = Done true g'
    /\ map name (players g') = map name (filter funded (players g))
    /\ Forall (fun p => length (hand p) = 2%nat) (players g')
    /\ hole_cards (players g') = map Some dealt
    /\ d = deck g' ++ rev dealt
    /\ community_cards g' = [].
Proof.
  intros Hn Hd.
  destruct (start_round_locked_table g d Hn)
    as (g' & Hrun & Hps & Hdeck & Hcc & _).
  destruct (deal_hands_spec (filter funded (players g)) d Hd)
    as (dealt & H1 & H2 & _ & H4).
  exists g', dealt. split; [exact Hrun|].
  rewrite Hps, Hdeck. repeat split.
  - rewrite !(map_update_nth_keep name) by apply post_blind_name. apply deal_hands_names.
  - repeat apply Forall_update_nth; try exact H4;
      intros p Hp; now rewrite post_blind_hand.
  - rewrite !hole_cards_update_nth by apply post_blind_hand. exact H1.
  - exact H2.
  - exact Hcc.
Qed.

Lemma hole_cards_come_off_the_deck_witness :
  let g := new_game "You" 2 0 false fresh_deck in
  (2 <= length (filter funded (players g)))%nat
  /\ (2 * length (filter funded (players g)) <= length fresh_deck)%nat
  /\ exists g' dealt,
       start_round_locked fresh_deck g = Done true g'
       /\ map name (players g') = map name (filter funded (players g))
       /\ Forall (fun p => length (hand p) = 2%nat) (players g')
       /\ hole_cards (players g') = map Some dealt
       /\ fresh_deck = deck g' ++ rev dealt
       /\ community_cards g' = [].
Proof.
  intros g.
  assert (H1 : (2 <= length (filter funded (players g)))%nat) by (vm_compute; lia).
  assert (H2 : (2 * length (filter funded (players g)) <= length fresh_deck)%nat)
    by (vm_compute; lia).
  split; [exact H1|]. split; [exact H2|].
  exact (hole_cards_come_off_the_deck g fresh_deck H1 H2).
Defined.

(** X17. Each hand moves the blinds on by one seat among the seats that
    still have chips: the small blind goes to the seat after the previous
    small blind index, the big blind to the seat after it, and the seat
    after the big blind acts first. The two blinds are different seats;
    with two seats the small blind acts first. *)
Theorem blinds_move_one_seat (g : PokerGame) (d : list Card) :
  (2 <= length (filter funded (players g)))%nat ->
  let n := Z.of_nat (length (filter funded (players g))) in
  exists g',
    start_round_locked d g = Done true g'
    /\ n_players g' = n
    /\ small_blind_index g' = (small_blind_index g + 1) mod n
    /\ big_blind_index g' = (small_blind_index g' + 1) mod n
    /\ current_player_index g' = (big_blind_index g' + 1) mod n
    /\ small_blind_index g' <> big_blind_index g'
    /\ (n = 2 -> current_player_index g' = small_blind_index g').
Proof.
  intros Hn n.
  destruct (start_round_locked_table g d Hn)
    as (g' & Hrun & Hps & _ & _ & _ & Hsb & Hbb & Hix & _).
  exists g'. split; [exact Hrun|].
  fold n in Hsb, Hbb, Hix.
  assert (Hnpos : 2 <= n) by (unfold n; lia).
  pose proof (Z.mod_pos_bound (small_blind_index g + 1) n ltac:(lia)) as Hr.
  rewrite Hsb, Hbb, Hix.
  set (sbi := (small_blind_index g + 1) mod n) in *.
  split.
  { unfold n_players. rewrite Hps, !update_nth_length, deal_hands_length. reflexivity. }
  split; [reflexivity|]. split; [reflexivity|]. split; [reflexivity|].
  split.
  - destruct (Z.eq_dec (sbi + 1) n) as [E|E].
    + rewrite E, Z_mod_same_full. lia.
    + rewrite Z.mod_small by lia. lia.
  - intros E2. rewrite E2 in *.
    assert (sbi = 0 \/ sbi = 1) as [->| ->] by lia; reflexivity.
Qed.

Lemma blinds_move_one_seat_witness :
  let g := new_game "You" 1 0 false fresh_deck in
  (2 <= length (filter funded (players g)))%nat
  /\ exists g',
       start_round_locked fresh_deck g = Done true g'
       /\ n_players g' = 2
       /\ small_blind_index g' = (small_blind_index g + 1) mod 2
       /\ big_blind_index g' = (small_blind_index g' + 1) mod 2
       /\ current_player_index g' = (big_blind_index g' + 1) mod 2
       /\ small_blind_index g' <> big_blind_index g'
       /\ (2 = 2 -> current_player_index g' = small_blind_index g').
Proof.
  intros g.
  assert (H1 : (2 <= length (filter funded (players g)))%nat) by (vm_compute; lia).
  split; [exact H1|].
  exact (blinds_move_one_seat g fresh_deck H1).
Defined.

(** X18. With fewer than two seats that still have chips no hand is
    started: [start_round] keeps the seats with chips, deals no card,
    posts no blind, writes one line to the emptied log and leaves the game
    not in progress; the route for the next round still answers with
    success. *)
Theorem too_few_funded_seats_end_the_game (g : PokerGame) (d : list Card)
    (env : list Answer) :
  (length (filter funded (players g)) < 2)%nat ->
  exists g',
    start_round d env g = Done tt g'
    /\ game_in_progress g' = false
    /\ players g' = filter funded (players g)
    /\ deck g' = d
    /\ pot g' = 0 /\ current_bet g' = 0 /\ community_cards g' = []
    /\ log_messages g' = [MsgTooFewFunded]
    /\ small_blind_index g' = small_blind_index g
    /\ human_action_needed g' = human_action_needed g
    /\ (game_in_progress g = false ->
        next_round_route d env (Some g) = (Success, Some g')).
Proof.
  intros Hn.
  assert (Hrun : exists g', start_round d env g = Done tt g'
            /\ game_in_progress g' = false
            /\ players g' = filter funded (players g)
            /\ deck g' = d
            /\ pot g' = 0 /\ current_bet g' = 0 /\ community_cards g' = []
            /\ log_messages g' = [MsgTooFewFunded]
            /\ small_blind_index g' = small_blind_index g
            /\ human_action_needed g' = human_action_needed g).
  { unfold start_round, start_round_locked, reset_table. mred. proj.
    destruct (length (filter funded (players g)) <? 2)%nat eqn:E;
      [|apply Nat.ltb_ge in E; lia].
    mred. proj. eexists. split; [reflexivity|]. proj. repeat split. }
  destruct Hrun as (g' & Hrun & H).
  exists g'. split; [exact Hrun|].
  repeat (split; [apply H|]).
  intros Hp. unfold next_round_route. rewrite Hp, Hrun. reflexivity.
Qed.

Lemma too_few_funded_seats_end_the_game_witness :
  let g := set_game_in_progress false
             (table_of [seat_with "You" 3000 0; seat_with "B" 0 0; seat_with "C" 0 0] 0) in
  (length (filter funded (players g)) < 2)%nat
  /\ exists g',
       start_round fresh_deck [] g = Done tt g'
       /\ game_in_progress g' = false
       /\ players g' = filter funded (players g)
       /\ deck g' = fresh_deck
       /\ pot g' = 0 /\ current_bet g' = 0 /\ community_cards g' = []
       /\ log_messages g' = [MsgTooFewFunded]
       /\ small_blind_index g' = small_blind_index g
       /\ human_action_needed g' = human_action_needed g
       /\ (game_in_progress g = false ->
           next_round_route fresh_deck [] (Some g) = (Success, Some g')).
Proof.
  intros g.
  assert (H1 : (length (filter funded (players g)) < 2)%nat) by (vm_compute; lia).
  split; [exact H1|].
  exact (too_few_funded_seats_end_the_game g fresh_deck [] H1).
Defined.

(** ** A new game *)

Lemma new_player_fresh (n : string) (cpu gemini : bool) :
  let p := new_player n cpu gemini in
  chips p = 1000 /\ bet p = 0 /\ hand p = [] /\ is_folded p = false
  /\ is_all_in p = false /\ has_acted p = false.
Proof. cbn. repeat split. Qed.

Lemma new_game_stacks (human : string) (cpus geminis : nat) (model : bool)
    (d : list Card) :
  Forall (fun p => chips p = 1000 /\ bet p = 0 /\ hand p = [])
    (players (new_game human cpus geminis model d)).
Proof.
  unfold new_game. proj. constructor; [cbn; repeat split|].
  apply Forall_forall. intros p Hp. apply in_app_or in Hp. destruct Hp as [Hp|Hp].
  - apply in_map_iff in Hp. destruct Hp as (i & <- & _). cbn. repeat split.
  - destruct model; [|destruct Hp].
    apply in_map_iff in Hp. destruct Hp as (i & <- & _). cbn. repeat split.
Qed.

Lemma new_game_all_funded (human : string) (cpus geminis : nat) (model : bool)
    (d : list Card) :
  filter funded (players (new_game human cpus geminis model d))
  = players (new_game human cpus geminis model d).
Proof.
  apply filter_all. intros p Hp.
  pose proof (new_game_stacks human cpus geminis model d) as H.
  rewrite Forall_forall in H. destruct (H p Hp) as [Hc _].
  unfold funded. rewrite Hc. reflexivity.
Qed.

(** X19. A new game seats the human first, then the CPU seats, then the
    Gemini seats, which are seated only when the Gemini model was
    configured (without it they are left out without an error). Every seat
    starts with 1000 chips, no bet and no cards, and seat 0 is the only
    human seat. *)
Theorem new_game_seats (human : string) (cpus geminis : nat) (model : bool)
    (d : list Card) :
  let g := new_game human cpus geminis model d in
  length (players g) = (1 + cpus + (if model then geminis else 0))%nat
  /\ nth_error (players g) 0 = Some (new_player human false false)
  /\ (forall k p, nth_error (players g) (S k) = Some p ->
        is_human p = false
        /\ (is_gemini p = true -> model = true /\ (cpus <= k)%nat)
        /\ (is_cpu p = true <-> (k < cpus)%nat))
  /\ Forall (fun p => chips p = 1000 /\ bet p = 0 /\ hand p = []) (players g)
  /\ game_in_progress g = false /\ human_action_needed g = false.
Proof.
  intros g. unfold g, new_game. proj.
  set (cpu_seats := map (fun i => new_player (String.append "CPU " (decimal (i + 1))) true false)
                      (seq 0 cpus)).
  set (gem_seats := if model
                    then map (fun i => new_player (String.append "Gemini " (decimal (i + 1)))
                                         false true) (seq 0 geminis)
                    else []).
  assert (Hc : length cpu_seats = cpus) by (unfold cpu_seats; now rewrite length_map, length_seq).
  assert (Hg : length gem_seats = if model then geminis else 0%nat).
  { unfold gem_seats. destruct model; [now rewrite length_map, length_seq|reflexivity]. }
  assert (Hcs : forall p, In p cpu_seats -> is_cpu p = true /\ is_gemini p = false
                                            /\ chips p = 1000 /\ bet p = 0 /\ hand p = []).
  { intros p Hp. unfold cpu_seats in Hp. apply in_map_iff in Hp.
    destruct Hp as (i & <- & _). cbn. repeat split. }
  assert (Hgs : forall p, In p gem_seats -> model = true /\ is_cpu p = false
                                            /\ is_gemini p = true
                                            /\ chips p = 1000 /\ bet p = 0 /\ hand p = []).
  { intros p Hp. unfold gem_seats in Hp. destruct model; [|destruct Hp].
    apply in_map_iff in Hp. destruct Hp as (i & <- & _). cbn. repeat split. }
  split; [cbn [length]; rewrite length_app, Hc, Hg; lia|].
  split; [reflexivity|].
  split; [|split].
  - intros k p Hp. cbn [nth_error] in Hp.
    destruct (Nat.lt_ge_cases k cpus) as [Hk|Hk].
    + rewrite nth_error_app1 in Hp by lia.
      destruct (Hcs p (nth_error_In _ _ Hp)) as (H1 & H2 & _).
      unfold is_human. rewrite H1, H2. cbn. repeat split; try discriminate; auto.
    + rewrite nth_error_app2 in Hp by lia.
      destruct (Hgs p (nth_error_In _ _ Hp)) as (H0 & H1 & H2 & _).
      unfold is_human. rewrite H1, H2. cbn. repeat split; try discriminate; auto; try lia.
  - constructor; [cbn; repeat split|].
    apply Forall_forall. intros p Hp. apply in_app_or in Hp. destruct Hp as [Hp|Hp].
    + destruct (Hcs p Hp) as (_ & _ & H). exact H.
    + destruct (Hgs p Hp) as (_ & _ & _ & H). exact H.
  - split; reflexivity.
Qed.


Lemma new_game_length (human : string) (cpus geminis : nat) (model : bool)
    (d : list Card) :
  length (players (new_game human cpus geminis model d))
  = (1 + cpus + (if model then geminis else 0))%nat.
Proof.
  unfold new_game. proj. cbn [length]. rewrite length_app, length_map, length_seq.
  destruct model; [rewrite length_map, length_seq|cbn [length]]; lia.
Qed.

(** X20. The first hand of a game with n >= 2 seats: [start_game] moves
    the small blind index from -1 to 0 and [start_round] moves it on
    again, so the first small blind is seat 1, never the human at seat 0;
    the big blind is seat 2 mod n and the seat 3 mod n acts first. Every
    seat is dealt in with its 1000 chips, and the turn loop starts on that
    table. *)
Theorem first_hand_blinds (human : string) (cpus geminis : nat) (model : bool)
    (d0 d : list Card) (env : list Answer) :
  let g0 := new_game human cpus geminis model d0 in
  let n := n_players g0 in
  2 <= n ->
  exists g1,
    start_game d env g0 = process_turn env g1
    /\ n_players g1 = n
    /\ small_blind_index g1 = 1
    /\ big_blind_index g1 = 2 mod n
    /\ current_player_index g1 = 3 mod n
    /\ game_stage g1 = PreFlop
    /\ game_in_progress g1 = true
    /\ human_action_needed g1 = false
    /\ Forall (fun p => chips p + bet p = 1000) (players g1).
Proof.
  intros g0 n Hn.
  assert (Hlen : Z.of_nat (length (players g0)) = n) by reflexivity.
  unfold start_game. mred.
  destruct (length (players g0) <? 2)%nat eqn:E; [apply Nat.ltb_lt in E; lia|].
  mred. proj. unfold modulo. fold n.
  destruct (n =? 0) eqn:E0; [apply Z.eqb_eq in E0; lia|].
  mred. proj.
  change (small_blind_index g0 + 1) with 0. rewrite Z.mod_0_l by lia.
  set (g := set_small_blind_index 0 (set_game_in_progress true g0)).
  assert (Hf : filter funded (players g) = players g0).
  { unfold g. proj. apply new_game_all_funded. }
  destruct (start_round_locked_table g d) as (g1 & Hrun & Hps & _ & _ & Hst & Hsb & Hbb
                                              & Hix & _ & Hgp & Hh & _).
  { rewrite Hf. lia. }
  rewrite Hf, Hlen in *.
  change (small_blind_index g + 1) with 1 in *.
  change (small_blind_amount g) with 10 in Hps.
  change (big_blind_amount g) with 20 in Hps.
  assert (H1 : 1 mod n = 1) by (apply Z.mod_small; lia).
  rewrite H1 in *.
  unfold start_round. unfold bind at 1. rewrite Hrun.
  unfold process_betting_round. mred. rewrite Hst. cbn [Stage_eqb negb]. mred.
  exists g1. split; [reflexivity|].
  split.
  { unfold n_players. rewrite Hps, !update_nth_length, deal_hands_length. exact Hlen. }
  split; [exact Hsb|]. split; [exact Hbb|].
  split.
  { rewrite Hix. change 3 with (2 + 1). now rewrite Zplus_mod_idemp_l. }
  split; [exact Hst|]. split; [exact Hgp|]. split; [exact Hh|].
  rewrite Hps.
  assert (Hd : Forall (fun p => chips p = 1000 /\ bet p = 0)
                 (fst (deal_hands (players g0) d))).
  { pose proof (deal_hands_chips (players g0) d) as Hc.
    pose proof (deal_hands_fresh (players g0) d) as Hb.
    pose proof (new_game_stacks human cpus geminis model d0) as Hs. fold g0 in Hs.
    apply Forall_forall. intros p Hp.
    apply In_nth_error in Hp. destruct Hp as [k Hk].
    assert (Hck : nth_error (map chips (fst (deal_hands (players g0) d))) k
                  = Some (chips p)) by (rewrite nth_error_map, Hk; reflexivity).
    rewrite Hc, nth_error_map in Hck.
    destruct (nth_error (players g0) k) as [q|] eqn:Eq; [|discriminate].
    cbn in Hck. inversion Hck as [Hcq].
    rewrite Forall_forall in Hs, Hb.
    destruct (Hs q (nth_error_In _ _ Eq)) as [Hq _].
    destruct (Hb p (nth_error_In _ _ Hk)) as [Hbp _]. split; [lia|exact Hbp]. }
  assert (Hne : Z.to_nat (2 mod n) <> Z.to_nat 1).
  { destruct (Z.eq_dec n 2) as [->|Hn2]; [cbn; lia|].
    rewrite Z.mod_small by lia. lia. }
  rewrite Forall_forall in Hd.
  apply Forall_forall. intros p Hp.
  apply In_nth_error in Hp. destruct Hp as [k Hk].
  set (dealt := fst (deal_hands (players g0) d)) in *.
  destruct (Nat.eq_dec k (Z.to_nat (2 mod n))) as [->|Hkb].
  - rewrite nth_error_update_nth_eq, nth_error_update_nth_neq in Hk by exact Hne.
    destruct (nth_error dealt (Z.to_nat (2 mod n))) as [q|] eqn:Eq; [|discriminate].
    cbn in Hk. inversion Hk; subst p. rewrite post_blind_conserves.
    apply (Hd q (nth_error_In _ _ Eq)).
  - rewrite nth_error_update_nth_neq in Hk by exact Hkb.
    destruct (Nat.eq_dec k (Z.to_nat 1)) as [->|Hks].
    + rewrite nth_error_update_nth_eq in Hk.
      destruct (nth_error dealt (Z.to_nat 1)) as [q|] eqn:Eq; [|discriminate].
      cbn in Hk. inversion Hk; subst p. rewrite post_blind_conserves.
      apply (Hd q (nth_error_In _ _ Eq)).
    + rewrite nth_error_update_nth_neq in Hk by exact Hks.
      destruct (Hd p (nth_error_In _ _ Hk)). lia.
Qed.

Lemma first_hand_blinds_witness :
  let g0 := new_game "You" 2 0 false fresh_deck in
  2 <= n_players g0
  /\ exists g1,
       start_game fresh_deck [yes] g0 = process_turn [yes] g1
       /\ n_players g1 = 3
       /\ small_blind_index g1 = 1
       /\ big_blind_index g1 = 2 mod 3
       /\ current_player_index g1 = 3 mod 3
       /\ game_stage g1 = PreFlop
       /\ game_in_progress g1 = true
       /\ human_action_needed g1 = false
       /\ Forall (fun p => chips p + bet p = 1000) (players g1).
Proof.
  intros g0.
  assert (H : 2 <= n_players g0) by (vm_compute; discriminate).
  split; [exact H|].
  exact (first_hand_blinds "You" 2 0 false fresh_deck fresh_deck [yes] H).
Defined.

(** X21. A game without opponents never starts a hand, and no request
    reports it: starting it answers with success though the game is not in
    progress and only a line in the log says so; an action is then refused,
    and asking for the next round answers with success again without
    starting a hand. *)
Theorem solo_game_never_starts (human : string) (geminis : nat)
    (d0 d : list Card) (env : list Answer) :
  exists g1,
    start_game_route human 0 geminis false d0 d env = (Success, Some g1)
    /\ players g1 = [new_player human false false]
    /\ game_in_progress g1 = false
    /\ human_action_needed g1 = false
    /\ log_messages g1 = [MsgTooFewPlayers]
    /\ (forall a amt env',
          player_action_route a amt env' (Some g1) = (Error400, Some g1))
    /\ (forall d' env', exists g2,
          next_round_route d' env' (Some g1) = (Success, Some g2)
          /\ game_in_progress g2 = false
          /\ players g2 = players g1
          /\ log_messages g2 = [MsgTooFewFunded]).
Proof.
  eexists. split; [reflexivity|]. proj.
  split; [reflexivity|]. split; [reflexivity|]. split; [reflexivity|].
  split; [reflexivity|]. split; [intros; reflexivity|].
  intros d' env'. eexists. split; [reflexivity|]. repeat split.
Qed.

(** ** The state served to the browser *)

Lemma all_present_dec (cs : list (option Card)) :
  Forall (fun c => c <> None) cs \/ ~ Forall (fun c => c <> None) cs.
Proof.
  destruct (Forall_dec (fun c : option Card => c <> None)) with (l := cs) as [H|H];
    [|now left|now right].
  intros [c|]; [left; discriminate|right; congruence].
Qed.

Lemma cards_to_dict_ok (cs : list (option Card)) :
  Forall (fun c => c <> None) cs ->
  exists ds, cards_to_dict cs = Ok ds /\ length ds = length cs.
Proof.
  induction cs as [|[c|] cs IH]; intros H.
  - exists []. split; reflexivity.
  - inversion H; subst. destruct (IH H3) as (ds & Hds & Hl).
    eexists. cbn. rewrite Hds. cbn. split; [reflexivity|]. cbn. now rewrite Hl.
  - inversion H; subst. congruence.
Qed.

Lemma cards_to_dict_err (cs : list (option Card)) :
  ~ Forall (fun c => c <> None) cs -> cards_to_dict cs = Err AttributeError.
Proof.
  induction cs as [|[c|] cs IH]; intros H.
  - exfalso. apply H. constructor.
  - cbn. rewrite IH; [reflexivity|]. intros H'. apply H. constructor; [discriminate|exact H'].
  - reflexivity.
Qed.

Lemma cards_to_dict_cases (cs : list (option Card)) :
  (exists ds, cards_to_dict cs = Ok ds) \/ cards_to_dict cs = Err AttributeError.
Proof.
  induction cs as [|[c|] cs [(ds & IH)|IH]]; cbn; rewrite ?IH; cbn; eauto.
Qed.

Lemma players_to_dict_ok (ps : list Player) :
  Forall (fun c => c <> None)
    (flat_map (fun p => if show_hand p then hand p else []) ps) ->
  exists ds, players_to_dict ps = Ok ds
    /\ map dict_chips ds = map chips ps /\ map dict_bet ds = map bet ps
    /\ map dict_name ds = map name ps
    /\ map dict_is_folded ds = map is_folded ps.
Proof.
  induction ps as [|p ps IH]; intros H.
  - exists []. repeat split.
  - cbn [flat_map] in H. apply Forall_app in H. destruct H as [Hp Hps].
    destruct (IH Hps) as (ds & Hds & H1 & H2 & H3 & H4).
    cbn [players_to_dict]. unfold player_to_dict.
    destruct (show_hand p) eqn:Es.
    + destruct (cards_to_dict_ok _ Hp) as (h & Hh & _). rewrite Hh. cbn [rbind].
      rewrite Hds. cbn [rbind]. eexists. split; [reflexivity|].
      cbn. rewrite H1, H2, H3, H4. repeat split.
    + cbn [rbind]. rewrite Hds. cbn [rbind]. eexists. split; [reflexivity|].
      cbn. rewrite H1, H2, H3, H4. repeat split.
Qed.

Lemma players_to_dict_err (ps : list Player) :
  ~ Forall (fun c => c <> None)
      (flat_map (fun p => if show_hand p then hand p else []) ps) ->
  players_to_dict ps = Err AttributeError.
Proof.
  induction ps as [|p ps IH]; intros H.
  - exfalso. apply H. constructor.
  - cbn [players_to_dict]. unfold player_to_dict. cbn [flat_map] in H.
    destruct (show_hand p) eqn:Es.
    + destruct (cards_to_dict_cases (hand p)) as [(h & Hh)|Hh]; rewrite Hh; cbn [rbind];
        [|reflexivity].
      rewrite IH; [reflexivity|]. intros Hps. apply H. apply Forall_app. split; [|exact Hps].
      clear -Hh. revert h Hh. induction (hand p) as [|[c|] cs IHc]; intros h Hh.
      * constructor.
      * cbn in Hh. destruct (cards_to_dict cs) as [ds|] eqn:E; [|discriminate].
        constructor; [discriminate|]. now apply (IHc ds).
      * discriminate.
    + cbn [rbind]. rewrite IH; [reflexivity|]. exact H.
Qed.

(** X22. [/game_state] answers 404 before a game exists. With a game it
    serves the state exactly when no card it has to read is missing (the
    hands that are shown and the board); a card that an exhausted deck
    dealt as [None] makes the request fail with an AttributeError. The
    state served repeats the stacks, bets, pot and flags of the table. *)
Theorem game_state_served (g : PokerGame) :
  game_state_route None = State404
  /\ (Forall (fun c => c <> None) (shown_cards g) ->
      exists s,
        game_state_route (Some g) = State200 s
        /\ map dict_chips (state_players s) = map chips (players g)
        /\ map dict_bet (state_players s) = map bet (players g)
        /\ map dict_name (state_players s) = map name (players g)
        /\ map dict_is_folded (state_players s) = map is_folded (players g)
        /\ length (state_community_cards s) = length (community_cards g)
        /\ state_pot s = pot g /\ state_current_bet s = current_bet g
        /\ state_current_player_index s = current_player_index g
        /\ state_game_stage s = game_stage g
        /\ state_game_in_progress s = game_in_progress g
        /\ state_human_action_needed s = human_action_needed g)
  /\ (~ Forall (fun c => c <> None) (shown_cards g) ->
      game_state_route (Some g) = State500 AttributeError).
Proof.
  split; [reflexivity|]. unfold shown_cards, game_state_route, get_state. split.
  - intros H. apply Forall_app in H. destruct H as [Hp Hc].
    destruct (players_to_dict_ok _ Hp) as (ds & -> & H1 & H2 & H3 & H4).
    destruct (cards_to_dict_ok _ Hc) as (cc & -> & Hl).
    cbn [rbind]. eexists. split; [reflexivity|]. cbn. repeat split; assumption.
  - intros H.
    destruct (players_to_dict (players g)) as [ds|e] eqn:Ep.
    + cbn [rbind].
      rewrite cards_to_dict_err; [reflexivity|].
      intros Hc. apply H. apply Forall_app. split; [|exact Hc].
      (* the hands were read, so none of their cards is missing *)
      destruct (all_present_dec (flat_map (fun p => if show_hand p then hand p else []) (players g))) as [Hs|Hs]; [exact Hs|].
      rewrite (players_to_dict_err _ Hs) in Ep. discriminate.
    + cbn [rbind].
      destruct (all_present_dec (flat_map (fun p => if show_hand p then hand p else []) (players g))) as [Hs|Hs].
      * destruct (players_to_dict_ok _ Hs) as (ds & Hds & _). congruence.
      * rewrite (players_to_dict_err _ Hs) in Ep. congruence.
Qed.

(** X23. The state carries the last ten lines of the log, all of them
    while the log has ten lines or fewer, in their order. *)
Theorem state_log_is_the_last_ten (g : PokerGame) (s : State) :
  get_state g = Ok s ->
  exists older,
    log_messages g = older ++ state_log s
    /\ length (state_log s) = Nat.min 10 (length (log_messages g)).
Proof.
  unfold get_state.
  destruct (players_to_dict (players g)); cbn [rbind]; [|discriminate].
  destruct (cards_to_dict (community_cards g)); cbn [rbind]; [|discriminate].
  intros E. inversion E; subst; clear E. cbn [state_log]. unfold last_items.
  exists (firstn (length (log_messages g) - 10) (log_messages g)).
  split; [symmetry; apply firstn_skipn|].
  rewrite length_skipn. lia.
Qed.

Lemma state_log_is_the_last_ten_witness :
  let g := set_log_messages
             [MsgFlop; MsgTurn; MsgRiver; MsgFlop; MsgTurn; MsgRiver; MsgFlop; MsgTurn;
              MsgRiver; MsgFlop; MsgTurn; MsgRoundEnd]
             (table_of [seat_with "A" 980 20] 20) in
  exists s,
    get_state g = Ok s
    /\ state_log s = [MsgRiver; MsgFlop; MsgTurn; MsgRiver; MsgFlop; MsgTurn; MsgRiver;
                      MsgFlop; MsgTurn; MsgRoundEnd]
    /\ exists older,
         log_messages g = older ++ state_log s
         /\ length (state_log s) = Nat.min 10 (length (log_messages g)).
Proof.
  intros g. eexists. split; [reflexivity|]. split; [reflexivity|].
  exact (state_log_is_the_last_ten g _ eq_refl).
Defined.

(** ** The scripted seats *)

(** X24. A CPU seat never raises. It checks when it owes nothing, and
    when it owes something it calls if the coin says so or if the call
    takes its whole stack (going all-in), and folds otherwise. The current
    bet, the pot and the other seats are left as they were. *)
Theorem cpu_checks_calls_or_folds (g : PokerGame) (k : nat) (p : Player) (coin : bool) :
  position (length (players g)) (current_player_index g) = Some k ->
  nth_error (players g) k = Some p ->
  let owed := current_bet g - bet p in
  exists g' p',
    get_cpu_action k coin g = Done tt g'
    /\ nth_error (players g') k = Some p'
    /\ has_acted p' = true
    /\ current_bet g' = current_bet g
    /\ pot g' = pot g
    /\ (forall j, j <> k -> nth_error (players g') j = nth_error (players g) j)
    /\ (owed <= 0 -> p' = set_has_acted true p)
    /\ (0 < owed -> coin = true \/ chips p <= owed ->
        is_folded p' = is_folded p
        /\ chips p' + bet p' = chips p + bet p
        /\ (bet p' = current_bet g \/ (chips p' = 0 /\ is_all_in p' = true)))
    /\ (0 < owed -> coin = false -> owed < chips p ->
        is_folded p' = true /\ chips p' = chips p /\ bet p' = bet p).
Proof.
  intros Hk Hp owed.
  unfold get_cpu_action. mred. rewrite Hp. fold owed.
  set (action := if 0 <? owed
                 then if coin || (chips p <=? owed) then "call"%string else "fold"%string
                 else "check"%string).
  assert (Hnr : is_raise (PyStr action) = false).
  { unfold action. destruct (0 <? owed); [destruct (coin || (chips p <=? owed))|];
      reflexivity. }
  destruct (handle_action_effect g k p (PyStr action) (PyInt 0) 0 Hk Hp)
    as (g' & Hrun & Hps & Hcb & _ & Hfr).
  { rewrite Hnr. discriminate. }
  rewrite Hnr in Hcb.
  exists g', (set_has_acted true (seat_after (PyStr action) 0 g p)).
  split; [exact Hrun|].
  split; [rewrite Hps; now apply actor_after|].
  split; [reflexivity|]. split; [exact Hcb|]. split; [apply Hfr|].
  split.
  { intros j Hj. rewrite Hps, (others_after g k j p (PyStr action) 0 Hj), Hnr.
    cbn [andb]. now destruct (nth_error (players g) j). }
  unfold action, seat_after.
  split; [|split].
  - intros Ho. apply Z.ltb_ge in Ho. rewrite Ho. reflexivity.
  - intros Ho Hc. pose proof Ho as Ho'. apply Z.ltb_lt in Ho'. rewrite Ho'.
    assert (Hcall : coin || (chips p <=? owed) = true).
    { destruct Hc as [->|Hc]; [reflexivity|].
      apply Z.leb_le in Hc. rewrite Hc. apply orb_true_r. }
    rewrite Hcall. cbn [is_str String.eqb Ascii.eqb Bool.eqb]. fold owed.
    destruct (chips p <=? owed) eqn:E; cbn.
    + split; [reflexivity|]. split; [lia|]. right. split; reflexivity.
    + split; [reflexivity|]. split; [lia|]. left. unfold owed. lia.
  - intros Ho Hc Hlt. apply Z.ltb_lt in Ho. rewrite Ho. subst coin.
    assert (Hle : (chips p <=? owed) = false) by (apply Z.leb_gt; lia).
    rewrite Hle. cbn. repeat split.
Qed.

Lemma cpu_checks_calls_or_folds_witness :
  let p := set_bet 10 (set_chips 990 (new_player "CPU 1" true false)) in
  let g := table_of [p; seat_with "B" 980 20; seat_with "C" 1000 0] 20 in
  position (length (players g)) (current_player_index g) = Some 0%nat
  /\ nth_error (players g) 0 = Some p
  /\ exists g' p',
       get_cpu_action 0 false g = Done tt g'
       /\ nth_error (players g') 0 = Some p'
       /\ has_acted p' = true
       /\ current_bet g' = current_bet g
       /\ pot g' = pot g
       /\ (forall j, j <> 0%nat -> nth_error (players g') j = nth_error (players g) j)
       /\ (20 - 10 <= 0 -> p' = set_has_acted true p)
       /\ (0 < 20 - 10 -> false = true \/ chips p <= 20 - 10 ->
           is_folded p' = is_folded p
           /\ chips p' + bet p' = chips p + bet p
           /\ (bet p' = current_bet g \/ (chips p' = 0 /\ is_all_in p' = true)))
       /\ (0 < 20 - 10 -> false = false -> 20 - 10 < chips p ->
           is_folded p' = true /\ chips p' = chips p /\ bet p' = bet p).
Proof.
  intros p g. split; [reflexivity|]. split; [reflexivity|].
  exact (cpu_checks_calls_or_folds g 0%nat p false eq_refl eq_refl).
Defined.

(** ** Conditions kept through every call *)

Section Keeping.
Variable I : PokerGame -> Prop.

Lemma keeps_ret {A} (a : A) : keeps I (ret a).
Proof. intros g H. exact H. Qed.

Lemma keeps_throw {A} (e : Exn) : keeps I (@throw A e).
Proof. intros g H. exact H. Qed.

Lemma keeps_running {A} : keeps I (@running A).
Proof. intros g H. exact H. Qed.

Lemma keeps_lift {A} (r : Res A) : keeps I (lift r).
Proof. intros g H. destruct r; exact H. Qed.

Lemma keeps_get : keeps I get.
Proof. intros g H. exact H. Qed.

Lemma keeps_modify (f : PokerGame -> PokerGame) :
  (forall g, I g -> I (f g)) -> keeps I (modify f).
Proof. intros Hf g H. now apply Hf. Qed.

Lemma keeps_bind {A B} (m : M A) (k : A -> M B) :
  keeps I m -> (forall a, keeps I (k a)) -> keeps I (bind m k).
Proof.
  intros Hm Hk g H. unfold bind. specialize (Hm g H).
  destruct (m g) as [a g'|e g'|g']; [|exact Hm|exact Hm].
  now apply Hk.
Qed.

Lemma keeps_get_bind {B} (k : PokerGame -> M B) :
  (forall g0, I g0 -> keeps I (k g0)) -> keeps I (bind get k).
Proof. intros Hk g H. unfold bind, get. now apply Hk. Qed.

Lemma keeps_lift_bind {A B} (r : Res A) (k : A -> M B) :
  (forall a, r = Ok a -> keeps I (k a)) -> keeps I (bind (lift r) k).
Proof.
  intros Hk g H. unfold bind, lift. destruct r as [a|e]; [|exact H].
  now apply (Hk a eq_refl).
Qed.

Lemma keeps_seat_of (i : Z) : keeps I (seat_of i).
Proof.
  intros g H. unfold seat_of. mred.
  destruct (position (length (players g)) i); exact H.
Qed.

Lemma keeps_seat_bind {B} (i : nat) (k : Player -> M B) :
  (forall g0 p, I g0 -> nth_error (players g0) i = Some p -> keeps I (k p)) ->
  keeps I (bind (seat i) k).
Proof.
  intros Hk g H. unfold seat. mred.
  destruct (nth_error (players g) i) as [p|] eqn:E; [|exact H].
  now apply (Hk g p H E).
Qed.

Lemma keeps_try {A} (m : M A) (h : Exn -> M A) :
  keeps I m -> (forall e, keeps I (h e)) -> keeps I (try_except m h).
Proof.
  intros Hm Hh g H. unfold try_except. specialize (Hm g H).
  destruct (m g) as [a g'|e g'|g']; [exact Hm| |exact Hm].
  now apply Hh.
Qed.

Lemma keeps_spawn (m : M unit) : keeps I m -> keeps I (spawn m).
Proof.
  intros Hm g H. unfold spawn. specialize (Hm g H).
  destruct (m g); exact Hm.
Qed.

Lemma keeps_table_after {A} (m : M A) (g : PokerGame) :
  keeps I m -> I g -> I (table_after (m g)).
Proof.
  intros Hm H. specialize (Hm g H). destruct (m g); exact Hm.
Qed.

(** The condition does not look at what was written. *)
Hypothesis I_console : forall g c, I g -> I (set_console c g).
Hypothesis I_log : forall g l, I g -> I (set_log_messages l g).

Lemma keeps_print (m : Msg) : keeps I (print m).
Proof. apply keeps_modify. intros g H. now apply I_console. Qed.

Lemma keeps_log (m : Msg) : keeps I (log m).
Proof.
  unfold log. apply keeps_bind; [apply keeps_print|intros _].
  apply keeps_modify. intros g H. now apply I_log.
Qed.

(** Nor at the deck, the board or the turn. *)
Hypothesis I_deck : forall g d, I g -> I (set_deck d g).
Hypothesis I_board : forall g c, I g -> I (set_community_cards c g).
Hypothesis I_stage : forall g s, I g -> I (set_game_stage s g).
Hypothesis I_index : forall g i, I g -> I (set_current_player_index i g).

Lemma keeps_card_str (cs : list (option Card)) : keeps I (card_str cs).
Proof. unfold card_str. destruct (present cs); [apply keeps_ret|apply keeps_throw]. Qed.

Lemma keeps_deal_one : keeps I deal_one.
Proof.
  unfold deal_one. apply keeps_get_bind. intros g0 H0.
  destruct (deal (deck g0)) as [c rest].
  apply keeps_bind; [|intros _; apply keeps_ret].
  apply keeps_modify. intros g H. now apply I_deck.
Qed.

Lemma keeps_player_states (ps : list Player) : keeps I (player_states ps).
Proof.
  induction ps as [|p r IH]; cbn [player_states]; [apply keeps_ret|].
  apply keeps_bind; [|intros _; exact IH].
  destruct (show_hand p); [|apply keeps_ret].
  apply keeps_bind; [apply keeps_card_str|intros _; apply keeps_ret].
Qed.

Lemma keeps_advance_stage : keeps I advance_stage.
Proof.
  unfold advance_stage. apply keeps_get_bind. intros g0 H0.
  apply keeps_lift_bind. intros s Hs.
  apply keeps_bind; [apply keeps_modify; intros g H; now apply I_stage|intros _].
  destruct s; try apply keeps_ret.
  - repeat (apply keeps_bind; [apply keeps_deal_one|intros ?]).
    apply keeps_bind; [apply keeps_modify; intros g H; now apply I_board|intros _].
    apply keeps_bind; [apply keeps_log|intros _; apply keeps_ret].
  - apply keeps_bind; [apply keeps_deal_one|intros ?].
    apply keeps_bind; [apply keeps_modify; intros g H; now apply I_board|intros _].
    apply keeps_bind; [apply keeps_log|intros _; apply keeps_ret].
  - apply keeps_bind; [apply keeps_deal_one|intros ?].
    apply keeps_bind; [apply keeps_modify; intros g H; now apply I_board|intros _].
    apply keeps_bind; [apply keeps_log|intros _; apply keeps_ret].
Qed.

Lemma keeps_seek_live (fuel : nat) : keeps I (seek_live fuel).
Proof.
  induction fuel as [|fuel IH]; cbn [seek_live].
  - apply keeps_get_bind. intros g0 H0.
    apply keeps_bind; [apply keeps_seat_of|intros k].
    apply keeps_seat_bind. intros g1 p _ _.
    destruct (is_folded p || is_all_in p); [apply keeps_running|apply keeps_ret].
  - apply keeps_get_bind. intros g0 H0.
    apply keeps_bind; [apply keeps_seat_of|intros k].
    apply keeps_seat_bind. intros g1 p _ _.
    destruct (is_folded p || is_all_in p); [|apply keeps_ret].
    apply keeps_lift_bind. intros i _.
    apply keeps_bind; [apply keeps_modify; intros g H; now apply I_index|intros _].
    exact IH.
Qed.

(** [handle_action] either raises before it changes anything, or it
    returns and has done what [handle_action_effect] says. *)
Hypothesis I_action : forall g g' k p action r,
  I g ->
  position (length (players g)) (current_player_index g) = Some k ->
  nth_error (players g) k = Some p ->
  players g' = players_after action r g k p ->
  current_bet g' = (if is_raise action
                    then bet (seat_after action r g p) else current_bet g) ->
  frame g g' ->
  I g'.

Lemma keeps_handle_action (action amount : PyVal) : keeps I (handle_action action amount).
Proof.
  intros g H.
  destruct (position (length (players g)) (current_player_index g)) as [k|] eqn:Hk.
  - destruct (nth_error (players g) k) as [p|] eqn:Hp.
    + destruct (is_raise action) eqn:Hr.
      * destruct (is_int amount) eqn:Hi.
        -- destruct amount as [r| |]; try discriminate.
           destruct (handle_action_effect g k p action (PyInt r) r Hk Hp (fun _ => eq_refl))
             as (g' & Hrun & Hps & Hcb & _ & Hfr).
           rewrite Hrun. now apply (I_action g g' k p action r).
        -- rewrite (handle_action_bad_amount g k p action amount Hk Hp Hr Hi). exact H.
      * destruct (handle_action_effect g k p action amount 0 Hk Hp)
          as (g' & Hrun & Hps & Hcb & _ & Hfr); [rewrite Hr; discriminate|].
        rewrite Hrun. now apply (I_action g g' k p action 0).
    + unfold handle_action. mred. rewrite Hk. mred. rewrite Hp. exact H.
  - unfold handle_action. mred. rewrite Hk. exact H.
Qed.

Lemma keeps_get_cpu_action (k : nat) (coin : bool) : keeps I (get_cpu_action k coin).
Proof.
  unfold get_cpu_action. apply keeps_get_bind. intros g0 H0.
  apply keeps_seat_bind. intros g1 p _ _. apply keeps_handle_action.
Qed.

Lemma keeps_get_gemini_poker_action (k : nat) (r : GeminiReply) :
  keeps I (get_gemini_poker_action k r).
Proof.
  unfold get_gemini_poker_action. apply keeps_get_bind. intros g0 H0.
  apply keeps_seat_bind. intros g1 p _ _.
  apply keeps_bind; [apply keeps_card_str|intros _].
  apply keeps_bind; [apply keeps_card_str|intros _].
  apply keeps_bind; [apply keeps_player_states|intros _].
  apply keeps_try.
  - apply keeps_bind; [apply keeps_log|intros _].
    destruct r; [apply keeps_throw|apply keeps_throw|].
    apply keeps_bind; [apply keeps_log|intros _]. apply keeps_handle_action.
  - intros e. apply keeps_bind; [apply keeps_print|intros _]. apply keeps_handle_action.
Qed.

End Keeping.

(** ** No stack, bet or pot goes negative *)

Lemma solvent_scalars (g g' : PokerGame) :
  solvent g ->
  players g' = players g -> pot g' = pot g -> current_bet g' = current_bet g ->
  small_blind_amount g' = small_blind_amount g ->
  big_blind_amount g' = big_blind_amount g ->
  solvent g'.
Proof.
  unfold solvent. intros H H1 H2 H3 H4 H5. rewrite H1, H2, H3, H4, H5. exact H.
Qed.

Lemma solvent_players (g : PokerGame) (ps : list Player) :
  solvent g -> Forall seat_solvent ps -> solvent (set_players ps g).
Proof. unfold solvent. proj. tauto. Qed.

Lemma solvent_pot (g : PokerGame) (v : Z) :
  solvent g -> 0 <= v -> solvent (set_pot v g).
Proof. unfold solvent. proj. tauto. Qed.

Lemma solvent_current_bet (g : PokerGame) (v : Z) :
  solvent g -> 0 <= v -> solvent (set_current_bet v g).
Proof. unfold solvent. proj. tauto. Qed.

Lemma sum_bets_nonneg (ps : list Player) : Forall seat_solvent ps -> 0 <= sum_bets ps.
Proof.
  unfold sum_bets. induction 1 as [|p r [_ Hp] Hr IH]; simpl; lia.
Qed.

Lemma Forall_map_seats {A} (P : A -> Prop) (i : nat) (f : nat -> A -> A) (l : list A) :
  Forall P l -> (forall j x, P x -> P (f j x)) -> Forall P (map_seats i f l).
Proof.
  intros H Hf. revert i; induction H as [|x r Hx Hr IH]; intros i; simpl;
    constructor; auto.
Qed.

(** A condition on single seats that no [has_acted] mark changes holds of
    all seats after an action when it holds of the actor's new seat. *)
Lemma Forall_players_after (P : Player -> Prop) (g : PokerGame) (k : nat) (p : Player)
    (action : PyVal) (r : Z) :
  (forall v q, P q -> P (set_has_acted v q)) ->
  P (seat_after action r g p) ->
  Forall P (players g) ->
  Forall P (players_after action r g k p).
Proof.
  intros Hacted Hp Hall. unfold players_after.
  apply Forall_update_nth; [|intros; now apply Hacted].
  assert (H : Forall P (update_nth k (fun _ => seat_after action r g p) (players g))).
  { apply Forall_forall. intros q Hq. apply In_nth_error in Hq. destruct Hq as [j Hj].
    rewrite Forall_forall in Hall.
    destruct (Nat.eq_dec j k) as [->|Hjk].
    - rewrite nth_error_update_nth_eq in Hj.
      destruct (nth_error (players g) k); [|discriminate].
      cbn in Hj. inversion Hj; subst. exact Hp.
    - rewrite nth_error_update_nth_neq in Hj by exact Hjk.
      apply Hall. now apply nth_error_In in Hj. }
  destruct (is_raise action); [|exact H].
  unfold reopen. apply Forall_map_seats; [exact H|].
  intros j x Hx. destruct (negb (j =? k)%nat && live x); [now apply Hacted|exact Hx].
Qed.

Lemma seat_after_solvent (action : PyVal) (r : Z) (g : PokerGame) (p : Player) :
  solvent g -> seat_solvent p -> seat_solvent (seat_after action r g p).
Proof.
  intros (_ & _ & Hcb & _ & Hbb) [Hc Hb]. unfold seat_after, seat_solvent, min_raise_of.
  destruct (is_str action "fold"); [cbn; lia|].
  destruct (is_str action "check"); [lia|].
  destruct (is_str action "call").
  { destruct (chips p <=? current_bet g - bet p) eqn:E; cbn;
      [apply Z.leb_le in E|apply Z.leb_gt in E]; lia. }
  destruct (is_str action "raise"); [|lia].
  destruct (0 <? current_bet g) eqn:E0; [apply Z.ltb_lt in E0|apply Z.ltb_ge in E0];
    match goal with
    | |- context [if ?c then _ else _] => destruct c
    end; cbn; lia.
Qed.

Lemma solvent_action (g g' : PokerGame) (k : nat) (p : Player) (action : PyVal) (r : Z) :
  solvent g ->
  position (length (players g)) (current_player_index g) = Some k ->
  nth_error (players g) k = Some p ->
  players g' = players_after action r g k p ->
  current_bet g' = (if is_raise action
                    then bet (seat_after action r g p) else current_bet g) ->
  frame g g' ->
  solvent g'.
Proof.
  intros H Hk Hp Hps Hcb Hfr.
  pose proof H as (Hall & Hpot & Hc & Hsb & Hbb).
  assert (Hsp : seat_solvent p).
  { rewrite Forall_forall in Hall. apply Hall. now apply nth_error_In in Hp. }
  pose proof (seat_after_solvent action r g p H Hsp) as [Hc' Hb'].
  destruct Hfr as (F1 & _ & _ & _ & _ & _ & _ & F8 & F9 & _).
  unfold solvent. rewrite Hps, Hcb, F1, F8, F9.
  split; [|split; [exact Hpot|split; [|split; assumption]]].
  - apply Forall_players_after; [intros v q Hq; exact Hq|split; assumption|exact Hall].
  - destruct (is_raise action); assumption.
Qed.

Lemma solvent_console (g : PokerGame) (c : list Msg) : solvent g -> solvent (set_console c g).
Proof. intros H. now apply (solvent_scalars g). Qed.

Lemma solvent_log (g : PokerGame) (l : list Msg) :
  solvent g -> solvent (set_log_messages l g).
Proof. intros H. now apply (solvent_scalars g). Qed.

Lemma solvent_deck (g : PokerGame) (d : list Card) : solvent g -> solvent (set_deck d g).
Proof. intros H. now apply (solvent_scalars g). Qed.

Lemma solvent_board (g : PokerGame) (c : list (option Card)) :
  solvent g -> solvent (set_community_cards c g).
Proof. intros H. now apply (solvent_scalars g). Qed.

Lemma solvent_stage (g : PokerGame) (s : Stage) : solvent g -> solvent (set_game_stage s g).
Proof. intros H. now apply (solvent_scalars g). Qed.

Lemma solvent_index (g : PokerGame) (i : Z) :
  solvent g -> solvent (set_current_player_index i g).
Proof. intros H. now apply (solvent_scalars g). Qed.

Lemma keeps_solvent_log (m : Msg) : keeps solvent (log m).
Proof. apply keeps_log; [apply solvent_console|apply solvent_log]. Qed.

Lemma keeps_solvent_handle_action (action amount : PyVal) :
  keeps solvent (handle_action action amount).
Proof. apply keeps_handle_action. apply solvent_action. Qed.

Lemma keeps_solvent_upd (k : nat) (f : Player -> Player) :
  (forall p, seat_solvent p -> seat_solvent (f p)) -> keeps solvent (upd k f).
Proof.
  intros Hf. apply keeps_modify. intros g H. apply solvent_players; [exact H|].
  apply Forall_update_nth; [apply H|exact Hf].
Qed.

Lemma keeps_solvent_map (f : Player -> Player) :
  (forall p, seat_solvent p -> seat_solvent (f p)) ->
  keeps solvent (modify (fun g => set_players (map f (players g)) g)).
Proof.
  intros Hf. apply keeps_modify. intros g H. apply solvent_players; [exact H|].
  destruct H as [H _]. rewrite Forall_forall in *. intros q Hq.
  apply in_map_iff in Hq. destruct Hq as (p & <- & Hp). now apply Hf, H.
Qed.

Lemma keeps_solvent_sweep :
  keeps solvent (modify (fun g => set_pot (pot g + sum_bets (players g)) g)).
Proof.
  apply keeps_modify. intros g H. apply solvent_pot; [exact H|].
  destruct H as (H1 & H2 & _). pose proof (sum_bets_nonneg _ H1). lia.
Qed.

Lemma fold_pay_solvent (w : Z) (ws : list (nat * (Z * list Card))) (ps : list Player) :
  0 <= w -> Forall seat_solvent ps -> Forall seat_solvent (fold_left (pay w) ws ps).
Proof.
  intros Hw. revert ps; induction ws as [|d ws IH]; intros ps H; cbn [fold_left];
    [exact H|].
  apply IH. unfold pay. apply Forall_update_nth; [exact H|].
  intros p [Hc Hb]. split; cbn; lia.
Qed.

Lemma keeps_solvent_end_round : keeps solvent end_round.
Proof.
  unfold end_round.
  apply keeps_bind; [apply keeps_solvent_sweep|intros _].
  apply keeps_bind; [apply keeps_solvent_map; intros p [Hc Hb]; split; cbn; lia|intros _].
  apply keeps_get_bind. intros g Hg.
  apply keeps_bind; [apply keeps_solvent_log|intros _].
  apply keeps_bind; [apply keeps_solvent_map; intros p Hp; exact Hp|intros _].
  assert (Hpot : 0 <= pot g) by apply Hg.
  apply keeps_bind; [|intros _].
  - match goal with
    | |- keeps _ (if ?c then _ else _) => destruct c
    end.
    + apply keeps_lift_bind. intros winner _.
      apply keeps_bind; [|intros _; apply keeps_solvent_log].
      apply keeps_solvent_upd. intros p [Hc Hb]. split; cbn; lia.
    + apply keeps_lift_bind. intros data _.
      apply keeps_lift_bind. intros best _.
      apply keeps_lift_bind. intros winnings Hw.
      assert (0 <= winnings).
      { unfold floordiv in Hw.
        destruct (Z.of_nat _ =? 0) eqn:E0; [discriminate|].
        apply Z.eqb_neq in E0. inversion Hw; subst.
        apply Z.div_pos; lia. }
      apply keeps_bind; [|intros _].
      * apply keeps_modify. intros g' Hg'. apply solvent_players; [exact Hg'|].
        apply fold_pay_solvent; [assumption|apply Hg'].
      * apply keeps_lift_bind. intros nm _. apply keeps_solvent_log.
  - apply keeps_bind; [|intros _; apply keeps_solvent_log].
    apply keeps_modify. intros g' Hg'. now apply (solvent_scalars g').
Qed.

Lemma keeps_solvent_collect_bets : keeps solvent collect_bets.
Proof.
  unfold collect_bets.
  apply keeps_bind; [apply keeps_solvent_sweep|intros _].
  apply keeps_solvent_map. intros p [Hc Hb]. split; cbn; lia.
Qed.

Lemma keeps_solvent_advance_stage : keeps solvent advance_stage.
Proof.
  apply keeps_advance_stage;
    [apply solvent_console|apply solvent_log|apply solvent_deck|apply solvent_board
    |apply solvent_stage].
Qed.

Lemma keeps_solvent_seek_live (fuel : nat) : keeps solvent (seek_live fuel).
Proof. apply keeps_seek_live. apply solvent_index. Qed.

Section SolventLoop.
Variable process_turn : M unit.
Hypothesis keeps_process_turn : keeps solvent process_turn.

Lemma keeps_solvent_process_betting_round :
  keeps solvent (process_betting_round process_turn).
Proof.
  unfold process_betting_round. apply keeps_get_bind. intros g Hg.
  apply keeps_bind; [|intros _; exact keeps_process_turn].
  destruct (negb (Stage_eqb (game_stage g) PreFlop)); [|apply keeps_ret].
  apply keeps_lift_bind. intros i _.
  apply keeps_bind; [apply keeps_modify; intros g' H; now apply solvent_index|intros _].
  apply keeps_bind; [apply keeps_solvent_seek_live|intros _].
  apply keeps_bind;
    [apply keeps_modify; intros g' H; apply solvent_current_bet; [exact H|lia]|intros _].
  apply keeps_solvent_map. intros p [Hc Hb].
  destruct (live (set_bet 0 p)); split; cbn; lia.
Qed.

Lemma keeps_solvent_enter_stage (stage : Stage) :
  keeps solvent (enter_stage process_turn stage).
Proof.
  unfold enter_stage. destruct (Stage_eqb stage Showdown); [apply keeps_solvent_end_round|].
  apply keeps_get_bind. intros g Hg.
  apply keeps_bind; [apply keeps_card_str|intros cs].
  apply keeps_bind; [apply keeps_solvent_log|intros _].
  apply keeps_solvent_process_betting_round.
Qed.

Lemma keeps_solvent_end_betting_round : keeps solvent (end_betting_round process_turn).
Proof.
  unfold end_betting_round.
  apply keeps_bind; [apply keeps_solvent_collect_bets|intros _].
  apply keeps_bind; [apply keeps_solvent_advance_stage|intros stage].
  apply keeps_solvent_enter_stage.
Qed.

Lemma keeps_solvent_take_turn (a : Answer) : keeps solvent (take_turn process_turn a).
Proof.
  unfold take_turn. apply keeps_get_bind. intros g Hg.
  apply keeps_bind; [apply keeps_seat_of|intros k].
  apply keeps_seat_bind. intros g1 p _ _.
  destruct (is_folded p || is_all_in p).
  - apply keeps_lift_bind. intros i _.
    apply keeps_bind; [apply keeps_modify; intros g' H; now apply solvent_index|intros _].
    exact keeps_process_turn.
  - destruct (negb (is_cpu p) && negb (is_gemini p)).
    + apply keeps_bind; [apply keeps_solvent_log|intros _].
      apply keeps_modify. intros g' H. now apply (solvent_scalars g').
    + apply keeps_bind; [|intros _; exact keeps_process_turn].
      destruct (is_cpu p).
      * apply keeps_get_cpu_action. apply solvent_action.
      * destruct (is_gemini p); [|apply keeps_ret].
        apply keeps_get_gemini_poker_action;
          [apply solvent_console|apply solvent_log|apply solvent_action].
Qed.
End SolventLoop.

Lemma keeps_solvent_process_turn (env : list Answer) : keeps solvent (process_turn env).
Proof.
  induction env as [|a env IH]; cbn [process_turn].
  - apply keeps_get_bind. intros g Hg.
    destruct (negb (game_in_progress g)); [apply keeps_ret|apply keeps_running].
  - apply keeps_get_bind. intros g Hg.
    destruct (negb (game_in_progress g)); [apply keeps_ret|].
    destruct (length (active_players g) <=? 1)%nat; [apply keeps_solvent_end_round|].
    destruct (round_closed g).
    + now apply keeps_solvent_end_betting_round.
    + now apply keeps_solvent_take_turn.
Qed.

Lemma post_blind_solvent (amount : Z) (p : Player) :
  0 <= amount -> seat_solvent p -> seat_solvent (post_blind amount p).
Proof.
  intros Ha [Hc Hb]. unfold post_blind, seat_solvent.
  destruct (_ =? 0); cbn; lia.
Qed.

Lemma deal_hands_solvent (ps : list Player) (d : list Card) :
  Forall seat_solvent ps -> Forall seat_solvent (fst (deal_hands ps d)).
Proof.
  intros H. revert d; induction H as [|p r [Hc Hb] Hr IH]; intros d; simpl; [constructor|].
  destruct (deal d) as [c1 d1]. destruct (deal d1) as [c2 d2].
  specialize (IH d2). destruct (deal_hands r d2). simpl in *.
  constructor; [split; cbn; lia|exact IH].
Qed.

Lemma Forall_filter {A} (P : A -> Prop) (f : A -> bool) (l : list A) :
  Forall P l -> Forall P (filter f l).
Proof.
  rewrite !Forall_forall. intros H x Hx. apply filter_In in Hx. now apply H.
Qed.

Lemma keeps_solvent_reset_table (d : list Card) : keeps solvent (reset_table d).
Proof.
  unfold reset_table.
  apply keeps_bind;
    [apply keeps_modify; intros g H; now apply (solvent_scalars g)|intros _].
  apply keeps_bind; [apply keeps_modify; intros g H; now apply solvent_deck|intros _].
  apply keeps_bind; [apply keeps_modify; intros g H; now apply solvent_board|intros _].
  apply keeps_bind;
    [apply keeps_modify; intros g H; apply solvent_pot; [exact H|lia]|intros _].
  apply keeps_bind;
    [apply keeps_modify; intros g H; apply solvent_current_bet; [exact H|lia]|intros _].
  apply keeps_bind; [apply keeps_modify; intros g H; now apply solvent_stage|intros _].
  apply keeps_bind; [apply keeps_modify; intros g H; now apply solvent_log|intros _].
  apply keeps_modify. intros g H. apply solvent_players; [exact H|].
  apply Forall_filter. apply H.
Qed.

Lemma keeps_solvent_post_blinds : keeps solvent post_blinds.
Proof.
  unfold post_blinds.
  apply keeps_bind; [|intros _].
  { apply keeps_modify. intros g H.
    pose proof (deal_hands_solvent (players g) (deck g) (proj1 H)) as Hd.
    destruct (deal_hands (players g) (deck g)) as [ps d]. cbn [fst] in Hd.
    apply solvent_deck. now apply solvent_players. }
  apply keeps_get_bind. intros g Hg.
  pose proof Hg as (_ & _ & _ & Hsb & Hbb).
  apply keeps_lift_bind. intros sbi _.
  apply keeps_bind;
    [apply keeps_modify; intros g' H; now apply (solvent_scalars g')|intros _].
  apply keeps_lift_bind. intros bbi _.
  apply keeps_bind;
    [apply keeps_modify; intros g' H; now apply (solvent_scalars g')|intros _].
  apply keeps_bind; [apply keeps_seat_of|intros sb].
  apply keeps_bind; [apply keeps_seat_of|intros bb].
  apply keeps_seat_bind. intros g1 p1 _ _.
  apply keeps_bind; [apply keeps_solvent_log|intros _].
  apply keeps_bind;
    [apply keeps_solvent_upd; intros p; now apply post_blind_solvent|intros _].
  apply keeps_seat_bind. intros g2 p2 _ _.
  apply keeps_bind; [apply keeps_solvent_log|intros _].
  apply keeps_bind;
    [apply keeps_solvent_upd; intros p; now apply post_blind_solvent|intros _].
  apply keeps_seat_bind. intros g3 sb_player H3 Hs.
  apply keeps_seat_bind. intros g4 bb_player H4 Hb.
  assert (Hsp : seat_solvent sb_player).
  { destruct H3 as [H3 _]. rewrite Forall_forall in H3. apply H3.
    now apply nth_error_In in Hs. }
  assert (Hbp : seat_solvent bb_player).
  { destruct H4 as [H4 _]. rewrite Forall_forall in H4. apply H4.
    now apply nth_error_In in Hb. }
  apply keeps_bind; [|intros _].
  { apply keeps_modify. intros g' H. apply solvent_pot; [exact H|].
    destruct H as (_ & Hp & _), Hsp, Hbp. lia. }
  apply keeps_bind;
    [apply keeps_modify; intros g' H; now apply solvent_current_bet|intros _].
  apply keeps_lift_bind. intros i _.
  apply keeps_modify. intros g' H. now apply solvent_index.
Qed.

Lemma keeps_solvent_start_round (d : list Card) (env : list Answer) :
  keeps solvent (start_round d env).
Proof.
  unfold start_round, start_round_locked.
  apply keeps_bind; [|intros started].
  - apply keeps_bind; [apply keeps_solvent_reset_table|intros _].
    apply keeps_get_bind. intros g Hg.
    destruct (length (players g) <? 2)%nat.
    + apply keeps_bind; [apply keeps_solvent_log|intros _].
      apply keeps_bind; [|intros _; apply keeps_ret].
      apply keeps_modify. intros g' H. now apply (solvent_scalars g').
    + apply keeps_bind; [apply keeps_solvent_post_blinds|intros _; apply keeps_ret].
  - destruct started; [|apply keeps_ret].
    apply keeps_solvent_process_betting_round. apply keeps_solvent_process_turn.
Qed.

Lemma keeps_solvent_start_game (d : list Card) (env : list Answer) :
  keeps solvent (start_game d env).
Proof.
  unfold start_game. apply keeps_get_bind. intros g Hg.
  destruct (length (players g) <? 2)%nat; [apply keeps_solvent_log|].
  apply keeps_bind;
    [apply keeps_modify; intros g' H; now apply (solvent_scalars g')|intros _].
  apply keeps_lift_bind. intros i _.
  apply keeps_bind;
    [apply keeps_modify; intros g' H; now apply (solvent_scalars g')|intros _].
  apply keeps_solvent_start_round.
Qed.

Lemma keeps_solvent_handle_human_action (action amount : PyVal) (env : list Answer) :
  keeps solvent (handle_human_action action amount env).
Proof.
  unfold handle_human_action. apply keeps_get_bind. intros g Hg.
  destruct (negb (human_action_needed g)); [apply keeps_ret|].
  apply keeps_get_bind. intros g' Hg'.
  destruct (negb (human_action_needed g')); [apply keeps_ret|].
  apply keeps_bind;
    [apply keeps_modify; intros g1 H; now apply (solvent_scalars g1)|intros _].
  apply keeps_bind; [apply keeps_solvent_handle_action|intros _].
  apply keeps_spawn. apply keeps_solvent_process_turn.
Qed.

Lemma new_game_solvent (human : string) (cpus geminis : nat) (model : bool)
    (d : list Card) :
  solvent (new_game human cpus geminis model d).
Proof.
  unfold solvent, new_game. proj. repeat split; try lia.
  constructor; [split; cbn; lia|].
  apply Forall_forall. intros p Hp. apply in_app_or in Hp. destruct Hp as [Hp|Hp].
  - apply in_map_iff in Hp. destruct Hp as (i & <- & _). split; cbn; lia.
  - destruct model; [|destruct Hp].
    apply in_map_iff in Hp. destruct Hp as (i & <- & _). split; cbn; lia.
Qed.



